(** * udger-nodejs: the classification engine of [UdgerParser]

    A shallow embedding of the class [UdgerParser] (the parser module whose
    text is carried in [src/examples/connectInfo.js]) and of the parts of
    JavaScript it relies on, followed by the properties of the engine that
    the specification states.

    Conventions of the embedding:
    - a JavaScript primitive is a [jsval]; numbers are integers ([Z]), the
      only numbers the dataset (an export of SQLite integer columns) holds;
    - a flat JavaScript object (a joined record [r], the result sections
      [rua] and [rip]) is a [gmap string jsval]; a key that is absent reads
      as [undefined];
    - a nested object built with [dotProp.set] is a [gmap string jvalue];
    - result objects returned by [parse] live in a heap and are handled by
      reference, because the cache and the caller share them. *)

From Stdlib Require Import Ascii String.
From stdpp Require Import gmap strings list fin_maps pretty sorting.

#[local] Set Warnings "-register-all,-clear-no-such-hyp".
#[local] Open Scope string_scope.
#[local] Open Scope list_scope.
#[local] Open Scope nat_scope.

(** ** JavaScript values *)

Inductive jsval :=
  | JUndef
  | JNull
  | JBool (b : bool)
  | JNum (n : Z)
  | JStr (s : string).

#[global] Instance jsval_eq_dec : EqDecision jsval.
Proof. solve_decision. Defined.

(** A nested object, as [dotProp.set] builds it and as [parse] returns it. *)
Inductive jvalue :=
  | JV (v : jsval)
  | JO (m : gmap string jvalue).

Module Js.

(** [ToBoolean]. *)
Definition truthy (v : jsval) : bool :=
  match v with
  | JUndef | JNull => false
  | JBool b => b
  | JNum n => negb (n =? 0)%Z
  | JStr s => negb (String.eqb s "")
  end.

(** [a || b]. *)
Definition or (a b : jsval) : jsval := if truthy a then a else b.

(** [ToString] on primitives. *)
Definition to_str (v : jsval) : string :=
  match v with
  | JUndef => "undefined"
  | JNull => "null"
  | JBool true => "true"
  | JBool false => "false"
  | JNum n => pretty n
  | JStr s => s
  end.

(** [a === b] on primitives. *)
Definition strict_eq (a b : jsval) : bool := bool_decide (a = b).

Definition is_digit (c : ascii) : bool :=
  let n := Ascii.N_of_ascii c in ((48 <=? n) && (n <=? 57))%N.

Definition digit_val (c : ascii) : N := (Ascii.N_of_ascii c - 48)%N.

Fixpoint digits_val (acc : N) (s : string) : option N :=
  match s with
  | EmptyString => Some acc
  | String c s' =>
      if is_digit c then digits_val (10 * acc + digit_val c)%N s' else None
  end.

(** The number a string of decimal digits denotes; [None] for any other
    string. *)
Definition decimal (s : string) : option N :=
  match s with
  | EmptyString => None
  | _ => digits_val 0%N s
  end.

(** A canonical numeric string: the [ToString] of a non-negative integer,
    that is decimal digits without a leading zero (["0"] itself apart). *)
Definition canonical_numeric (s : string) : option N :=
  match s with
  | String "0" EmptyString => Some 0%N
  | String "0" _ => None
  | _ => decimal s
  end.

(** [ToNumber] on primitives, [None] standing for [NaN].  Strings are
    read as an optionally signed run of decimal digits (the empty string
    is 0); the other numeric literals of JavaScript are left out, the
    dataset holding integers. *)
Definition to_number (v : jsval) : option Z :=
  match v with
  | JUndef => None
  | JNull => Some 0%Z
  | JBool b => Some (if b then 1 else 0)%Z
  | JNum n => Some n
  | JStr "" => Some 0%Z
  | JStr (String "-" s) => (λ n, - Z.of_N n)%Z <$> decimal s
  | JStr (String "+" s) => Z.of_N <$> decimal s
  | JStr s => Z.of_N <$> decimal s
  end.

(** [v == n] for a number [n]: [null] and [undefined] equal no number,
    everything else is compared after [ToNumber]. *)
Definition loose_eq_num (v : jsval) (n : Z) : bool :=
  match v with
  | JUndef | JNull => false
  | _ => match to_number v with Some m => (m =? n)%Z | None => false end
  end.

(** [v <= n] and [v >= n] for a number [n] ([None] is [NaN]). *)
Definition le_num (v : jsval) (n : option Z) : bool :=
  match to_number v, n with
  | Some a, Some b => (a <=? b)%Z
  | _, _ => false
  end.

Definition ge_num (v : jsval) (n : option Z) : bool :=
  match to_number v, n with
  | Some a, Some b => (b <=? a)%Z
  | _, _ => false
  end.

(** [s.split(sep)] for a one-character separator. *)
Fixpoint split (sep : ascii) (s : string) : list string :=
  match s with
  | EmptyString => [""]
  | String c s' =>
      if Ascii.eqb c sep then "" :: split sep s'
      else match split sep s' with
           | [] => [String c ""]
           | w :: ws => String c w :: ws
           end
  end.

(** [arr[v]] for an array [arr]: a number or a canonical numeric string
    selects an element, any other key reads [undefined] (the inherited
    members of arrays are not keys a dataset cell holds). *)
Definition array_index (v : jsval) : option nat :=
  match v with
  | JNum n => if (0 <=? n)%Z then Some (Z.to_nat n) else None
  | JStr s => N.to_nat <$> canonical_numeric s
  | _ => None
  end.

(** An array index in the sense of the language: a canonical numeric
    string below 2^32 - 1. *)
Definition array_index_key (s : string) : option N :=
  match canonical_numeric s with
  | Some n => if (n <=? 4294967294)%N then Some n else None
  | None => None
  end.

Definition index_le {A} (a b : N * A) : Prop := (a.1 ≤ b.1)%N.

#[global] Instance index_le_dec {A} (a b : N * A) : Decision (index_le a b).
Proof. unfold index_le. apply _. Defined.

(** The own properties of an ordinary object in the order [Object.keys]
    and [for ... in] visit them: array indices in ascending order, then
    the other names in the order they were created.  The object is given
    by its properties in creation order. *)
Definition own_entries {A} (o : list (string * A)) : list (string * A) :=
  let indices := omap (λ kv, (λ n, (n, kv)) <$> array_index_key kv.1) o in
  (snd <$> merge_sort index_le indices)
  ++ filter (λ kv, array_index_key kv.1 = None) o.

(** [Object.keys(o)] *)
Definition Object_keys {A} (o : list (string * A)) : list string :=
  fst <$> own_entries o.

(** The own property [key] of an object given by its property list. *)
Definition own_property {A} (o : list (string * A)) (key : string) : option A :=
  snd <$> List.find (λ kv, bool_decide (kv.1 = key)) o.

(** [delete o[key]] *)
Definition delete_property {A} (o : list (string * A)) (key : string)
    : list (string * A) :=
  filter (λ kv, kv.1 ≠ key) o.

(** The names every ordinary object inherits from [Object.prototype]; each
    of them reads as a function or an object, hence as a true value. *)
Definition object_prototype_keys : list string :=
  ["constructor"; "__defineGetter__"; "__defineSetter__"; "hasOwnProperty";
   "__lookupGetter__"; "__lookupSetter__"; "isPrototypeOf";
   "propertyIsEnumerable"; "toString"; "valueOf"; "__proto__"; "toLocaleString"].

End Js.

(** ** The dataset

    [this.data[table]] is [{ columns, data }]: [columns] sends a column
    name to its position in a row, [data] is the list of rows (arrays of
    cells).  After the one-time conversion a foreign-key cell holds the
    position of the row it refers to in the other table. *)

Module Table.
Record t := {
  columns : gmap string nat;
  data : list (list jsval)
}.
End Table.
Abbreviation Table := Table.t.

Record Dataset := {
  udger_crawler_list : Table;
  udger_crawler_class : Table;
  udger_client_regex : Table;
  udger_client_list : Table;
  udger_client_class : Table;
  udger_os_regex : Table;
  udger_os_list : Table;
  udger_client_os_relation : Table;
  udger_deviceclass_regex : Table;
  udger_deviceclass_list : Table;
  udger_devicename_regex : Table;
  udger_devicename_list : Table;
  udger_devicename_brand : Table;
  udger_ip_list : Table;
  udger_ip_class : Table;
  udger_datacenter_range : Table;
  udger_datacenter_range6 : Table;
  udger_datacenter_list : Table
}.

(** What a row variable of the parser holds: nothing yet ([undefined]), a
    row of a table (an array), or a joined record (an object). *)
Inductive rval :=
  | RUndef
  | RRow (row : list jsval)
  | RRec (rec : gmap string jsval).

(** The collaborators of the engine whose code is not part of [src/]: the
    module [./utils], JavaScript's regular expressions, the two methods of
    [String.prototype] that depend on the character tables of Unicode, and
    the class [Address6] of the package [ip-address].  The engine is
    embedded over any implementation of them.
    - [ua_match re ua] is [ua.match(utils.phpRegexpToJs(re))]: [None] when
      the pattern does not match, else the array of the whole match and
      the capture groups ([None] for a group that took no part);
    - [getIpVersion], [inetPton], [inetNtop], [ip2long] are the functions
      of [./utils] with these names;
    - [address6_groups ip] is the list
      [new Address6(ip).canonicalForm().split(':')] with each item read
      by [parseInt(h, 16)];
    - [toLowerCase s] is [s.toLowerCase()], which lowers every cased
      character of Unicode, and [trim s] is [s.trim()], which strips the
      white space and the line terminators of Unicode at both ends. *)
Record Helpers := {
  ua_match : jsval → string → option (list (option string));
  getIpVersion : string → jsval;
  inetPton : string → list N;
  inetNtop : list N → string;
  ip2long : string → Z;
  address6_groups : string → list Z;
  toLowerCase : string → string;
  trim : string → string
}.

(** Options of [parse]: [opts.json] and [opts.full], by truth value. *)
Record Opts := { json : bool; full : bool }.

(** ** dot-prop: nested objects addressed by dotted paths *)

Module dotProp.

Fixpoint set_path (path : list string) (value : jvalue) (object : gmap string jvalue)
    : gmap string jvalue :=
  match path with
  | [] => object
  | [p] => <[p := value]> object
  | p :: rest =>
      let sub := match object !! p with Some (JO m) => m | _ => ∅ end in
      <[p := JO (set_path rest value sub)]> object
  end.

Fixpoint delete_path (path : list string) (object : gmap string jvalue)
    : gmap string jvalue :=
  match path with
  | [] => object
  | [p] => delete p object
  | p :: rest =>
      match object !! p with
      | Some (JO m) => <[p := JO (delete_path rest m)]> object
      | _ => object
      end
  end.

(** [dotProp.set(object, path, value)]. *)
Definition set (object : gmap string jvalue) (path : string) (value : jsval)
    : gmap string jvalue :=
  set_path (Js.split "." path) (JV value) object.

(** [dotProp.delete(object, path)]. *)
Definition delete (object : gmap string jvalue) (path : string) : gmap string jvalue :=
  delete_path (Js.split "." path) object.

End dotProp.

(** [c && dotProp.set(j, path, value)] as a statement. *)
Definition set_when (c : bool) (path : string) (value : jsval)
    (j : gmap string jvalue) : gmap string jvalue :=
  if c then dotProp.set j path value else j.

(** [rua[k] && dotProp.set(j, path, rua[k])]. *)
Definition set_field (rua : gmap string jsval) (k path : string)
    (j : gmap string jvalue) : gmap string jvalue :=
  set_when (Js.truthy (default JUndef (rua !! k))) path (default JUndef (rua !! k)) j.

(** ** Rows, records and joins *)

(** [o[k]] for a record. *)
Definition get (o : gmap string jsval) (k : string) : jsval :=
  default JUndef (o !! k).

(** [o[k] || ''] *)
Definition get_or_empty (o : gmap string jsval) (k : string) : jsval :=
  Js.or (get o k) (JStr "").

(** A column position as a JavaScript value: [columns[key]]. *)
Definition column_val (c : option nat) : jsval :=
  match c with Some n => JNum (Z.of_nat n) | None => JUndef end.

(** [row[c]] where [c] is [columns[key]].  On an array a position selects
    a cell; on a record the position is a property name like any other. *)
Definition cell (row : rval) (c : option nat) : jsval :=
  match row with
  | RUndef => JUndef
  | RRow l =>
      match c with
      | Some n => default JUndef (l !! n)
      | None => JUndef
      end
  | RRec o => get o (Js.to_str (column_val c))
  end.

(** [table.data[v]]: the row a foreign key [v] refers to. *)
Definition row_at (t : Table) (v : jsval) : rval :=
  match Js.array_index v with
  | Some n => match Table.data t !! n with Some row => RRow row | None => RUndef end
  | None => RUndef
  end.

(** [{ ...r, ...s }] *)
Definition spread (r s : gmap string jsval) : gmap string jsval := s ∪ r.

Module UdgerParser.

(** [findBy(table, fn)] *)
Definition findBy (table : Table)
    (fn : list jsval → gmap string nat → bool) : option (list jsval) :=
  List.find (λ v, fn v (Table.columns table)) (Table.data table).

(** [filterBy(table, fn)] *)
Definition filterBy (table : Table)
    (fn : list jsval → gmap string nat → bool) : list (list jsval) :=
  List.filter (λ v, fn v (Table.columns table)) (Table.data table).

(** [map({ table, row, keys, rename })]. *)
Definition map (table : Table) (row : rval) (keys : list string)
    (rename : list (string * string)) : gmap string jsval :=
  match row with
  | RUndef => ∅
  | _ =>
      let ret :=
        foldl (λ acc key, <[key := cell row (Table.columns table !! key)]> acc) ∅ keys in
      foldl (λ ret '(k1, k2), delete k1 (<[k2 := get ret k1]> ret)) ret rename
  end.


(** The fields of a parser ([this]).  [db] tells whether the database
    handle is open.  [cache] lists the own properties of [this.cache] in
    the order they were created, a stored result being a reference into
    [heap]; [proto_extra] lists the properties that a cache read has
    added to [Object.prototype], which every later lookup [this.cache[key]]
    sees (see [cacheRead]).  [defaultRet_user_agent] and
    [defaultRet_ip_address] are the two sections of [defaultResult.json]. *)
Record Parser := {
  data : Dataset;
  db : bool;
  ip : option string;
  ua : option string;
  cacheEnable : bool;
  cacheMaxRecords : Z;
  cache : list (string * nat);
  keyCache : string;
  defaultRet_user_agent : gmap string jsval;
  defaultRet_ip_address : gmap string jsval;
  retUa : gmap string jsval;
  retIp : gmap string jsval;
  heap : list (gmap string jvalue);
  proto_extra : list string
}.

(** [JSON.parse(JSON.stringify(o))] on a flat object: a copy without the
    properties whose value is [undefined]. *)
Definition json_clone (o : gmap string jsval) : gmap string jsval :=
  filter (λ kv, kv.2 ≠ JUndef) o.

(** What [parseUa] and [parseIp] return: [{ udger, json }]. *)
Record Parsed := {
  udger : gmap string jsval;
  json_ : gmap string jvalue
}.

(** The variables of [parseUa] that outlive a stage. *)
Record UaVars := {
  rua : gmap string jsval;
  ruaJson : gmap string jvalue;
  r : rval;
  client_id : jsval;
  client_class_id : jsval;
  os_id : jsval;
  deviceclass_id : jsval
}.

Definition with_r (x : rval) (v : UaVars) : UaVars :=
  {| rua := rua v; ruaJson := ruaJson v; r := x;
     client_id := client_id v; client_class_id := client_class_id v;
     os_id := os_id v; deviceclass_id := deviceclass_id v |}.

(** [e[1]] of a match array. *)
Definition group1 (e : list (option string)) : jsval :=
  match e !! 1 with Some (Some s) => JStr s | _ => JUndef end.

Section Engine.

Variable H : Helpers.
Variable this : Parser.

(** *** [parseUa]: the crawler branch (the body of [if (q)]) *)

(** The record [r] of the branch: the row with its class joined. *)
Definition crawler_join (q : list jsval) : gmap string jsval :=
  let d := data this in
  let r := map (udger_crawler_list d) (RRow q)
             ["id"; "name"; "ver"; "ver_major"; "last_seen"; "respect_robotstxt";
              "family"; "family_code"; "family_homepage"; "family_icon";
              "vendor"; "vendor_code"; "vendor_homepage"; "class_id"]
             [("id", "botid")] in
  let r := spread r
             (map (udger_crawler_class d)
                (row_at (udger_crawler_class d) (get r "class_id"))
                ["crawler_classification"; "crawler_classification_code"] []) in
  r.

(** The statements of the branch after [r] is built. *)
Definition crawler_fields (opts : Opts) (r : gmap string jsval) (v : UaVars) : UaVars :=
  let rua := rua v in
  let rua := <["ua_class" := JStr "Crawler"]> rua in
  let rua := <["ua_class_code" := JStr "crawler"]> rua in
  let rua := <["ua" := get_or_empty r "name"]> rua in
  let rua := <["ua_version" := get_or_empty r "ver"]> rua in
  let rua := <["ua_version_major" := get_or_empty r "ver_major"]> rua in
  let rua := <["ua_family" := get_or_empty r "family"]> rua in
  let rua := <["ua_family_code" := get_or_empty r "family_code"]> rua in
  let rua := <["ua_family_homepage" := get_or_empty r "family_homepage"]> rua in
  let rua := <["ua_family_vendor" := get_or_empty r "vendor"]> rua in
  let rua := <["ua_family_vendor_code" := get_or_empty r "vendor_code"]> rua in
  let rua := <["ua_family_vendor_homepage" := get_or_empty r "vendor_homepage"]> rua in
  let rua := <["ua_family_icon" := get_or_empty r "family_icon"]> rua in
  let rua := <["ua_family_info_url" :=
                JStr ("https://udger.com/resources/ua-list/bot-detail?bot="
                      +:+ Js.to_str (get_or_empty r "family")
                      +:+ "#id" +:+ Js.to_str (get_or_empty r "botid"))]> rua in
  let rua := <["crawler_last_seen" := get_or_empty r "last_seen"]> rua in
  let rua := <["crawler_category" := get_or_empty r "crawler_classification"]> rua in
  let rua := <["crawler_category_code" :=
                get_or_empty r "crawler_classification_code"]> rua in
  let rua := <["crawler_respect_robotstxt" := get_or_empty r "respect_robotstxt"]> rua in
  let j := ruaJson v in
  let j := set_field rua "ua" "ua.name" j in
  let j :=
    if full opts then
      let j := dotProp.set j "ua.class.name" (JStr "Crawler") in
      let j := dotProp.set j "ua.class.code" (JStr "crawler") in
      let j := set_field rua "ua_version" "ua.version.current" j in
      let j := set_field rua "ua_version_major" "ua.version.major" j in
      let j := set_field rua "ua_family" "ua.family.name" j in
      let j := set_field rua "ua_family_code" "ua.family.code" j in
      let j := set_field rua "ua_family_homepage" "ua.family.homepage" j in
      let j := set_field rua "ua_family_vendor" "ua.family.vendor.name" j in
      let j := set_field rua "ua_family_vendor_code" "ua.family.vendor.code" j in
      let j := set_field rua "ua_family_homepage" "ua.family.vendor.homepage" j in
      let j := set_field rua "ua_family_icon" "ua.family.icon" j in
      set_when (Js.truthy (get rua "ua_family") && Js.truthy (get r "botid"))
        "ua.family.infoUrl" (get rua "ua_family_info_url") j
    else
      let j := dotProp.set j "ua.class" (JStr "crawler") in
      let j := set_field rua "ua_family_code" "ua.family.code" j in
      let j := set_field rua "ua_family_homepage" "ua.family.homepage" j in
      set_field rua "ua_family_vendor_code" "ua.family.vendor" j in
  let j := set_field rua "crawler_last_seen" "crawler.lastSeen" j in
  let j :=
    if full opts then
      let j := set_field rua "crawler_category" "crawler.category.name" j in
      let j := set_field rua "crawler_category_code" "crawler.category.code" j in
      set_field rua "crawler_respect_robotstxt" "crawler.respectRobotsTxt" j
    else
      set_field rua "crawler_category_code" "crawler.category" j in
  {| rua := rua; ruaJson := j; r := RRec r;
     client_id := client_id v; client_class_id := JNum 99;
     os_id := os_id v; deviceclass_id := deviceclass_id v |}.

Definition crawler_found (opts : Opts) (q : list jsval) (v : UaVars) : UaVars :=
  crawler_fields opts (crawler_join q) v.

(** *** [parseUa]: a client pattern matched (the body of [if (e)]) *)

(** The record [r]: the pattern row with its client and its class joined. *)
Definition client_join (row : list jsval) : gmap string jsval :=
  let d := data this in
  let r := map (udger_client_regex d) (RRow row) ["client_id"; "regstring"] [] in
  let r := spread r
             (map (udger_client_list d)
                (row_at (udger_client_list d) (get r "client_id"))
                ["id"; "class_id"; "name"; "name_code"; "homepage"; "icon";
                 "icon_big"; "engine"; "vendor"; "vendor_code"; "vendor_homepage";
                 "uptodate_current_version"]
                [("id", "client_id")]) in
  let r := spread r
             (map (udger_client_class d)
                (row_at (udger_client_class d) (get r "class_id"))
                ["id"; "client_classification"; "client_classification_code"]
                [("id", "class_id")]) in
  r.

(** The statements after [r] is built; [e] is the match. *)
Definition client_fields (opts : Opts) (r : gmap string jsval)
    (e : list (option string)) (v : UaVars) : UaVars :=
  let rua := rua v in
  let rua := <["ua_class" := get r "client_classification"]> rua in
  let rua := <["ua_class_code" := get r "client_classification_code"]> rua in
  let j := ruaJson v in
  let j :=
    if full opts then
      let j := dotProp.set j "ua.class.name" (get rua "ua_class") in
      dotProp.set j "ua.class.code" (get rua "ua_class_code")
    else
      dotProp.set j "ua.class" (get rua "ua_class_code") in
  let rua :=
    if Js.truthy (group1 e) then
      let rua := <["ua" := JStr (Js.to_str (get r "name") +:+ " "
                                 +:+ Js.to_str (group1 e))]> rua in
      let rua := <["ua_version" := group1 e]> rua in
      <["ua_version_major" :=
         JStr (default "" (head (Js.split "." (Js.to_str (group1 e)))))]> rua
    else
      let rua := <["ua" := get r "name"]> rua in
      let rua := <["ua_version" := JStr ""]> rua in
      <["ua_version_major" := JStr ""]> rua in
  let j :=
    if Js.truthy (get rua "ua") then dotProp.set j "ua.name" (get rua "ua")
    else dotProp.delete j "ua.name" in
  let j :=
    if full opts then
      let j :=
        if Js.truthy (get rua "ua_version")
        then dotProp.set j "ua.version.current" (get rua "ua_version")
        else dotProp.delete j "ua.version.current" in
      if Js.truthy (get rua "ua_version_major")
      then dotProp.set j "ua.version.current" (get rua "ua_version_major")
      else dotProp.delete j "ua.version.current"
    else j in
  let rua := <["ua_uptodate_current_version" :=
                get_or_empty r "uptodate_current_version"]> rua in
  let rua := <["ua_family" := get_or_empty r "name"]> rua in
  let rua := <["ua_family_code" := get_or_empty r "name_code"]> rua in
  let rua := <["ua_family_homepage" := get_or_empty r "homepage"]> rua in
  let rua := <["ua_family_vendor" := get_or_empty r "vendor"]> rua in
  let rua := <["ua_family_vendor_code" := get_or_empty r "vendor_code"]> rua in
  let rua := <["ua_family_vendor_homepage" := get_or_empty r "vendor_homepage"]> rua in
  let rua := <["ua_family_icon" := get_or_empty r "icon"]> rua in
  let rua := <["ua_family_icon_big" := get_or_empty r "icon_big"]> rua in
  let rua := <["ua_family_info_url" :=
                JStr ("https://udger.com/resources/ua-list/browser-detail?browser="
                      +:+ Js.to_str (get_or_empty r "name"))]> rua in
  let rua := <["ua_engine" := get_or_empty r "engine"]> rua in
  let j :=
    if full opts then
      let j := set_field rua "ua_uptodate_current_version"
                 "ua.uptodateCurrentVersion" j in
      let j := set_field rua "ua_family" "ua.family.name" j in
      let j := set_field rua "ua_family_code" "ua.family.code" j in
      let j := set_field rua "ua_family_homepage" "ua.family.homepage" j in
      let j := set_field rua "ua_family_vendor" "ua.family.vendor.name" j in
      let j := set_field rua "ua_family_vendor_code" "ua.family.vendor.code" j in
      let j := set_field rua "ua_family_vendor_homepage"
                 "ua.family.vendor.homepage" j in
      let j := set_field rua "ua_family_icon" "ua.family.icon" j in
      let j := set_field rua "ua_family_icon_big" "ua.family.iconBig" j in
      set_when (Js.truthy (get r "name")) "ua.family.infoUrl"
        (get rua "ua_family_info_url") j
    else
      set_field rua "ua_family_code" "ua.family" j in
  let j := set_field rua "ua_engine" "ua.engine" j in
  {| rua := rua; ruaJson := j; r := RRec r;
     client_id := get r "client_id"; client_class_id := get r "class_id";
     os_id := os_id v; deviceclass_id := deviceclass_id v |}.

Definition client_found (opts : Opts) (row : list jsval)
    (e : list (option string)) (v : UaVars) : UaVars :=
  client_fields opts (client_join row) e v.

(** The loop [for (r of this.data.udger_client_regex.data)], which
    assigns each row to [r] and stops at the first match. *)
Fixpoint client_loop (opts : Opts) (ua : string) (rows : list (list jsval))
    (v : UaVars) : UaVars :=
  match rows with
  | [] => v
  | row :: rest =>
      let q := Table.columns (udger_client_regex (data this)) !! "regstring" in
      match ua_match H (cell (RRow row) q) ua with
      | Some e => client_found opts row e v
      | None => client_loop opts ua rest (with_r (RRow row) v)
      end
  end.

(** *** [parseUa]: "search for crawlers", with the client stage in its
    [else] branch *)
Definition crawler_or_client (opts : Opts) (ua : string) (v : UaVars) : UaVars :=
  let q := findBy (udger_crawler_list (data this))
             (λ row cols, Js.strict_eq (cell (RRow row) (cols !! "ua_string"))
                            (JStr ua)) in
  match q with
  | Some q => crawler_found opts q v
  | None => client_loop opts ua (Table.data (udger_client_regex (data this))) v
  end.


(** The assignments [rua['os'] = ...] to [rua['os_family_vendor_homepage']
    = ...], the same in the OS stage and in the client/OS relation stage. *)
Definition os_fields (r : gmap string jsval) (rua : gmap string jsval)
    : gmap string jsval :=
  let rua := <["os" := get_or_empty r "name"]> rua in
  let rua := <["os_code" := get_or_empty r "name_code"]> rua in
  let rua := <["os_homepage" := get_or_empty r "homepage"]> rua in
  let rua := <["os_icon" := get_or_empty r "icon"]> rua in
  let rua := <["os_icon_big" := get_or_empty r "icon_big"]> rua in
  let rua := <["os_info_url" :=
                JStr ("https://udger.com/resources/ua-list/os-detail?os="
                      +:+ Js.to_str (get_or_empty r "name"))]> rua in
  let rua := <["os_family" := get_or_empty r "family"]> rua in
  let rua := <["os_family_code" := get_or_empty r "family_code"]> rua in
  let rua := <["os_family_vendor" := get_or_empty r "vendor"]> rua in
  let rua := <["os_family_vendor_code" := get_or_empty r "vendor_code"]> rua in
  <["os_family_vendor_homepage" := get_or_empty r "vendor_homepage"]> rua.

(** The eleven statements [rua['os...'] && dotProp.set(ruaJson, 'os...', ...)]
    of the full format, the same in both stages. *)
Definition os_json_full (rua : gmap string jsval) (j : gmap string jvalue)
    : gmap string jvalue :=
  let j := set_field rua "os" "os.name" j in
  let j := set_field rua "os_code" "os.code" j in
  let j := set_field rua "os_homepage" "os.homepage" j in
  let j := set_field rua "os_icon" "os.icon" j in
  let j := set_field rua "os_icon_big" "os.iconBig" j in
  let j := set_field rua "os_info_url" "os.infoUrl" j in
  let j := set_field rua "os_family" "os.family.name" j in
  let j := set_field rua "os_family_code" "os.family.code" j in
  let j := set_field rua "os_family_vendor" "os.family.vendor.name" j in
  let j := set_field rua "os_family_vendor_code" "os.family.vendor.code" j in
  set_field rua "os_family_vendor_homepage" "os.family.vendor.homepage" j.

Definition os_list_keys : list string :=
  ["id"; "family"; "family_code"; "name"; "name_code"; "homepage"; "icon";
   "icon_big"; "vendor"; "vendor_code"; "vendor_homepage"].

(** *** [parseUa]: an OS pattern matched *)
Definition os_found (opts : Opts) (row : list jsval) (v : UaVars) : UaVars :=
  let d := data this in
  let r := map (udger_os_regex d) (RRow row) ["os_id"; "regstring"] [] in
  let r := spread r
             (map (udger_os_list d) (row_at (udger_os_list d) (get r "os_id"))
                os_list_keys [("id", "os_id")]) in
  let rua := os_fields r (rua v) in
  let j := ruaJson v in
  let j :=
    if full opts then os_json_full rua j
    else
      let j := set_field rua "os_code" "os.code" j in
      set_field rua "os_family_code" "os.family" j in
  {| rua := rua; ruaJson := j; r := RRec r;
     client_id := client_id v; client_class_id := client_class_id v;
     os_id := get r "os_id"; deviceclass_id := deviceclass_id v |}.

(** The loop [for (r of this.data.udger_os_regex.data)]. *)
Fixpoint os_loop (opts : Opts) (ua : string) (rows : list (list jsval))
    (v : UaVars) : UaVars :=
  match rows with
  | [] => v
  | row :: rest =>
      let q := Table.columns (udger_os_regex (data this)) !! "regstring" in
      match ua_match H (cell (RRow row) q) ua with
      | Some e => os_found opts row v
      | None => os_loop opts ua rest (with_r (RRow row) v)
      end
  end.

Definition os_stage (opts : Opts) (ua : string) (v : UaVars) : UaVars :=
  os_loop opts ua (Table.data (udger_os_regex (data this))) v.

(** *** [parseUa]: "client/os relation".

    In the callback of [findBy] the destructured column [client_id] hides
    the variable [client_id] of [parseUa], so a row is compared with the
    position of its own column; and [map] is given the variable [r], not
    the row [q] that was found. *)
Definition os_relation_attempted (v : UaVars) : bool :=
  Js.loose_eq_num (os_id v) 0 && negb (Js.loose_eq_num (client_id v) 0).

Definition os_relation_stage (opts : Opts) (v : UaVars) : UaVars :=
  if os_relation_attempted v then
    let d := data this in
    let q := findBy (udger_client_os_relation d)
               (λ row cols, Js.strict_eq (cell (RRow row) (cols !! "client_id"))
                              (column_val (cols !! "client_id"))) in
    match q with
    | Some _ =>
        let r := map (udger_client_os_relation d) (r v) ["os_id"] [] in
        let r := spread r
                   (map (udger_os_list d) (row_at (udger_os_list d) (get r "os_id"))
                      os_list_keys [("id", "os_id")]) in
        let rua := os_fields r (rua v) in
        let j := os_json_full rua (ruaJson v) in
        {| rua := rua; ruaJson := j; r := RRec r;
           client_id := client_id v; client_class_id := client_class_id v;
           os_id := get r "os_id"; deviceclass_id := deviceclass_id v |}
    | None => v
    end
  else v.

(** *** [parseUa]: "device" *)
Definition deviceclass_list_keys : list string :=
  ["id"; "name"; "name_code"; "icon"; "icon_big"].

(** The statements on [ruaJson] that close both device class stages. *)
Definition device_class_json (opts : Opts) (rua : gmap string jsval)
    (j : gmap string jvalue) : gmap string jvalue :=
  if full opts then
    let j := set_field rua "device_class" "device.class.name" j in
    let j := set_field rua "device_class_code" "device.class.code" j in
    let j := set_field rua "device_class_icon" "device.class.icon" j in
    let j := set_field rua "device_class_icon_big" "device.class.iconBig" j in
    set_field rua "device_class_info_url" "device.class.infoUrl" j
  else
    set_field rua "device_class_code" "device.class" j.

Definition deviceclass_found (opts : Opts) (row : list jsval) (v : UaVars) : UaVars :=
  let d := data this in
  let r := map (udger_deviceclass_regex d) (RRow row)
             ["deviceclass_id"; "regstring"] [] in
  let r := spread r
             (map (udger_deviceclass_list d)
                (row_at (udger_deviceclass_list d) (get r "deviceclass_id"))
                deviceclass_list_keys [("id", "deviceclass_id")]) in
  let rua := rua v in
  let rua := <["device_class" := get_or_empty r "name"]> rua in
  let rua := <["device_class_code" := get_or_empty r "name_code"]> rua in
  let rua := <["device_class_icon" := get_or_empty r "icon"]> rua in
  let rua := <["device_class_icon_big" := get_or_empty r "icon_big"]> rua in
  let rua := <["device_class_info_url" :=
                JStr ("https://udger.com/resources/ua-list/device-detail?device="
                      +:+ Js.to_str (get r "name"))]> rua in
  {| rua := rua; ruaJson := device_class_json opts rua (ruaJson v); r := RRec r;
     client_id := client_id v; client_class_id := client_class_id v;
     os_id := os_id v; deviceclass_id := get r "deviceclass_id" |}.

(** The loop [for (r of this.data.udger_deviceclass_regex.data)]. *)
Fixpoint deviceclass_loop (opts : Opts) (ua : string) (rows : list (list jsval))
    (v : UaVars) : UaVars :=
  match rows with
  | [] => v
  | row :: rest =>
      let q := Table.columns (udger_deviceclass_regex (data this)) !! "regstring" in
      match ua_match H (cell (RRow row) q) ua with
      | Some e => deviceclass_found opts row v
      | None => deviceclass_loop opts ua rest (with_r (RRow row) v)
      end
  end.

Definition deviceclass_stage (opts : Opts) (ua : string) (v : UaVars) : UaVars :=
  deviceclass_loop opts ua (Table.data (udger_deviceclass_regex (data this))) v.

(** The device class of the client class, when no pattern gave one. *)
Definition deviceclass_fallback_attempted (v : UaVars) : bool :=
  Js.loose_eq_num (deviceclass_id v) 0
  && negb (Js.loose_eq_num (client_class_id v) (-1)).

Definition deviceclass_fallback_stage (opts : Opts) (v : UaVars) : UaVars :=
  if deviceclass_fallback_attempted v then
    let d := data this in
    let q := findBy (udger_client_class d)
               (λ row cols, Js.strict_eq (cell (RRow row) (cols !! "id"))
                              (client_class_id v)) in
    match q with
    | Some q =>
        let r := map (udger_client_class d) (RRow q) ["deviceclass_id"] [] in
        let r := spread r
                   (map (udger_deviceclass_list d)
                      (row_at (udger_deviceclass_list d) (get r "deviceclass_id"))
                      deviceclass_list_keys [("id", "deviceclass_id")]) in
        let rua := rua v in
        let rua := <["device_class" := get_or_empty r "name"]> rua in
        let rua := <["device_class_code" := get_or_empty r "name_code"]> rua in
        let rua := <["device_class_icon" := get_or_empty r "icon"]> rua in
        let rua := <["device_class_icon_big" := get_or_empty r "icon_big"]> rua in
        let rua := <["device_class_info_url" :=
                      JStr ("https://udger.com/resources/ua-list/device-detail?device="
                            +:+ Js.to_str (get_or_empty r "name"))]> rua in
        {| rua := rua; ruaJson := device_class_json opts rua (ruaJson v);
           r := RRec r;
           client_id := client_id v; client_class_id := client_class_id v;
           os_id := os_id v; deviceclass_id := get r "deviceclass_id" |}
    | None => with_r RUndef v
    end
  else v.

(** *** [parseUa]: "device marketname" *)

(** The loop [for (const r of q)]: the trimmed first group and the id of
    the first row whose pattern matches with a non-empty first group; both
    stay [undefined] when there is none. *)
Fixpoint devicename_loop (ua : string) (q : list (list jsval)) : jsval * jsval :=
  match q with
  | [] => (JUndef, JUndef)
  | row :: rest =>
      let cols := Table.columns (udger_devicename_regex (data this)) in
      match ua_match H (cell (RRow row) (cols !! "regstring")) ua with
      | Some e =>
          if Js.truthy (group1 e)
          then (JStr (trim H (Js.to_str (group1 e))), cell (RRow row) (cols !! "id"))
          else devicename_loop ua rest
      | None => devicename_loop ua rest
      end
  end.

Definition devicename_stage (ua : string) (v : UaVars) : UaVars :=
  if Js.truthy (get (rua v) "os_family_code") then
    let d := data this in
    let q := filterBy (udger_devicename_regex d)
               (λ row cols,
                  let condition1 :=
                    Js.strict_eq (cell (RRow row) (cols !! "os_family_code"))
                      (get (rua v) "os_family_code") in
                  let condition2 :=
                    Js.strict_eq (cell (RRow row) (cols !! "os_code")) (JStr "-all-")
                    || Js.strict_eq (cell (RRow row) (cols !! "os_code"))
                         (get (rua v) "os_code") in
                  condition1 && condition2) in
    let '(match_, rId) := devicename_loop ua q in
    let qC := findBy (udger_devicename_list d)
                (λ row cols,
                   Js.strict_eq (cell (RRow row) (cols !! "regex_id")) rId
                   && Js.strict_eq (cell (RRow row) (cols !! "code")) match_) in
    match qC with
    | Some qC =>
        let rC := map (udger_devicename_list d) (RRow qC) ["marketname"; "brand_id"] [] in
        let rC := spread rC
                    (map (udger_devicename_brand d)
                       (row_at (udger_devicename_brand d) (get rC "brand_id"))
                       ["id"; "brand_code"; "brand"; "brand_url"; "icon"; "icon_big"]
                       [("id", "brand_id")]) in
        let rua := rua v in
        let rua := <["device_marketname" := get_or_empty rC "marketname"]> rua in
        let rua := <["device_brand" := get_or_empty rC "brand"]> rua in
        let rua := <["device_brand_code" := get_or_empty rC "brand_code"]> rua in
        let rua := <["device_brand_homepage" := get_or_empty rC "brand_url"]> rua in
        let rua := <["device_brand_icon" := get_or_empty rC "icon"]> rua in
        let rua := <["device_brand_icon_big" := get_or_empty rC "icon_big"]> rua in
        let rua := <["device_brand_info_url" :=
                      JStr ("https://udger.com/resources/ua-list/devices-brand-detail?brand="
                            +:+ Js.to_str (get_or_empty rC "brand_code"))]> rua in
        let j := ruaJson v in
        let j := set_field rua "device_marketname" "device.marketName" j in
        let j := set_field rua "device_brand" "device.brand.name" j in
        let j := set_field rua "device_brand_code" "device.brand.code" j in
        let j := set_field rua "device_brand_homepage" "device.brand.homepage" j in
        let j := set_field rua "device_brand_icon" "device.brand.icon" j in
        let j := set_field rua "device_brand_icon_big" "device.brand.iconBig" j in
        let j := set_field rua "device_brand_info_url" "device.brand.infoUrl" j in
        {| rua := rua; ruaJson := j; r := r v;
           client_id := client_id v; client_class_id := client_class_id v;
           os_id := os_id v; deviceclass_id := deviceclass_id v |}
    | None => v
    end
  else v.

(** *** [parseUa] *)

(** The variables when the stages start: the copy of [this.retUa] with the
    string and the class "Unrecognized" written to both formats. *)
Definition ua_start (opts : Opts) (ua : string) : UaVars :=
  let rua := json_clone (retUa this) in
  let rua := <["ua_string" := JStr ua]> rua in
  let rua := <["ua_class" := JStr "Unrecognized"]> rua in
  let rua := <["ua_class_code" := JStr "unrecognized"]> rua in
  let j := dotProp.set ∅ "ua.string" (JStr ua) in
  let j :=
    if full opts then
      let j := dotProp.set j "ua.class.name" (JStr "Unrecognized") in
      dotProp.set j "ua.class.code" (JStr "unrecognized")
    else
      dotProp.set j "ua.class" (JStr "unrecognized") in
  {| rua := rua; ruaJson := j; r := RUndef;
     client_id := JNum 0; client_class_id := JNum (-1);
     os_id := JNum 0; deviceclass_id := JNum 0 |}.

(** The stages that follow the crawler and client stage, in the order of
    the source. *)
Definition later_stages (opts : Opts) (ua : string) (v : UaVars) : UaVars :=
  let v := os_stage opts ua v in
  let v := os_relation_stage opts v in
  let v := deviceclass_stage opts ua v in
  let v := deviceclass_fallback_stage opts v in
  devicename_stage ua v.

(** All the stages. *)
Definition ua_stages (opts : Opts) (ua : string) : UaVars :=
  let v := ua_start opts ua in
  let v := crawler_or_client opts ua v in
  later_stages opts ua v.

(** [parseUa(ua, opts)]; [ua] is [None] for [null] or [undefined]. *)
Definition parseUa (ua : option string) (opts : Opts) : Parsed :=
  match ua with
  | None | Some "" => {| udger := json_clone (retUa this); json_ := ∅ |}
  | Some ua =>
      let v := ua_stages opts ua in
      {| udger := rua v; json_ := ruaJson v |}
  end.

(** *** [parseIp] *)

Definition crawler_list_keys_ip : list string :=
  ["id"; "name"; "ver"; "ver_major"; "class_id"; "last_seen"; "respect_robotstxt";
   "family"; "family_code"; "family_homepage"; "family_icon";
   "vendor"; "vendor_code"; "vendor_homepage"].

(** The record [r] of a row of [udger_ip_list]: its class, its crawler
    and the class of the crawler joined, the foreign keys deleted. *)
Definition ip_join (q : list jsval) : gmap string jsval :=
  let d := data this in
  let r := map (udger_ip_list d) (RRow q)
             ["class_id"; "crawler_id"; "ip_last_seen"; "ip_hostname"; "ip_country";
              "ip_city"; "ip_country_code"] [] in
  let r := spread r
             (map (udger_ip_class d) (row_at (udger_ip_class d) (get r "class_id"))
                ["ip_classification"; "ip_classification_code"] []) in
  let r := delete "class_id" r in
  let r := spread r
             (map (udger_crawler_list d)
                (row_at (udger_crawler_list d) (get r "crawler_id"))
                crawler_list_keys_ip [("id", "botid")]) in
  let r := delete "crawler_id" r in
  let r := spread r
             (map (udger_crawler_class d)
                (row_at (udger_crawler_class d) (get r "class_id"))
                ["crawler_classification"; "crawler_classification_code"] []) in
  let r := delete "class_id" r in
  r.

(** The statements of [if (q)] after [r] is built. *)
Definition ip_fields (opts : Opts) (r : gmap string jsval)
    (rip : gmap string jsval) (j : gmap string jvalue)
    : gmap string jsval * gmap string jvalue :=
  let rip := <["ip_classification" := get_or_empty r "ip_classification"]> rip in
  let rip := <["ip_classification_code" :=
                get_or_empty r "ip_classification_code"]> rip in
  let rip := <["ip_last_seen" := get_or_empty r "ip_last_seen"]> rip in
  let rip := <["ip_hostname" := get_or_empty r "ip_hostname"]> rip in
  let rip := <["ip_country" := get_or_empty r "ip_country"]> rip in
  let rip := <["ip_country_code" := get_or_empty r "ip_country_code"]> rip in
  let rip := <["ip_city" := get_or_empty r "ip_city"]> rip in
  let rip := <["crawler_name" := get_or_empty r "name"]> rip in
  let rip := <["crawler_ver" := get_or_empty r "ver"]> rip in
  let rip := <["crawler_ver_major" := get_or_empty r "ver_major"]> rip in
  let rip := <["crawler_family" := get_or_empty r "family"]> rip in
  let rip := <["crawler_family_code" := get_or_empty r "family_code"]> rip in
  let rip := <["crawler_family_homepage" := get_or_empty r "family_homepage"]> rip in
  let rip := <["crawler_family_vendor" := get_or_empty r "vendor"]> rip in
  let rip := <["crawler_family_vendor_code" := get_or_empty r "vendor_code"]> rip in
  let rip := <["crawler_family_vendor_homepage" :=
                get_or_empty r "vendor_homepage"]> rip in
  let rip := <["crawler_family_icon" := get_or_empty r "family_icon"]> rip in
  let is_crawler :=
    Js.strict_eq (get r "ip_classification_code") (JStr "crawler") in
  let rip :=
    if is_crawler then
      <["crawler_family_info_url" :=
         JStr ("https://udger.com/resources/ua-list/bot-detail?bot="
               +:+ Js.to_str (get_or_empty r "family")
               +:+ "#id" +:+ Js.to_str (get_or_empty r "botid"))]> rip
    else rip in
  let rip := <["crawler_last_seen" := get_or_empty r "last_seen"]> rip in
  let rip := <["crawler_category" := get_or_empty r "crawler_classification"]> rip in
  let rip := <["crawler_category_code" :=
                get_or_empty r "crawler_classification_code"]> rip in
  let rip := <["crawler_respect_robotstxt" :=
                get_or_empty r "respect_robotstxt"]> rip in
  let j :=
    if full opts then
      let j := set_field rip "ip_classification" "classification.name" j in
      set_field rip "ip_classification_code" "classification.code" j
    else
      set_field rip "ip_classification_code" "classification" j in
  let j := set_field rip "ip_last_seen" "lastSeen" j in
  let j := set_field rip "ip_hostname" "hostname" j in
  let j := set_field rip "ip_country" "geo.country.name" j in
  let j := set_field rip "ip_country_code" "geo.country.code" j in
  let j := set_field rip "ip_city" "geo.city" j in
  let j := set_field rip "crawler_name" "crawler.name" j in
  let j :=
    if full opts then
      let j := set_field rip "crawler_ver" "crawler.version.current" j in
      let j := set_field rip "crawler_ver_major" "crawler.version.major" j in
      let j := set_field rip "crawler_family" "crawler.family.name" j in
      let j := set_field rip "crawler_family_code" "crawler.family.code" j in
      let j := set_field rip "crawler_family_homepage" "crawler.family.homepage" j in
      let j := set_field rip "crawler_family_vendor" "crawler.family.vendor.name" j in
      let j := set_field rip "crawler_family_vendor_code"
                 "crawler.family.vendor.code" j in
      let j := set_field rip "crawler_family_vendor_homepage"
                 "crawler.family.vendor.homepage" j in
      let j := set_field rip "crawler_family_icon" "crawler.family.icon" j in
      let j :=
        if is_crawler
        then set_field rip "crawler_family_info_url" "crawler.family.infoUrl" j
        else j in
      let j := set_field rip "crawler_last_seen" "crawler.lastSeen" j in
      let j := set_field rip "crawler_category" "crawler.category.name" j in
      let j := set_field rip "crawler_category_code" "crawler.category.code" j in
      set_when (Js.truthy (get rip "crawler_respect_robotstxt"))
        "crawler.respectRobotsTxt" (get rip "crawler_category_code") j
    else
      let j := set_field rip "crawler_family_code" "crawler.family" j in
      let j := set_field rip "crawler_category_code" "crawler.category" j in
      set_field rip "crawler_last_seen" "crawler.lastSeen" j in
  (rip, j).

(** The body of [if (q)] after the lookup in [udger_ip_list]. *)
Definition ip_found (opts : Opts) (q : list jsval)
    (rip : gmap string jsval) (j : gmap string jvalue)
    : gmap string jsval * gmap string jvalue :=
  ip_fields opts (ip_join q) rip j.

(** The [else] branch: no row of [udger_ip_list] has this address. *)
Definition ip_not_found (opts : Opts)
    (rip : gmap string jsval) (j : gmap string jvalue)
    : gmap string jsval * gmap string jvalue :=
  let rip := <["ip_classification" := JStr "Unrecognized"]> rip in
  let rip := <["ip_classification_code" := JStr "unrecognized"]> rip in
  let j :=
    if full opts then
      let j := dotProp.set j "classification.name" (get rip "ip_classification") in
      dotProp.set j "classification.code" (get rip "ip_classification_code")
    else
      dotProp.set j "classification" (get rip "ip_classification_code") in
  (rip, j).

(** The lookup [findBy('udger_ip_list', ...)] and its two branches. *)
Definition ip_lookup_stage (opts : Opts) (ip : string)
    (rip : gmap string jsval) (j : gmap string jvalue)
    : gmap string jsval * gmap string jvalue :=
  let q := findBy (udger_ip_list (data this))
             (λ row cols, Js.strict_eq (cell (RRow row) (cols !! "ip")) (JStr ip)) in
  match q with
  | Some q => ip_found opts q rip j
  | None => ip_not_found opts rip j
  end.

(** The body of [if (q)] after a datacenter range was found, the same for
    both versions but for the table of the range. *)
Definition datacenter_join (range : Table) (q : list jsval) : gmap string jsval :=
  let d := data this in
  let r := map range (RRow q) ["datacenter_id"] [] in
  let r := spread r
             (map (udger_datacenter_list d)
                (row_at (udger_datacenter_list d) (get r "datacenter_id"))
                ["name"; "name_code"; "homepage"] []) in
  let r := delete "datacenter_id" r in
  r.

Definition datacenter_fields (opts : Opts) (r : gmap string jsval)
    (rip : gmap string jsval) (j : gmap string jvalue)
    : gmap string jsval * gmap string jvalue :=
  let rip := <["datacenter_name" := get_or_empty r "name"]> rip in
  let rip := <["datacenter_name_code" := get_or_empty r "name_code"]> rip in
  let rip := <["datacenter_homepage" := get_or_empty r "homepage"]> rip in
  let j :=
    if full opts then
      let j := set_field rip "datacenter_name" "datacenter.name" j in
      let j := set_field rip "datacenter_name_code" "datacenter.code" j in
      set_field rip "datacenter_homepage" "datacenter.homepage" j
    else
      set_field rip "datacenter_name_code" "datacenter" j in
  (rip, j).

Definition datacenter_found (opts : Opts) (range : Table) (q : list jsval)
    (rip : gmap string jsval) (j : gmap string jvalue)
    : gmap string jsval * gmap string jvalue :=
  datacenter_fields opts (datacenter_join range q) rip j.

(** One of the eight conjuncts of the IPv6 range test:
    [row[columns.iplong_from<i>] <= ipInts.ipInt<i> &&
     row[columns.iplong_to<i>] >= ipInts.ipInt<i>]. *)
Definition in_range6 (row : list jsval) (cols : gmap string nat)
    (ipInts : list Z) (i : nat) : bool :=
  Js.le_num (cell (RRow row) (cols !! ("iplong_from" +:+ pretty i))) (ipInts !! i)
  && Js.ge_num (cell (RRow row) (cols !! ("iplong_to" +:+ pretty i))) (ipInts !! i).

Definition datacenter_stage (opts : Opts) (ipver : jsval) (ip : string)
    (rip : gmap string jsval) (j : gmap string jvalue)
    : gmap string jsval * gmap string jvalue :=
  let d := data this in
  if Js.strict_eq ipver (JNum 4) then
    let ipInt := ip2long H ip in
    let q := findBy (udger_datacenter_range d)
               (λ row cols,
                  Js.le_num (cell (RRow row) (cols !! "iplong_from")) (Some ipInt)
                  && Js.ge_num (cell (RRow row) (cols !! "iplong_to")) (Some ipInt)) in
    match q with
    | Some q => datacenter_found opts (udger_datacenter_range d) q rip j
    | None => (rip, j)
    end
  else if Js.strict_eq ipver (JNum 6) then
    let ipInts := address6_groups H ip in
    let q := findBy (udger_datacenter_range6 d)
               (λ row cols, forallb (in_range6 row cols ipInts) (seq 0 8)) in
    match q with
    | Some q => datacenter_found opts (udger_datacenter_range6 d) q rip j
    | None => (rip, j)
    end
  else (rip, j).

(** The lookup and the datacenter stage, in the order of the source. *)
Definition ip_stages (opts : Opts) (ipver : jsval) (ip : string)
    (rip : gmap string jsval) (j : gmap string jvalue)
    : gmap string jsval * gmap string jvalue :=
  let '(rip, j) := ip_lookup_stage opts ip rip j in
  datacenter_stage opts ipver ip rip j.

(** [parseIp(ip, opts)]; [ip] is [None] for [null] or [undefined]. *)
Definition parseIp (ip : option string) (opts : Opts) : Parsed :=
  match ip with
  | None | Some "" => {| udger := json_clone (retIp this); json_ := ∅ |}
  | Some ip0 =>
      let rip := json_clone (retIp this) in
      let rip := <["ip" := JStr ip0]> rip in
      let j := dotProp.set ∅ "ip" (JStr ip0) in
      let ipver := getIpVersion H ip0 in
      let ip :=
        if Js.strict_eq ipver (JNum 6) then inetNtop H (inetPton H ip0) else ip0 in
      let rip := <["ip_ver" := ipver]> rip in
      let j := if full opts then dotProp.set j "version" ipver else j in
      let '(rip, j) := ip_stages opts ipver ip rip j in
      {| udger := rip; json_ := j |}
  end.

End Engine.

(** ** The state of the parser: inputs, cache, results *)

(** How a method call ends.  [Diverges] is the loop of [cacheWrite] that
    never exits. *)
Inductive outcome (A : Type) :=
  | Returns (this : Parser) (a : A)
  | Throws (this : Parser)
  | Diverges.
Arguments Returns {A} this a.
Arguments Throws {A} this.
Arguments Diverges {A}.

(** What [this.cache[key]] reads, and so what [cacheRead] and [parse] may
    return: a result object (by reference), a member inherited from
    [Object.prototype], the value [true] of a property that an earlier
    read added to [Object.prototype], or [undefined]. *)
Inductive ref :=
  | Obj (l : nat)
  | Builtin (key : string)
  | PrimTrue
  | Undef.

Definition with_db (x : bool) (this : Parser) : Parser :=
  {| data := data this; db := x; ip := ip this; ua := ua this;
     cacheEnable := cacheEnable this; cacheMaxRecords := cacheMaxRecords this;
     cache := cache this; keyCache := keyCache this;
     defaultRet_user_agent := defaultRet_user_agent this;
     defaultRet_ip_address := defaultRet_ip_address this;
     retUa := retUa this; retIp := retIp this;
     heap := heap this; proto_extra := proto_extra this |}.

Definition with_inputs (new_ip new_ua : option string) (this : Parser) : Parser :=
  {| data := data this; db := db this; ip := new_ip; ua := new_ua;
     cacheEnable := cacheEnable this; cacheMaxRecords := cacheMaxRecords this;
     cache := cache this; keyCache := keyCache this;
     defaultRet_user_agent := defaultRet_user_agent this;
     defaultRet_ip_address := defaultRet_ip_address this;
     retUa := retUa this; retIp := retIp this;
     heap := heap this; proto_extra := proto_extra this |}.

Definition with_templates (key : string) (ret_ua ret_ip : gmap string jsval)
    (this : Parser) : Parser :=
  {| data := data this; db := db this; ip := ip this; ua := ua this;
     cacheEnable := cacheEnable this; cacheMaxRecords := cacheMaxRecords this;
     cache := cache this; keyCache := key;
     defaultRet_user_agent := defaultRet_user_agent this;
     defaultRet_ip_address := defaultRet_ip_address this;
     retUa := ret_ua; retIp := ret_ip;
     heap := heap this; proto_extra := proto_extra this |}.

Definition with_cacheEnable (x : bool) (this : Parser) : Parser :=
  {| data := data this; db := db this; ip := ip this; ua := ua this;
     cacheEnable := x; cacheMaxRecords := cacheMaxRecords this;
     cache := cache this; keyCache := keyCache this;
     defaultRet_user_agent := defaultRet_user_agent this;
     defaultRet_ip_address := defaultRet_ip_address this;
     retUa := retUa this; retIp := retIp this;
     heap := heap this; proto_extra := proto_extra this |}.

Definition with_cacheMaxRecords (x : Z) (this : Parser) : Parser :=
  {| data := data this; db := db this; ip := ip this; ua := ua this;
     cacheEnable := cacheEnable this; cacheMaxRecords := x;
     cache := cache this; keyCache := keyCache this;
     defaultRet_user_agent := defaultRet_user_agent this;
     defaultRet_ip_address := defaultRet_ip_address this;
     retUa := retUa this; retIp := retIp this;
     heap := heap this; proto_extra := proto_extra this |}.

Definition with_cache (x : list (string * nat)) (this : Parser) : Parser :=
  {| data := data this; db := db this; ip := ip this; ua := ua this;
     cacheEnable := cacheEnable this; cacheMaxRecords := cacheMaxRecords this;
     cache := x; keyCache := keyCache this;
     defaultRet_user_agent := defaultRet_user_agent this;
     defaultRet_ip_address := defaultRet_ip_address this;
     retUa := retUa this; retIp := retIp this;
     heap := heap this; proto_extra := proto_extra this |}.

Definition with_heap (x : list (gmap string jvalue)) (this : Parser) : Parser :=
  {| data := data this; db := db this; ip := ip this; ua := ua this;
     cacheEnable := cacheEnable this; cacheMaxRecords := cacheMaxRecords this;
     cache := cache this; keyCache := keyCache this;
     defaultRet_user_agent := defaultRet_user_agent this;
     defaultRet_ip_address := defaultRet_ip_address this;
     retUa := retUa this; retIp := retIp this;
     heap := x; proto_extra := proto_extra this |}.

Definition with_proto_extra (x : list string) (this : Parser) : Parser :=
  {| data := data this; db := db this; ip := ip this; ua := ua this;
     cacheEnable := cacheEnable this; cacheMaxRecords := cacheMaxRecords this;
     cache := cache this; keyCache := keyCache this;
     defaultRet_user_agent := defaultRet_user_agent this;
     defaultRet_ip_address := defaultRet_ip_address this;
     retUa := retUa this; retIp := retIp this;
     heap := heap this; proto_extra := x |}.

(** [connect()]: the returned boolean, in the parser it leaves. *)
Definition connect (this : Parser) : Parser * bool :=
  if negb (db this) then (with_db true this, true) else (this, false).

(** [disconnect()] *)
Definition disconnect (this : Parser) : Parser * bool :=
  if db this then (with_db false this, true) else (this, false).

(** A string as a condition: [if (s)]. *)
Definition given (s : option string) : bool :=
  match s with Some s => negb (String.eqb s "") | None => false end.

(** The loop [for (const key in data)] of [set]: [None] when it throws.
    A value is a string, or [None] for [undefined]. *)
Fixpoint set_keys (H : Helpers) (props : list (string * option string))
    (this : Parser) : Parser * bool :=
  match props with
  | [] => (this, true)
  | (key, value) :: rest =>
      if String.eqb key "ua" then set_keys H rest (with_inputs (ip this) value this)
      else if String.eqb key "ip" then
        match value with
        | Some s =>
            set_keys H rest (with_inputs (Some (toLowerCase H s)) (ua this) this)
        | None => (this, false)
        end
      else (this, false)
  end.

(** [set(data)].  [data] is [None] for a value that is false as a
    condition or a string; else it is the object, given by its properties
    in creation order.  The loop [for ... in] visits the properties of the
    object itself, then those it inherits that can be enumerated, which
    are the ones a cache read has added to [Object.prototype]. *)
Definition set (H : Helpers) (data : option (list (string * option string)))
    (this : Parser) : outcome unit :=
  match data with
  | None => Throws this
  | Some props =>
      let inherited := (λ k, (k, None)) <$> proto_extra this in
      match set_keys H (Js.own_entries props ++ inherited) this with
      | (this, false) => Throws this
      | (this, true) =>
          let key := "" in
          let key :=
            if cacheEnable this then
              let key := if given (ip this) then default "" (ip this) else key in
              if given (ua this) then key +:+ default "" (ua this) else key
            else key in
          Returns (with_templates key
                     (json_clone (defaultRet_user_agent this))
                     (json_clone (defaultRet_ip_address this)) this) ()
      end
  end.

(** [setCacheEnable(cache)] *)
Definition setCacheEnable (x : bool) (this : Parser) : Parser :=
  with_cacheEnable x this.

(** [isCacheEnable()] *)
Definition isCacheEnable (this : Parser) : bool := cacheEnable this.

(** [setCacheSize(records)] *)
Definition setCacheSize (records : Z) (this : Parser) : Parser :=
  with_cacheMaxRecords records this.

(** The expression [this.cache[key]]. *)
Definition cache_get (this : Parser) (key : string) : ref :=
  match Js.own_property (cache this) key with
  | Some l => Obj l
  | None =>
      if bool_decide (key ∈ proto_extra this) then PrimTrue
      else if bool_decide (key ∈ Js.object_prototype_keys) then Builtin key
      else Undef
  end.

(** [cacheKeyExist(key)] *)
Definition cacheKeyExist (this : Parser) (key : string) : bool :=
  match cache_get this key with
  | Undef => false
  | _ => true
  end.

(** The property that [cacheRead] sets to [true], if any. *)
Definition cache_flag (opts : option Opts) : option string :=
  match opts with
  | Some o =>
      if json o then (if full o then Some "fromCache" else None)
      else Some "from_cache"
  | None => Some "from_cache"
  end.

(** [cacheRead(key, opts)].  The assignment [ret[flag] = true] writes into
    the object that the cache holds; on the object [Object.prototype] (the
    key ["__proto__"]) it creates a property that every object inherits;
    on another inherited member it changes nothing the parser reads; on
    [true] or [undefined] it throws, the code of a class being strict. *)
Definition cacheRead (this : Parser) (key : string) (opts : option Opts)
    : outcome ref :=
  let ret := cache_get this key in
  match cache_flag opts with
  | None => Returns this ret
  | Some flag =>
      match ret with
      | Obj l =>
          Returns (with_heap (alter (insert flag (JV (JBool true))) l (heap this)) this)
            ret
      | Builtin k =>
          if String.eqb k "__proto__"
          then Returns (with_proto_extra (flag :: proto_extra this) this) ret
          else Returns this ret
      | PrimTrue | Undef => Throws this
      end
  end.

(** The loop [while (Object.keys(this.cache).length > this.cacheMaxRecords)]
    run for at most [fuel] iterations; [None] when they do not suffice. *)
Fixpoint evict (fuel : nat) (max : Z) (c : list (string * nat))
    : option (list (string * nat)) :=
  if (max <? Z.of_nat (length (Js.Object_keys c)))%Z then
    match fuel with
    | O => None
    | S fuel =>
        evict fuel max
          (Js.delete_property c (Js.to_str (default JUndef (JStr <$> head (Js.Object_keys c)))))
    end
  else Some c.

(** [cacheWrite(key, data)], [data] being a result object.  One iteration
    of the loop removes a property unless the cache is empty, so as many
    iterations as there are properties, and one more, decide whether the
    loop exits. *)
Definition cacheWrite (this : Parser) (key : string) (data : nat) : outcome unit :=
  if cacheKeyExist this key then Returns this ()
  else
    let c := (cache this ++ [(key, data)])%list in
    match evict (S (length c)) (cacheMaxRecords this) c with
    | Some c => Returns (with_cache c this) ()
    | None => Diverges
    end.

(** [cacheClean()] *)
Definition cacheClean (this : Parser) : Parser := with_cache [] this.

Section Parse.

Variable H : Helpers.

(** The object [ret] that [parse] builds when the cache does not answer. *)
Definition parse_result (this : Parser) (opts : Opts) : gmap string jvalue :=
  if json opts then
    let ret := ∅ in
    let ret :=
      if given (ua this)
      then <["userAgent" := JO (json_ (parseUa H this (ua this) opts))]> ret
      else ret in
    let ret :=
      if given (ip this)
      then <["ipAddress" := JO (json_ (parseIp H this (ip this) opts))]> ret
      else ret in
    if full opts then <["fromCache" := JV (JBool false)]> ret else ret
  else
    let ret := ∅ in
    let ret := <["user_agent" := JO (JV <$> udger (parseUa H this (ua this) opts))]> ret in
    let ret := <["ip_address" := JO (JV <$> udger (parseIp H this (ip this) opts))]> ret in
    <["from_cache" := JV (JBool false)]> ret.

(** [parse(opts)]; [opts] is [None] when the argument is left out.  The
    result is a reference: a new object is put at the end of the heap. *)
Definition parse (this : Parser) (opts : option Opts) : outcome ref :=
  if negb (db this) then
    Returns (with_heap (heap this ++ [∅])%list this) (Obj (length (heap this)))
  else if isCacheEnable this && cacheKeyExist this (keyCache this) then
    cacheRead this (keyCache this) opts
  else
    let ret := parse_result this (default {| json := false; full := false |} opts) in
    let l := length (heap this) in
    let this := with_heap (heap this ++ [ret])%list this in
    if isCacheEnable this then
      match cacheWrite this (keyCache this) l with
      | Returns this _ => Returns this (Obj l)
      | Throws this => Throws this
      | Diverges => Diverges
      end
    else Returns this (Obj l).

End Parse.

End UdgerParser.

(** ** An implementation of the collaborators

    The module [./utils] is not part of [src/]; the definitions below give
    the helpers the behaviour the specification describes, on the inputs
    the examples of this development use.  The two string methods are
    given on ASCII text, the only text the examples hold: there they agree
    with [String.prototype.toLowerCase] and [String.prototype.trim]. *)

Module Sample.

(** The lower-case form of an ASCII letter; any other byte is kept. *)
Definition lower_char (c : ascii) : ascii :=
  let n := Ascii.N_of_ascii c in
  if ((65 <=? n) && (n <=? 90))%N then Ascii.ascii_of_N (n + 32) else c.

(** [s.toLowerCase()] for an ASCII text [s]. *)
Fixpoint toLowerCase (s : string) : string :=
  match s with
  | EmptyString => ""
  | String c s' => String (lower_char c) (toLowerCase s')
  end.

(** The white space of ASCII: tab, line feed, vertical tab, form feed,
    carriage return and space. *)
Definition is_space (c : ascii) : bool :=
  let n := Ascii.N_of_ascii c in (((9 <=? n) && (n <=? 13)) || (n =? 32))%N.

Fixpoint trim_start (s : string) : string :=
  match s with
  | String c s' => if is_space c then trim_start s' else s
  | EmptyString => ""
  end.

Fixpoint trim_end (s : string) : string :=
  match s with
  | EmptyString => ""
  | String c s' =>
      match trim_end s' with
      | EmptyString => if is_space c then "" else String c ""
      | t => String c t
      end
  end.

(** [s.trim()] for an ASCII text [s]. *)
Definition trim (s : string) : string := trim_end (trim_start s).

Definition is_alnum (c : ascii) : bool :=
  let n := Ascii.N_of_ascii c in
  (((48 <=? n) && (n <=? 57)) || ((65 <=? n) && (n <=? 90))
   || ((97 <=? n) && (n <=? 122)))%N.

(** The characters with a meaning of their own in a pattern. *)
Definition is_meta (c : ascii) : bool :=
  bool_decide (c ∈ (list_ascii_of_string "\^$.|?*+()[]{}/")).

(** The text a pattern without operators matches: an escaped sign stands
    for itself; [None] when the pattern has an operator. *)
Fixpoint literal (s : string) : option string :=
  match s with
  | EmptyString => Some ""
  | String "\" (String c s') =>
      if is_alnum c then None else String c <$> literal s'
  | String c s' => if is_meta c then None else String c <$> literal s'
  end.

(** [/body/flags] taken apart at its last slash. *)
Fixpoint body_flags (s : string) : option (string * string) :=
  match s with
  | EmptyString => None
  | String c s' =>
      match body_flags s' with
      | Some (b, f) => Some (String c b, f)
      | None => if Ascii.eqb c "/" then Some ("", s') else None
      end
  end.

Definition char_eq (ci : bool) (a b : ascii) : bool :=
  if ci then Ascii.eqb (lower_char a) (lower_char b) else Ascii.eqb a b.

(** [lit] at the start of [s]: the text it matched and what follows. *)
Fixpoint strip_prefix (ci : bool) (lit s : string) : option (string * string) :=
  match lit, s with
  | EmptyString, _ => Some ("", s)
  | String a lit', String b s' =>
      if char_eq ci a b
      then (λ '(m, rest), (String b m, rest)) <$> strip_prefix ci lit' s'
      else None
  | String _ _, EmptyString => None
  end.

(** The longest run of digits and dots at the start of [s]. *)
Fixpoint version_run (s : string) : string :=
  match s with
  | String c s' =>
      if Js.is_digit c || Ascii.eqb c "." then String c (version_run s') else ""
  | EmptyString => ""
  end.

Definition match_at (ci capture : bool) (lit s : string)
    : option (list (option string)) :=
  match strip_prefix ci lit s with
  | Some (m, rest) =>
      if capture then
        match version_run rest with
        | EmptyString => None
        | g => Some [Some (m +:+ g); Some g]
        end
      else Some [Some m]
  | None => None
  end.

(** The leftmost match. *)
Fixpoint search (ci capture : bool) (lit s : string)
    : option (list (option string)) :=
  match match_at ci capture lit s with
  | Some e => Some e
  | None =>
      match s with
      | EmptyString => None
      | String _ s' => search ci capture lit s'
      end
  end.

Definition capture_suffix : string := "([0-9.]+)".

(** [body] without the suffix [suffix], when it ends with it. *)
Fixpoint strip_suffix (suffix body : string) : option string :=
  if String.eqb body suffix then Some ""
  else match body with
       | EmptyString => None
       | String c b => String c <$> strip_suffix suffix b
       end.

(** Modelled from the spec: [utils.phpRegexpToJs], which is not in [src/],
    followed by [String.prototype.match].  Section 4.1 gives the input as
    a pattern in the delimited form [/pattern/flags] with the flags [i]
    (case-insensitive) and [s], and asks that capture group 1 be kept.
    The patterns understood here are a text without operators, and such a
    text followed by the group [([0-9.]+)]; any other pattern is taken to
    match nothing. *)
Definition ua_match (re : jsval) (ua : string) : option (list (option string)) :=
  match re with
  | JStr (String "/" s) =>
      match body_flags s with
      | Some (body, flags) =>
          let ci := bool_decide ("i"%char ∈ list_ascii_of_string flags) in
          match strip_suffix capture_suffix body with
          | Some b =>
              match literal b with
              | Some lit => search ci true lit ua
              | None => None
              end
          | None =>
              match literal body with
              | Some lit => search ci false lit ua
              | None => None
              end
          end
      | None => None
      end
  | _ => None
  end.

Definition hex_val (c : ascii) : option N :=
  let n := Ascii.N_of_ascii (lower_char c) in
  if ((48 <=? n) && (n <=? 57))%N then Some (n - 48)%N
  else if ((97 <=? n) && (n <=? 102))%N then Some (n - 87)%N
  else None.

Fixpoint hex_digits (acc : N) (s : string) : option N :=
  match s with
  | EmptyString => Some acc
  | String c s' =>
      match hex_val c with
      | Some d => hex_digits (16 * acc + d)%N s'
      | None => None
      end
  end.

(** One group of an IPv6 address: one to four hexadecimal digits. *)
Definition group16 (s : string) : option N :=
  if bool_decide (1 ≤ String.length s ≤ 4)%nat then hex_digits 0%N s else None.

Definition groups_of (s : string) : option (list N) :=
  if String.eqb s "" then Some [] else mapM group16 (Js.split ":" s).

(** The eight groups an IPv6 text denotes, with at most one [::]. *)
Definition parse6 (s : string) : option (list N) :=
  match String.index 0 "::" s with
  | Some i =>
      l ← groups_of (String.substring 0 i s);
      r ← groups_of (String.substring (i + 2) (String.length s - i - 2) s);
      if bool_decide (length l + length r ≤ 7)%nat
      then Some (l ++ replicate (8 - length l - length r) 0%N ++ r)%list
      else None
  | None =>
      l ← groups_of s;
      if bool_decide (length l = 8) then Some l else None
  end.

(** The four bytes a dotted IPv4 text denotes. *)
Definition parse4 (s : string) : option (list N) :=
  l ← mapM Js.canonical_numeric (Js.split "." s);
  if bool_decide (length l = 4) && forallb (λ n, n <=? 255)%N l
  then Some l else None.

(** The value [ip_ver] takes for a string that is no address. *)
Definition unknown : jsval := JStr "unknown".

(** Modelled from the spec: [utils.getIpVersion], which is not in [src/]:
    "detect version (4 or 6) from syntax; invalid strings yield version =
    unknown". *)
Definition getIpVersion (ip : string) : jsval :=
  if bool_decide (is_Some (parse4 ip)) then JNum 4
  else if bool_decide (is_Some (parse6 ip)) then JNum 6
  else unknown.

(** Modelled from the spec: [utils.inetPton], which is not in [src/]: the
    packed form of an address, 4 or 16 bytes. *)
Definition inetPton (ip : string) : list N :=
  match parse4 ip with
  | Some l => l
  | None =>
      match parse6 ip with
      | Some l => l ≫= (λ g, [g `div` 256; g `mod` 256])%N
      | None => []
      end
  end.

Definition hex_char (d : N) : ascii :=
  Ascii.ascii_of_N (if (d <? 10)%N then d + 48 else d + 87)%N.

Fixpoint drop_zeros (ds : list N) : list N :=
  match ds with
  | 0%N :: ds' => drop_zeros ds'
  | _ => ds
  end.

(** A group in hexadecimal without leading zeros. *)
Definition hex16 (g : N) : string :=
  let digits := [g `div` 4096; (g `div` 256) `mod` 16; (g `div` 16) `mod` 16; g `mod` 16]%N in
  match drop_zeros digits with
  | [] => "0"
  | ds => string_of_list_ascii (hex_char <$> ds)
  end.

Fixpoint pair_up (bytes : list N) : list N :=
  match bytes with
  | hi :: lo :: rest => (256 * hi + lo)%N :: pair_up rest
  | _ => []
  end.

(** The length of the run of zero groups at the start of [l]. *)
Fixpoint zero_run (l : list N) : nat :=
  match l with
  | 0%N :: l' => S (zero_run l')
  | _ => 0
  end.

(** Start and length of the leftmost longest run of zero groups. *)
Fixpoint longest_zero_run (i : nat) (l : list N) : nat * nat :=
  match l with
  | [] => (0, 0)
  | _ :: l' =>
      let '(j, n) := longest_zero_run (S i) l' in
      if decide (n ≤ zero_run l ∧ 0 < zero_run l)%nat then (i, zero_run l) else (j, n)
  end.

Definition join_groups (l : list N) : string :=
  String.concat ":" (hex16 <$> l).

(** Modelled from the spec: [utils.inetNtop], which is not in [src/]: the
    text of a packed address, an IPv6 address in "the compressed textual
    form" (the longest run of two or more zero groups written [::]). *)
Definition inetNtop (bytes : list N) : string :=
  if bool_decide (length bytes = 4) then String.concat "." (pretty <$> bytes)
  else if bool_decide (length bytes = 16) then
    let groups := pair_up bytes in
    let '(i, n) := longest_zero_run 0 groups in
    if decide (2 ≤ n)%nat
    then join_groups (take i groups) +:+ "::" +:+ join_groups (drop (i + n) groups)
    else join_groups groups
  else "".

(** Modelled from the spec: [utils.ip2long], which is not in [src/]: "for
    version 4, compute the 32-bit integer value". *)
Definition ip2long (ip : string) : Z :=
  match parse4 ip with
  | Some l => foldl (λ acc b, 256 * acc + Z.of_N b)%Z 0%Z l
  | None => 0
  end.

(** The eight groups of the canonical form of an IPv6 text, as
    [new Address6(ip).canonicalForm()] lists them. *)
Definition address6_groups (ip : string) : list Z :=
  match parse6 ip with
  | Some l => Z.of_N <$> l
  | None => []
  end.

Definition helpers : Helpers :=
  Build_Helpers ua_match getIpVersion inetPton inetNtop ip2long address6_groups
    toLowerCase trim.

End Sample.

(** ** A small dataset *)

Module Demo.

Import UdgerParser.

(** A table from the names of its columns and its rows. *)
Definition table (cols : list string) (rows : list (list jsval)) : Table :=
  {| Table.columns := list_to_map (zip cols (seq 0 (length cols)));
     Table.data := rows |}.

Definition googlebot_mobile : string :=
  "Mozilla/5.0 (Linux; Android 6.0.1; Nexus 5X) (compatible; Googlebot/2.1; +http://www.google.com/bot.html)".

Definition iemobile_ua : string :=
  "Mozilla/5.0 (Windows Phone 8.1) IEMobile/11.0".

Definition haiku_ua : string := "Mozilla/5.0 (Haiku)".

(** Rows of [udger_crawler_list]. *)
Definition googlebot_row : list jsval :=
  [JNum 4; JStr "Googlebot/2.1 (+http://www.google.com/bot.html)";
   JStr "Googlebot/2.1"; JStr "2.1"; JStr "2"; JStr "2017-01-06";
   JStr "yes"; JStr "Googlebot"; JStr "googlebot";
   JStr "http://www.google.com/bot.html"; JStr "bot_googlebot.png";
   JStr "Google Inc."; JStr "google_inc"; JStr "https://www.google.com/";
   JNum 0].

Definition googlebot_mobile_row : list jsval :=
  [JNum 9; JStr googlebot_mobile;
   JStr "Googlebot/2.1"; JStr "2.1"; JStr "2"; JStr "2017-01-06";
   JStr "yes"; JStr "Googlebot"; JStr "googlebot";
   JStr "http://www.google.com/bot.html"; JStr "bot_googlebot.png";
   JStr "Google Inc."; JStr "google_inc"; JStr "https://www.google.com/";
   JNum 0].

(** Rows of [udger_client_regex]: the position of the client and the
    pattern. *)
Definition firefox_pattern : list jsval := [JNum 0; JStr "/Firefox\/([0-9.]+)/si"].
Definition iemobile_pattern : list jsval := [JNum 1; JStr "/IEMobile\/([0-9.]+)/si"].
Definition curl_pattern : list jsval := [JNum 2; JStr "/curl/si"].

(** Rows of [udger_os_regex]: the position of the OS and the pattern.  The
    last one refers to a row that [udger_os_list] does not have. *)
Definition android_pattern : list jsval := [JNum 0; JStr "/Android/si"].
Definition windows10_pattern : list jsval := [JNum 1; JStr "/Windows NT 10\.0/si"].
Definition haiku_pattern : list jsval := [JNum 5; JStr "/Haiku/si"].

(** The row of [udger_client_os_relation]: the client with the id 7 (IE
    Mobile) runs on the OS at position 2 (Windows Phone). *)
Definition iemobile_relation : list jsval := [JNum 7; JNum 2].

Definition dataset : Dataset :=
  {| udger_crawler_list :=
       table ["id"; "ua_string"; "name"; "ver"; "ver_major"; "last_seen";
              "respect_robotstxt"; "family"; "family_code"; "family_homepage";
              "family_icon"; "vendor"; "vendor_code"; "vendor_homepage"; "class_id"]
         [googlebot_row; googlebot_mobile_row];
     udger_crawler_class :=
       table ["id"; "crawler_classification"; "crawler_classification_code"]
         [[JNum 1; JStr "Search engine bot"; JStr "search_engine_bot"]];
     udger_client_regex :=
       table ["client_id"; "regstring"]
         [firefox_pattern; iemobile_pattern; curl_pattern];
     udger_client_list :=
       table ["id"; "class_id"; "name"; "name_code"; "homepage"; "icon"; "icon_big";
              "engine"; "vendor"; "vendor_code"; "vendor_homepage";
              "uptodate_current_version"]
         [[JNum 3; JNum 0; JStr "Firefox"; JStr "firefox";
           JStr "http://www.firefox.com/"; JStr "firefox.png"; JStr "firefox_big.png";
           JStr "Gecko"; JStr "Mozilla Foundation"; JStr "mozilla_foundation";
           JStr "http://www.mozilla.org/"; JStr "50"];
          [JNum 7; JNum 1; JStr "IE Mobile"; JStr "ie_mobile";
           JStr "https://www.microsoft.com/"; JStr "iemobile.png";
           JStr "iemobile_big.png"; JStr "Trident"; JStr "Microsoft Corporation.";
           JStr "microsoft_corporation"; JStr "https://www.microsoft.com/"; JStr ""];
          [JNum 8; JNum 2; JStr "cURL"; JStr "curl";
           JStr "https://curl.se/"; JStr "curl.png"; JStr "curl_big.png";
           JStr ""; JStr ""; JStr ""; JStr ""; JStr ""]];
     udger_client_class :=
       table ["id"; "client_classification"; "client_classification_code";
              "deviceclass_id"]
         [[JNum 0; JStr "Browser"; JStr "browser"; JNum 0];
          [JNum 3; JStr "Mobile browser"; JStr "mobile_browser"; JNum 1];
          [JNum 5; JStr "Library"; JStr "library"; JNum 2];
          [JNum 99; JStr "Crawler"; JStr "crawler"; JNum 2]];
     udger_os_regex :=
       table ["os_id"; "regstring"]
         [android_pattern; windows10_pattern; haiku_pattern];
     udger_os_list :=
       table ["id"; "family"; "family_code"; "name"; "name_code"; "homepage"; "icon";
              "icon_big"; "vendor"; "vendor_code"; "vendor_homepage"]
         [[JNum 17; JStr "Android"; JStr "android"; JStr "Android"; JStr "android";
           JStr "https://www.android.com/"; JStr "android.png"; JStr "android_big.png";
           JStr "Google, Inc."; JStr "google_inc"; JStr "https://www.google.com/"];
          [JNum 2; JStr "Windows"; JStr "windows"; JStr "Windows 10";
           JStr "windows_10"; JStr "https://www.microsoft.com/"; JStr "windows10.png";
           JStr "windows10_big.png"; JStr "Microsoft Corporation.";
           JStr "microsoft_corporation"; JStr "https://www.microsoft.com/"];
          [JNum 23; JStr "Windows"; JStr "windows"; JStr "Windows Phone";
           JStr "windows_phone"; JStr "https://www.microsoft.com/";
           JStr "windowsphone.png"; JStr "windowsphone_big.png";
           JStr "Microsoft Corporation."; JStr "microsoft_corporation";
           JStr "https://www.microsoft.com/"]];
     udger_client_os_relation :=
       table ["client_id"; "os_id"] [iemobile_relation];
     udger_deviceclass_regex :=
       table ["deviceclass_id"; "regstring"] [[JNum 1; JStr "/Mobile/si"]];
     udger_deviceclass_list :=
       table ["id"; "name"; "name_code"; "icon"; "icon_big"]
         [[JNum 2; JStr "Desktop"; JStr "desktop"; JStr "desktop.png";
           JStr "desktop_big.png"];
          [JNum 1; JStr "Smartphone"; JStr "smartphone"; JStr "phone.png";
           JStr "phone_big.png"];
          [JNum 3; JStr "Unrecognized"; JStr "unrecognized"; JStr "other.png";
           JStr "other_big.png"]];
     udger_devicename_regex :=
       table ["id"; "os_family_code"; "os_code"; "regstring"] [];
     udger_devicename_list :=
       table ["regex_id"; "code"; "marketname"; "brand_id"] [];
     udger_devicename_brand :=
       table ["id"; "brand_code"; "brand"; "brand_url"; "icon"; "icon_big"] [];
     udger_ip_list :=
       table ["ip"; "class_id"; "crawler_id"; "ip_last_seen"; "ip_hostname";
              "ip_country"; "ip_city"; "ip_country_code"]
         [[JStr "2001:db8::1"; JNum 0; JNull; JStr "2017-01-05";
           JStr "host.example.org"; JStr "France"; JStr "Paris"; JStr "FR"];
          [JStr "66.249.64.73"; JNum 1; JNum 0; JStr "2017-01-06";
           JStr "crawl-66-249-64-73.googlebot.com"; JStr "United States";
           JStr "Mountain View"; JStr "US"]];
     udger_ip_class :=
       table ["id"; "ip_classification"; "ip_classification_code"]
         [[JNum 6; JStr "Known attack source - HTTP"; JStr "attack_http"];
          [JNum 1; JStr "Crawler"; JStr "crawler"]];
     udger_datacenter_range :=
       table ["datacenter_id"; "iplong_from"; "iplong_to"]
         [[JNum 0; JNum 1123631104; JNum 1123639295]];
     udger_datacenter_range6 :=
       table ["datacenter_id";
              "iplong_from0"; "iplong_from1"; "iplong_from2"; "iplong_from3";
              "iplong_from4"; "iplong_from5"; "iplong_from6"; "iplong_from7";
              "iplong_to0"; "iplong_to1"; "iplong_to2"; "iplong_to3";
              "iplong_to4"; "iplong_to5"; "iplong_to6"; "iplong_to7"]
         [[JNum 0; JNum 8193; JNum 3512; JNum 0; JNum 0; JNum 0; JNum 0; JNum 0;
           JNum 0; JNum 8193; JNum 3512; JNum 65535; JNum 65535; JNum 65535;
           JNum 65535; JNum 65535; JNum 65535]];
     udger_datacenter_list :=
       table ["id"; "name"; "name_code"; "homepage"]
         [[JNum 11; JStr "Example Hosting"; JStr "example_hosting";
           JStr "https://hosting.example.org/"]] |}.

(** Modelled from the spec: the file [defaultResult.json], which is not in
    [src/]: "a flat record with fixed fields [...], all defaulting to
    empty string when unset", with the fields [parseUa] and [parseIp]
    assign. *)
Definition default_user_agent : gmap string jsval :=
  list_to_map ((λ k, (k, JStr "")) <$>
    ["ua_string"; "ua_class"; "ua_class_code"; "ua"; "ua_version";
     "ua_version_major"; "ua_uptodate_current_version"; "ua_family";
     "ua_family_code"; "ua_family_homepage"; "ua_family_vendor";
     "ua_family_vendor_code"; "ua_family_vendor_homepage"; "ua_family_icon";
     "ua_family_icon_big"; "ua_family_info_url"; "ua_engine";
     "os"; "os_code"; "os_homepage"; "os_icon"; "os_icon_big"; "os_info_url";
     "os_family"; "os_family_code"; "os_family_vendor"; "os_family_vendor_code";
     "os_family_vendor_homepage";
     "device_class"; "device_class_code"; "device_class_icon";
     "device_class_icon_big"; "device_class_info_url"; "device_marketname";
     "device_brand"; "device_brand_code"; "device_brand_homepage";
     "device_brand_icon"; "device_brand_icon_big"; "device_brand_info_url";
     "crawler_last_seen"; "crawler_category"; "crawler_category_code";
     "crawler_respect_robotstxt"]).

Definition default_ip_address : gmap string jsval :=
  list_to_map ((λ k, (k, JStr "")) <$>
    ["ip"; "ip_ver"; "ip_classification"; "ip_classification_code";
     "ip_hostname"; "ip_last_seen"; "ip_country"; "ip_country_code"; "ip_city";
     "crawler_name"; "crawler_ver"; "crawler_ver_major"; "crawler_family";
     "crawler_family_code"; "crawler_family_homepage"; "crawler_family_vendor";
     "crawler_family_vendor_code"; "crawler_family_vendor_homepage";
     "crawler_family_icon"; "crawler_family_info_url"; "crawler_last_seen";
     "crawler_category"; "crawler_category_code"; "crawler_respect_robotstxt";
     "datacenter_name"; "datacenter_name_code"; "datacenter_homepage"]).

(** The parser as its constructor leaves it. *)
Definition fresh : Parser :=
  {| data := dataset; db := true; ip := None; ua := None;
     cacheEnable := false; cacheMaxRecords := 4000; cache := []; keyCache := "";
     defaultRet_user_agent := default_user_agent;
     defaultRet_ip_address := default_ip_address;
     retUa := ∅; retIp := ∅; heap := []; proto_extra := [] |}.

(** The parser after [set(data)]; the data of the examples never make
    [set] throw. *)
Definition after_set (data : list (string * option string)) (this : Parser) : Parser :=
  match set Sample.helpers (Some data) this with
  | Returns this _ => this
  | _ => this
  end.

(** The parser after [set({})]: the templates are in place. *)
Definition ready : Parser := after_set [] fresh.

(** The parser with the cache enabled. *)
Definition caching : Parser := setCacheEnable true fresh.

(** The cache after [cacheWrite('a', ...)], with room for one entry. *)
Definition one_entry : Parser :=
  match cacheWrite (setCacheSize 1 caching) "a" 0 with
  | Returns this _ => this
  | _ => fresh
  end.

(** The cache after [cacheWrite('a', ...)] and [cacheWrite('b', ...)]. *)
Definition two_entries : Parser :=
  match cacheWrite caching "a" 0 with
  | Returns this _ =>
      match cacheWrite this "b" 1 with
      | Returns this _ => this
      | _ => fresh
      end
  | _ => fresh
  end.

(** The parser after [set({ ua: 'myUnknowUA' })]. *)
Definition unknown_ua : Parser := after_set [("ua", Some "myUnknowUA")] fresh.

(** What a call returned, and the parser it left. *)
Definition returned {A} (o : outcome A) : option A :=
  match o with Returns _ a => Some a | _ => None end.

Definition after {A} (o : outcome A) (this : Parser) : Parser :=
  match o with Returns this' _ | Throws this' => this' | Diverges => this end.

(** The names of the properties of the object at [l], and one of them. *)
Definition properties_at (this : Parser) (l : nat) : option (list string) :=
  (λ o, (map_to_list o).*1) <$> heap this !! l.

Definition property_at (this : Parser) (l : nat) (k : string) : option jvalue :=
  heap this !! l ≫= (λ o, o !! k).

Definition classic : Opts := {| json := false; full := false |}.
Definition json_full : Opts := {| json := true; full := true |}.
Definition json_compact : Opts := {| json := true; full := false |}.

(** The parser with the cache enabled, after [set({ ua: 'myUnknowUA' })]
    and after a first call of [parse] with the options [opts]. *)
Definition parsed_once (opts : option Opts) : Parser :=
  let this := after_set [("ua", Some "myUnknowUA")] (setCacheEnable true fresh) in
  after (parse Sample.helpers this opts) this.


End Demo.

(** ** Sequences of calls *)

Module Calls.

Import UdgerParser.



(** A call of a method of the parser by its user. *)
Inductive call :=
  | Call_connect
  | Call_disconnect
  | Call_set (data : option (list (string * option string)))
  | Call_setCacheEnable (x : bool)
  | Call_setCacheSize (records : Z)
  | Call_cacheRead (key : string) (opts : option Opts)
  | Call_cacheWrite (key : string) (data : nat)
  | Call_cacheClean
  | Call_parse (opts : option Opts).

(** The parser a call leaves to the next one, also when it throws (the
    caller may catch); there is none when the call does not end. *)
Definition left_by {A} (o : outcome A) : option Parser :=
  match o with
  | Returns this _ | Throws this => Some this
  | Diverges => None
  end.

Definition step (H : Helpers) (c : call) (this : Parser) : option Parser :=
  match c with
  | Call_connect => Some (connect this).1
  | Call_disconnect => Some (disconnect this).1
  | Call_set data => left_by (set H data this)
  | Call_setCacheEnable x => Some (setCacheEnable x this)
  | Call_setCacheSize records => Some (setCacheSize records this)
  | Call_cacheRead key opts => left_by (cacheRead this key opts)
  | Call_cacheWrite key data => left_by (cacheWrite this key data)
  | Call_cacheClean => Some (cacheClean this)
  | Call_parse opts => left_by (parse H this opts)
  end.

Fixpoint run (H : Helpers) (calls : list call) (this : Parser) : option Parser :=
  match calls with
  | [] => Some this
  | c :: rest =>
      match step H c this with
      | Some this => run H rest this
      | None => None
      end
  end.

(** The object at [l] has the property [flag] with the value [true]. *)
Definition flagged (this : Parser) (l : nat) (flag : string) : Prop :=
  ∃ o, heap this !! l = Some o ∧ o !! flag = Some (JV (JBool true)).

End Calls.

(** ** The fields each stage writes, and variants of a parser *)

Module Fields.

Import UdgerParser.

(** The fields of [rua] that the OS stage and the client/OS relation
    stage assign. *)
Definition os_keys : list string :=
  ["os"; "os_code"; "os_homepage"; "os_icon"; "os_icon_big"; "os_info_url";
   "os_family"; "os_family_code"; "os_family_vendor"; "os_family_vendor_code";
   "os_family_vendor_homepage"].

(** The fields that the two device class stages assign. *)
Definition device_class_keys : list string :=
  ["device_class"; "device_class_code"; "device_class_icon";
   "device_class_icon_big"; "device_class_info_url"].

(** The fields that the device marketname stage assigns. *)
Definition device_name_keys : list string :=
  ["device_marketname"; "device_brand"; "device_brand_code";
   "device_brand_homepage"; "device_brand_icon"; "device_brand_icon_big";
   "device_brand_info_url"].

(** The fields of [rip] that the datacenter stage assigns. *)
Definition datacenter_keys : list string :=
  ["datacenter_name"; "datacenter_name_code"; "datacenter_homepage"].

(** The fields of [rip] assigned after a row of [udger_ip_list] is found. *)
Definition ip_found_keys : list string :=
  ["ip_classification"; "ip_classification_code"; "ip_last_seen"; "ip_hostname";
   "ip_country"; "ip_country_code"; "ip_city"; "crawler_name"; "crawler_ver";
   "crawler_ver_major"; "crawler_family"; "crawler_family_code";
   "crawler_family_homepage"; "crawler_family_vendor";
   "crawler_family_vendor_code"; "crawler_family_vendor_homepage";
   "crawler_family_icon"; "crawler_family_info_url"; "crawler_last_seen";
   "crawler_category"; "crawler_category_code"; "crawler_respect_robotstxt"].

(** A run of assignments [m[k] = v], in order. *)
Definition assign (l : list (string * jsval)) (m : gmap string jsval)
    : gmap string jsval :=
  foldl (λ m kv, <[kv.1 := kv.2]> m) m l.

(** A run of statements [c && dotProp.set(j, path, value)], in order. *)
Definition json_sets (l : list (bool * (string * jsval))) (j : gmap string jvalue)
    : gmap string jvalue :=
  foldl (λ j s, set_when s.1 s.2.1 s.2.2 j) j l.

(** The statement [m[k] && dotProp.set(j, path, m[k])]. *)
Definition field (m : gmap string jsval) (k path : string)
    : bool * (string * jsval) :=
  (Js.truthy (get m k), (path, get m k)).

(** The statement [dotProp.set(j, path, value)]. *)
Definition always (path : string) (value : jsval) : bool * (string * jsval) :=
  (true, (path, value)).

(** The first segment of a dotted path. *)
Definition top (path : string) : option string := head (Js.split "." path).

(** The assignments to [rip] after a row of [udger_ip_list] is found and
    the record [r] is built. *)
Definition ip_found_assignments (r : gmap string jsval) : list (string * jsval) :=
  [("ip_classification", get_or_empty r "ip_classification");
   ("ip_classification_code", get_or_empty r "ip_classification_code");
   ("ip_last_seen", get_or_empty r "ip_last_seen");
   ("ip_hostname", get_or_empty r "ip_hostname");
   ("ip_country", get_or_empty r "ip_country");
   ("ip_country_code", get_or_empty r "ip_country_code");
   ("ip_city", get_or_empty r "ip_city");
   ("crawler_name", get_or_empty r "name");
   ("crawler_ver", get_or_empty r "ver");
   ("crawler_ver_major", get_or_empty r "ver_major");
   ("crawler_family", get_or_empty r "family");
   ("crawler_family_code", get_or_empty r "family_code");
   ("crawler_family_homepage", get_or_empty r "family_homepage");
   ("crawler_family_vendor", get_or_empty r "vendor");
   ("crawler_family_vendor_code", get_or_empty r "vendor_code");
   ("crawler_family_vendor_homepage", get_or_empty r "vendor_homepage");
   ("crawler_family_icon", get_or_empty r "family_icon")]
  ++ (if Js.strict_eq (get r "ip_classification_code") (JStr "crawler")
      then [("crawler_family_info_url",
             JStr ("https://udger.com/resources/ua-list/bot-detail?bot="
                   +:+ Js.to_str (get_or_empty r "family")
                   +:+ "#id" +:+ Js.to_str (get_or_empty r "botid")))]
      else [])
  ++ [("crawler_last_seen", get_or_empty r "last_seen");
      ("crawler_category", get_or_empty r "crawler_classification");
      ("crawler_category_code", get_or_empty r "crawler_classification_code");
      ("crawler_respect_robotstxt", get_or_empty r "respect_robotstxt")].

(** The statements on [ripJson] that follow them; [rip] is the record
    after the assignments. *)
Definition ip_found_sets (opts : Opts) (r rip : gmap string jsval)
    : list (bool * (string * jsval)) :=
  (if full opts then
     [field rip "ip_classification" "classification.name";
      field rip "ip_classification_code" "classification.code"]
   else [field rip "ip_classification_code" "classification"])
  ++ [field rip "ip_last_seen" "lastSeen";
      field rip "ip_hostname" "hostname";
      field rip "ip_country" "geo.country.name";
      field rip "ip_country_code" "geo.country.code";
      field rip "ip_city" "geo.city";
      field rip "crawler_name" "crawler.name"]
  ++ (if full opts then
        [field rip "crawler_ver" "crawler.version.current";
         field rip "crawler_ver_major" "crawler.version.major";
         field rip "crawler_family" "crawler.family.name";
         field rip "crawler_family_code" "crawler.family.code";
         field rip "crawler_family_homepage" "crawler.family.homepage";
         field rip "crawler_family_vendor" "crawler.family.vendor.name";
         field rip "crawler_family_vendor_code" "crawler.family.vendor.code";
         field rip "crawler_family_vendor_homepage" "crawler.family.vendor.homepage";
         field rip "crawler_family_icon" "crawler.family.icon"]
        ++ (if Js.strict_eq (get r "ip_classification_code") (JStr "crawler")
            then [field rip "crawler_family_info_url" "crawler.family.infoUrl"]
            else [])
        ++ [field rip "crawler_last_seen" "crawler.lastSeen";
            field rip "crawler_category" "crawler.category.name";
            field rip "crawler_category_code" "crawler.category.code";
            (Js.truthy (get rip "crawler_respect_robotstxt"),
             ("crawler.respectRobotsTxt", get rip "crawler_category_code"))]
      else
        [field rip "crawler_family_code" "crawler.family";
         field rip "crawler_category_code" "crawler.category";
         field rip "crawler_last_seen" "crawler.lastSeen"]).

(** The same for the branch taken when no row is found. *)
Definition ip_not_found_assignments : list (string * jsval) :=
  [("ip_classification", JStr "Unrecognized");
   ("ip_classification_code", JStr "unrecognized")].

Definition ip_not_found_sets (opts : Opts) (rip : gmap string jsval)
    : list (bool * (string * jsval)) :=
  if full opts then
    [always "classification.name" (get rip "ip_classification");
     always "classification.code" (get rip "ip_classification_code")]
  else [always "classification" (get rip "ip_classification_code")].

(** The same after a datacenter range is found. *)
Definition datacenter_assignments (r : gmap string jsval) : list (string * jsval) :=
  [("datacenter_name", get_or_empty r "name");
   ("datacenter_name_code", get_or_empty r "name_code");
   ("datacenter_homepage", get_or_empty r "homepage")].

Definition datacenter_sets (opts : Opts) (rip : gmap string jsval)
    : list (bool * (string * jsval)) :=
  if full opts then
    [field rip "datacenter_name" "datacenter.name";
     field rip "datacenter_name_code" "datacenter.code";
     field rip "datacenter_homepage" "datacenter.homepage"]
  else [field rip "datacenter_name_code" "datacenter"].

(** The test of the lookup stage of [parseIp]: the cell [ip] of the row is
    the string [ip]. *)
Definition is_ip_row (this : Parser) (ip : string) (row : list jsval) : bool :=
  Js.strict_eq
    (cell (RRow row) (Table.columns (udger_ip_list (data this)) !! "ip"))
    (JStr ip).

(** The text that the lookup of [parseIp] uses for the string [ip]: the
    compressed form when the version is 6, the string itself otherwise. *)
Definition canonical (H : Helpers) (ip : string) : string :=
  if Js.strict_eq (getIpVersion H ip) (JNum 6) then inetNtop H (inetPton H ip) else ip.

(** The two records of [parseIp] without the field [ip]: the stages on
    the copy of the template with the version written. *)
Definition ip_core (H : Helpers) (this : Parser) (opts : Opts) (ipver : jsval)
    (ip : string) : gmap string jsval * gmap string jvalue :=
  ip_stages H this opts ipver ip
    (<["ip_ver" := ipver]> (json_clone (retIp this)))
    (if full opts then dotProp.set ∅ "version" ipver else ∅).

(** The dataset with other tables for the client patterns, the clients
    and the client/OS relation. *)
Definition with_client_tables (regex clients relation : Table) (d : Dataset)
    : Dataset :=
  {| udger_crawler_list := udger_crawler_list d;
     udger_crawler_class := udger_crawler_class d;
     udger_client_regex := regex;
     udger_client_list := clients;
     udger_client_class := udger_client_class d;
     udger_os_regex := udger_os_regex d;
     udger_os_list := udger_os_list d;
     udger_client_os_relation := relation;
     udger_deviceclass_regex := udger_deviceclass_regex d;
     udger_deviceclass_list := udger_deviceclass_list d;
     udger_devicename_regex := udger_devicename_regex d;
     udger_devicename_list := udger_devicename_list d;
     udger_devicename_brand := udger_devicename_brand d;
     udger_ip_list := udger_ip_list d;
     udger_ip_class := udger_ip_class d;
     udger_datacenter_range := udger_datacenter_range d;
     udger_datacenter_range6 := udger_datacenter_range6 d;
     udger_datacenter_list := udger_datacenter_list d |}.

(** The parser over another dataset. *)
Definition with_data (d : Dataset) (this : Parser) : Parser :=
  {| data := d; db := db this; ip := ip this; ua := ua this;
     cacheEnable := cacheEnable this; cacheMaxRecords := cacheMaxRecords this;
     cache := cache this; keyCache := keyCache this;
     defaultRet_user_agent := defaultRet_user_agent this;
     defaultRet_ip_address := defaultRet_ip_address this;
     retUa := retUa this; retIp := retIp this;
     heap := heap this; proto_extra := proto_extra this |}.

(** The test of the crawler stage: the cell [ua_string] of the row is the
    string [ua]. *)
Definition is_crawler_row (this : Parser) (ua : string) (row : list jsval) : Prop :=
  cell (RRow row) (Table.columns (udger_crawler_list (data this)) !! "ua_string")
  = JStr ua.

(** The match of a row of [udger_client_regex] against [ua]. *)
Definition client_pattern_match (H : Helpers) (this : Parser) (ua : string)
    (row : list jsval) : option (list (option string)) :=
  ua_match H
    (cell (RRow row) (Table.columns (udger_client_regex (data this)) !! "regstring"))
    ua.

(** The match of a row of [udger_os_regex] against [ua]. *)
Definition os_pattern_match (H : Helpers) (this : Parser) (ua : string)
    (row : list jsval) : option (list (option string)) :=
  ua_match H
    (cell (RRow row) (Table.columns (udger_os_regex (data this)) !! "regstring"))
    ua.

(** [m] is what precedes the first dot of [s], or all of [s] when it has
    no dot. *)
Definition before_first_dot (s m : string) : Prop :=
("."%char ∉ list_ascii_of_string m)
  ∧ (s = m ∨ ∃ t, s = m +:+ "." +:+ t).

End Fields.

(** ** Conditions on the cache and on the tables *)

Module Cases.

Import UdgerParser Calls.

(** The entries of a cache whose keys are not array indices and differ
    from one another: [Object.keys] lists them in the order they were
    written. *)
Definition insertion_ordered (c : list (string * nat)) : Prop :=
  NoDup c.*1 ∧ Forall (λ kv, Js.array_index_key kv.1 = None) c.

#[global] Instance insertion_ordered_dec c : Decision (insertion_ordered c).
Proof. unfold insertion_ordered. apply _. Defined.

(** A call that neither configures the cache nor reads or writes it
    directly. *)
Definition plain_use (c : call) : Prop :=
  match c with
  | Call_connect | Call_disconnect | Call_set _ | Call_parse _ => True
  | _ => False
  end.

#[global] Instance plain_use_dec c : Decision (plain_use c).
Proof. destruct c; apply _. Defined.

(** The match of a row of [udger_deviceclass_regex] against [ua]. *)
Definition deviceclass_pattern_match (H : Helpers) (this : Parser) (ua : string)
    (row : list jsval) : option (list (option string)) :=
  ua_match H
    (cell (RRow row)
       (Table.columns (udger_deviceclass_regex (data this)) !! "regstring"))
    ua.

(** The record [r] of the OS stage for the row [row] of [udger_os_regex]:
    the row with the OS it refers to joined. *)
Definition os_join (this : Parser) (row : list jsval) : gmap string jsval :=
  let d := data this in
  let r := map (udger_os_regex d) (RRow row) ["os_id"; "regstring"] [] in
  spread r
    (map (udger_os_list d) (row_at (udger_os_list d) (get r "os_id"))
       os_list_keys [("id", "os_id")]).

(** The test of the lookup in [udger_client_class]: the cell [id] of the
    row is [id]. *)
Definition is_class_row (this : Parser) (id : jsval) (row : list jsval) : bool :=
  Js.strict_eq
    (cell (RRow row) (Table.columns (udger_client_class (data this)) !! "id")) id.

(** The record [r] of the second device class stage for the row [q] of
    [udger_client_class]: its device class joined. *)
Definition class_device_join (this : Parser) (q : list jsval) : gmap string jsval :=
  let d := data this in
  let r := map (udger_client_class d) (RRow q) ["deviceclass_id"] [] in
  spread r
    (map (udger_deviceclass_list d)
       (row_at (udger_deviceclass_list d) (get r "deviceclass_id"))
       deviceclass_list_keys [("id", "deviceclass_id")]).

(** The test of the lookup in [udger_datacenter_range]: the number [n] is
    between the cells [iplong_from] and [iplong_to] of the row. *)
Definition in_range4 (this : Parser) (n : Z) (row : list jsval) : bool :=
  let cols := Table.columns (udger_datacenter_range (data this)) in
  Js.le_num (cell (RRow row) (cols !! "iplong_from")) (Some n)
  && Js.ge_num (cell (RRow row) (cols !! "iplong_to")) (Some n).

(** The record [r] of the first device class stage for the row [row] of
    [udger_deviceclass_regex]: the row with its device class joined. *)
Definition deviceclass_join (this : Parser) (row : list jsval) : gmap string jsval :=
  let d := data this in
  let r := map (udger_deviceclass_regex d) (RRow row) ["deviceclass_id"; "regstring"] [] in
  spread r
    (map (udger_deviceclass_list d)
       (row_at (udger_deviceclass_list d) (get r "deviceclass_id"))
       deviceclass_list_keys [("id", "deviceclass_id")]).

(** The test of [filterBy] in the device marketname stage: the row of
    [udger_devicename_regex] is for the OS family [family] and for the OS
    [code] or for all of them. *)
Definition devicename_candidate (this : Parser) (family code : jsval)
    (row : list jsval) : bool :=
  let cols := Table.columns (udger_devicename_regex (data this)) in
  Js.strict_eq (cell (RRow row) (cols !! "os_family_code")) family
  && (Js.strict_eq (cell (RRow row) (cols !! "os_code")) (JStr "-all-")
      || Js.strict_eq (cell (RRow row) (cols !! "os_code")) code).

(** The match of a row of [udger_devicename_regex] against [ua]. *)
Definition devicename_pattern_match (H : Helpers) (this : Parser) (ua : string)
    (row : list jsval) : option (list (option string)) :=
  ua_match H
    (cell (RRow row) (Table.columns (udger_devicename_regex (data this)) !! "regstring"))
    ua.

(** The test of the lookup in [udger_devicename_list]: the row is for the
    pattern with the id [rId] and for the code [match_]. *)
Definition is_devicename_row (this : Parser) (rId match_ : jsval)
    (row : list jsval) : bool :=
  let cols := Table.columns (udger_devicename_list (data this)) in
  Js.strict_eq (cell (RRow row) (cols !! "regex_id")) rId
  && Js.strict_eq (cell (RRow row) (cols !! "code")) match_.

(** The record [rC] of the device marketname stage for the row [qC] of
    [udger_devicename_list]: the row with its brand joined. *)
Definition devicename_join (this : Parser) (qC : list jsval) : gmap string jsval :=
  let d := data this in
  let rC := map (udger_devicename_list d) (RRow qC) ["marketname"; "brand_id"] [] in
  spread rC
    (map (udger_devicename_brand d)
       (row_at (udger_devicename_brand d) (get rC "brand_id"))
       ["id"; "brand_code"; "brand"; "brand_url"; "icon"; "icon_big"]
       [("id", "brand_id")]).

(** The test of the lookup in [udger_datacenter_range6]: each of the
    eight groups of the address is between the bounds of the row. *)
Definition in_range6_row (this : Parser) (ipInts : list Z) (row : list jsval) : bool :=
  forallb (in_range6 row (Table.columns (udger_datacenter_range6 (data this))) ipInts)
    (seq 0 8).

(** The dataset with other tables for the device marketnames. *)
Definition with_devicename_tables (regex list_ brand : Table) (d : Dataset) : Dataset :=
  {| udger_crawler_list := udger_crawler_list d;
     udger_crawler_class := udger_crawler_class d;
     udger_client_regex := udger_client_regex d;
     udger_client_list := udger_client_list d;
     udger_client_class := udger_client_class d;
     udger_os_regex := udger_os_regex d;
     udger_os_list := udger_os_list d;
     udger_client_os_relation := udger_client_os_relation d;
     udger_deviceclass_regex := udger_deviceclass_regex d;
     udger_deviceclass_list := udger_deviceclass_list d;
     udger_devicename_regex := regex;
     udger_devicename_list := list_;
     udger_devicename_brand := brand;
     udger_ip_list := udger_ip_list d;
     udger_ip_class := udger_ip_class d;
     udger_datacenter_range := udger_datacenter_range d;
     udger_datacenter_range6 := udger_datacenter_range6 d;
     udger_datacenter_list := udger_datacenter_list d |}.

(** The row of [udger_devicename_regex] of the examples: on any Android,
    the model number of a Nexus. *)
Definition nexus_pattern : list jsval :=
  [JNum 31; JStr "android"; JStr "-all-"; JStr "/Nexus ([0-9.]+)/si"].

(** The row of [udger_devicename_list] for the code 5 of that pattern. *)
Definition nexus_5 : list jsval := [JNum 31; JStr "5"; JStr "Nexus 5"; JNum 0].

(** The parser of the examples with device marketnames. *)
Definition with_nexus : Parser :=
  Fields.with_data
    (with_devicename_tables
       (Demo.table ["id"; "os_family_code"; "os_code"; "regstring"] [nexus_pattern])
       (Demo.table ["regex_id"; "code"; "marketname"; "brand_id"] [nexus_5])
       (Demo.table ["id"; "brand_code"; "brand"; "brand_url"; "icon"; "icon_big"]
          [[JNum 12; JStr "lg"; JStr "LG"; JStr "https://www.lg.com/"; JStr "lg.png";
            JStr "lg_big.png"]])
       Demo.dataset)
    Demo.ready.

End Cases.

(** ** Foreign keys that refer to no row *)

Module Joins.

Import UdgerParser Fields Cases.

(** The foreign key of the row [row] of the table [t]:
    [row[columns[key]]]. *)
Definition foreign_key (t : Table) (row : list jsval) (key : string) : jsval :=
  cell (RRow row) (Table.columns t !! key).

(** The foreign key [v] refers to no row of the table [t]: [t.data[v]]
    is [undefined]. *)
Definition missing (t : Table) (v : jsval) : Prop := row_at t v = RUndef.

(** Each of the fields [fields] of the record [m] is the empty string. *)
Definition all_empty (m : gmap string jsval) (fields : list string) : Prop :=
  ∀ k, k ∈ fields → m !! k = Some (JStr "").

(** The variables of [parseUa] after the crawler and client stage, after
    the OS stage, after the client/OS relation stage, after the patterns
    of the device classes and after the second device class stage. *)
Definition after_client (H : Helpers) (this : Parser) (opts : Opts) (ua : string)
    : UaVars :=
  crawler_or_client H this opts ua (ua_start this opts ua).

Definition after_os (H : Helpers) (this : Parser) (opts : Opts) (ua : string)
    : UaVars :=
  os_stage H this opts ua (after_client H this opts ua).

Definition after_relation (H : Helpers) (this : Parser) (opts : Opts) (ua : string)
    : UaVars :=
  os_relation_stage this opts (after_os H this opts ua).

Definition after_patterns (H : Helpers) (this : Parser) (opts : Opts) (ua : string)
    : UaVars :=
  deviceclass_stage H this opts ua (after_relation H this opts ua).

Definition after_fallback (H : Helpers) (this : Parser) (opts : Opts) (ua : string)
    : UaVars :=
  deviceclass_fallback_stage this opts (after_patterns H this opts ua).

(** The lookup of the crawler stage: the first row of [udger_crawler_list]
    with the string [ua]. *)
Definition crawler_lookup (this : Parser) (ua : string) : option (list jsval) :=
  findBy (udger_crawler_list (data this))
    (λ row cols, Js.strict_eq (cell (RRow row) (cols !! "ua_string")) (JStr ua)).

(** The lookup of the client/OS relation stage, as the source has it: the
    first row of [udger_client_os_relation] whose cell [client_id] is the
    position of that column. *)
Definition relation_lookup (this : Parser) : option (list jsval) :=
  findBy (udger_client_os_relation (data this))
    (λ row cols, Js.strict_eq (cell (RRow row) (cols !! "client_id"))
                   (column_val (cols !! "client_id"))).

(** The foreign key of the client/OS relation stage: [r.os_id] for the
    record that [map] makes of the variable [r]. *)
Definition relation_key (this : Parser) (v : UaVars) : jsval :=
  get (map (udger_client_os_relation (data this)) (r v) ["os_id"] []) "os_id".

(** The lookup of the second device class stage: the first row of
    [udger_client_class] with the id that the variable [client_class_id]
    holds. *)
Definition class_lookup (this : Parser) (v : UaVars) : option (list jsval) :=
  findBy (udger_client_class (data this))
    (λ row cols, Js.strict_eq (cell (RRow row) (cols !! "id")) (client_class_id v)).

(** The row of [udger_devicename_list] that the device marketname stage
    finds, when it runs and finds one. *)
Definition devicename_lookup (H : Helpers) (this : Parser) (ua : string) (v : UaVars)
    : option (list jsval) :=
  if Js.truthy (get (rua v) "os_family_code") then
    let q := filterBy (udger_devicename_regex (data this))
               (λ row cols,
                  let condition1 :=
                    Js.strict_eq (cell (RRow row) (cols !! "os_family_code"))
                      (get (rua v) "os_family_code") in
                  let condition2 :=
                    Js.strict_eq (cell (RRow row) (cols !! "os_code")) (JStr "-all-")
                    || Js.strict_eq (cell (RRow row) (cols !! "os_code"))
                         (get (rua v) "os_code") in
                  condition1 && condition2) in
    let '(match_, rId) := devicename_loop H this ua q in
    findBy (udger_devicename_list (data this))
      (λ row cols,
         Js.strict_eq (cell (RRow row) (cols !! "regex_id")) rId
         && Js.strict_eq (cell (RRow row) (cols !! "code")) match_)
  else None.

(** The fields of the result that are assigned as [r[key] || ''] for a
    key [key] of the table joined last: the class of a crawler, a client,
    an OS, a device class, a brand, the class of an address, the crawler
    of an address. *)
Definition crawler_class_fields : list string :=
  ["crawler_category"; "crawler_category_code"].

Definition client_list_fields : list string :=
  ["ua_uptodate_current_version"; "ua_family"; "ua_family_code";
   "ua_family_homepage"; "ua_family_vendor"; "ua_family_vendor_code";
   "ua_family_vendor_homepage"; "ua_family_icon"; "ua_family_icon_big";
   "ua_engine"].

Definition os_list_fields : list string :=
  ["os"; "os_code"; "os_homepage"; "os_icon"; "os_icon_big"; "os_family";
   "os_family_code"; "os_family_vendor"; "os_family_vendor_code";
   "os_family_vendor_homepage"].

Definition deviceclass_list_fields : list string :=
  ["device_class"; "device_class_code"; "device_class_icon";
   "device_class_icon_big"].

Definition brand_fields : list string :=
  ["device_brand"; "device_brand_code"; "device_brand_homepage";
   "device_brand_icon"; "device_brand_icon_big"].

Definition ip_class_fields : list string :=
  ["ip_classification"; "ip_classification_code"].

Definition ip_crawler_fields : list string :=
  ["crawler_name"; "crawler_ver"; "crawler_ver_major"; "crawler_family";
   "crawler_family_code"; "crawler_family_homepage"; "crawler_family_vendor";
   "crawler_family_vendor_code"; "crawler_family_vendor_homepage";
   "crawler_family_icon"; "crawler_last_seen"; "crawler_respect_robotstxt"].

(** A dataset for the examples in which each kind of foreign key refers
    to a row that is not there: the tables of the crawler classes, of the
    device classes, of the brands and of the datacenters are empty, the
    only client has the class 9, and two rows of [udger_ip_list] refer to
    the crawler 7 and to the class 9.  The one row of the client/OS
    relation holds the position of its column [client_id]. *)
Definition sparse_dataset : Dataset :=
  {| udger_crawler_list := udger_crawler_list Demo.dataset;
     udger_crawler_class :=
       Demo.table ["id"; "crawler_classification"; "crawler_classification_code"] [];
     udger_client_regex := udger_client_regex Demo.dataset;
     udger_client_list :=
       Demo.table
         ["id"; "class_id"; "name"; "name_code"; "homepage"; "icon"; "icon_big";
          "engine"; "vendor"; "vendor_code"; "vendor_homepage";
          "uptodate_current_version"]
         [[JNum 3; JNum 9; JStr "Firefox"; JStr "firefox";
           JStr "http://www.firefox.com/"; JStr "firefox.png"; JStr "firefox_big.png";
           JStr "Gecko"; JStr "Mozilla Foundation"; JStr "mozilla_foundation";
           JStr "http://www.mozilla.org/"; JStr "50"]];
     udger_client_class := udger_client_class Demo.dataset;
     udger_os_regex := udger_os_regex Demo.dataset;
     udger_os_list := udger_os_list Demo.dataset;
     udger_client_os_relation :=
       Demo.table ["client_id"; "os_id"] [[JNum 0; JNum 1]];
     udger_deviceclass_regex := udger_deviceclass_regex Demo.dataset;
     udger_deviceclass_list :=
       Demo.table ["id"; "name"; "name_code"; "icon"; "icon_big"] [];
     udger_devicename_regex :=
       Demo.table ["id"; "os_family_code"; "os_code"; "regstring"] [nexus_pattern];
     udger_devicename_list :=
       Demo.table ["regex_id"; "code"; "marketname"; "brand_id"] [nexus_5];
     udger_devicename_brand :=
       Demo.table ["id"; "brand_code"; "brand"; "brand_url"; "icon"; "icon_big"] [];
     udger_ip_list :=
       Demo.table
         ["ip"; "class_id"; "crawler_id"; "ip_last_seen"; "ip_hostname";
          "ip_country"; "ip_city"; "ip_country_code"]
         (Table.data (udger_ip_list Demo.dataset)
          ++ [[JStr "10.0.0.1"; JNum 1; JNum 7; JStr "2017-01-07"; JStr "";
               JStr ""; JStr ""; JStr ""];
              [JStr "10.0.0.2"; JNum 9; JNull; JStr "2017-01-08"; JStr "";
               JStr ""; JStr ""; JStr ""]]);
     udger_ip_class := udger_ip_class Demo.dataset;
     udger_datacenter_range := udger_datacenter_range Demo.dataset;
     udger_datacenter_range6 := udger_datacenter_range6 Demo.dataset;
     udger_datacenter_list := Demo.table ["id"; "name"; "name_code"; "homepage"] [] |}.

Definition sparse : Parser := Fields.with_data sparse_dataset Demo.ready.

End Joins.

(** ** The checks before the random samples *)

Module Checks.

Import UdgerParser.

(** [typeof v] is ['number']. *)
Definition is_number (v : jsval) : bool :=
  match v with JNum _ => true | _ => false end.

(** [randomSanityChecks(max, callback)]: the boolean returned and the
    calls of [callback], each given by the message of the error it is
    called with. *)
Definition randomSanityChecks (this : Parser) (max : jsval) : bool * list string :=
  if negb (db this) then (false, ["Database not ready"])
  else if negb (Js.truthy max) then
    (false, ["Please specify maximum number of records"])
  else if negb (is_number max) then
    (false, ["Maximum number of records is not a number"])
  else (true, []).

End Checks.

(** ** The conversion of the database ([convert.js])

    The script reads every table of the SQLite file into
    [{ columns, data }], sorts some of them, replaces each foreign id by
    the position of the row it refers to, and writes the tables as JSON;
    the parser loads that file.  The sorting is not embedded: the block
    that replaces the ids is given the tables as the sorting left
    them. *)

Module Convert.

(** A row while the script runs: the array that [stmt.raw().all()]
    returned, and its property ["undefined"], which an assignment
    [row[undefined] = ...] creates and a read [row[undefined]] sees (the
    position of a column that the table does not have is [undefined]). *)
Record row := {
  cells : list jsval;
  undefined_ : jsval
}.

Record table := {
  columns : gmap string nat;
  data : list row
}.

(** [acc[key] = n] for a number [n], on an object created by [{}]: the
    key ["__proto__"] names the accessor of [Object.prototype], which
    ignores a number; any other key becomes a property of [acc]. *)
Definition put (acc : gmap string nat) (key : string) (n : nat) : gmap string nat :=
  if String.eqb key "__proto__" then acc else <[key := n]> acc.

(** [array.reduce(f, acc)], [f] taking the accumulator, the item and its
    position. *)
Fixpoint reduce_from {A B} (f : B → A → nat → B) (i : nat) (l : list A) (acc : B) : B :=
  match l with
  | [] => acc
  | x :: l => reduce_from f (S i) l (f acc x i)
  end.

Definition reduce {A B} (f : B → A → nat → B) (l : list A) (acc : B) : B :=
  reduce_from f 0 l acc.

(** [prepareColumns(acc, column, index)], [column.name] being [column]. *)
Definition prepareColumns (acc : gmap string nat) (column : string) (index : nat)
    : gmap string nat :=
  put acc column index.

(** [row[c]], [c] being [columns[name]]. *)
Definition read (r : row) (c : option nat) : jsval :=
  match c with
  | Some n => default JUndef (cells r !! n)
  | None => undefined_ r
  end.

(** [row[c] = x]: past the end of the array the assignment extends it,
    the positions between reading [undefined]. *)
Definition write (r : row) (c : option nat) (x : jsval) : row :=
  match c with
  | Some n =>
      {| cells :=
           if decide (n < length (cells r)) then <[n := x]> (cells r)
           else cells r ++ replicate (n - length (cells r)) JUndef ++ [x];
         undefined_ := undefined_ r |}
  | None => {| cells := cells r; undefined_ := x |}
  end.

(** [mapIndexesByID(table)], given the table that [output[table]] holds:
    the object [{ id: index }]. *)
Definition mapIndexesByID (t : table) : gmap string nat :=
  reduce (λ acc v i, let id := read v (columns t !! "id") in put acc (Js.to_str id) i)
    (data t) ∅.

(** The ids of the rows of a table, as the names of properties. *)
Definition ids (t : table) : list string :=
  (λ r, Js.to_str (read r (columns t !! "id"))) <$> data t.

(** [rightIndexes[v]]: the position stored for the id [v], [undefined]
    when there is none.  When [v] names a member of [Object.prototype]
    that no id hides, the expression yields that function or object, a
    value that the cells of this embedding do not hold: [None]. *)
Definition index_of (rightIndexes : gmap string nat) (v : jsval) : option jsval :=
  match rightIndexes !! Js.to_str v with
  | Some i => Some (JNum (Z.of_nat i))
  | None =>
      if bool_decide (Js.to_str v ∈ Js.object_prototype_keys) then None
      else Some JUndef
  end.

(** How the block of the script that replaces the foreign ids ends:
    with the tables, with the [TypeError] of a table that is missing, or
    outside this embedding (see [index_of]). *)
Inductive ending (A : Type) :=
  | Done (a : A)
  | TypeError
  | Unmodelled.
Arguments Done {A} a.
Arguments TypeError {A}.
Arguments Unmodelled {A}.

Definition relationships : list (string * string * string) :=
  [("udger_crawler_list", "class_id", "udger_crawler_class");
   ("udger_client_regex", "client_id", "udger_client_list");
   ("udger_client_list", "class_id", "udger_client_class");
   ("udger_os_regex", "os_id", "udger_os_list");
   ("udger_client_os_relation", "os_id", "udger_os_list");
   ("udger_deviceclass_regex", "deviceclass_id", "udger_deviceclass_list");
   ("udger_client_class", "deviceclass_id", "udger_deviceclass_list");
   ("udger_devicename_list", "brand_id", "udger_devicename_brand");
   ("udger_ip_list", "class_id", "udger_ip_class");
   ("udger_ip_list", "crawler_id", "udger_crawler_list");
   ("udger_datacenter_range", "datacenter_id", "udger_datacenter_list");
   ("udger_datacenter_range6", "datacenter_id", "udger_datacenter_list")].

(** The statement of [data.forEach]: [row[foreignColumn] =
    rightIndexes[row[foreignColumn]]]. *)
Definition replace_in_row (foreignColumn : option nat) (rightIndexes : gmap string nat)
    (r : row) : option row :=
  write r foreignColumn <$> index_of rightIndexes (read r foreignColumn).

(** The body of the loop [for (let [leftTable, foreignColumn, rightTable]
    of relationships)]; [output] is given by the tables it holds. *)
Definition replace_foreign (output : gmap string table)
    (relationship : string * string * string) : ending (gmap string table) :=
  let '(leftTable, foreignColumn, rightTable) := relationship in
  match output !! leftTable with
  | None => TypeError
  | Some left_ =>
      match output !! rightTable with
      | None => TypeError
      | Some right_ =>
          let rightIndexes := mapIndexesByID right_ in
          let foreignColumn := columns left_ !! foreignColumn in
          match mapM (replace_in_row foreignColumn rightIndexes) (data left_) with
          | Some rows =>
              Done (<[leftTable := {| columns := columns left_; data := rows |}]> output)
          | None => Unmodelled
          end
      end
  end.

(** The loop over the relationships [rels]. *)
Fixpoint replace_all (rels : list (string * string * string))
    (output : gmap string table) : ending (gmap string table) :=
  match rels with
  | [] => Done output
  | rel :: rest =>
      match replace_foreign output rel with
      | Done output => replace_all rest output
      | TypeError => TypeError
      | Unmodelled => Unmodelled
      end
  end.

(** The block "Replace foreign id with foreign index". *)
Definition replace_foreign_ids (output : gmap string table) : ending (gmap string table) :=
  replace_all relationships output.

(** A table as the script builds it from the names of the columns and
    the rows of the statement: [stmt.columns().reduce(prepareColumns, {})]
    and [stmt.raw().all()]. *)
Definition imported (names : list string) (rows : list (list jsval)) : table :=
  {| columns := reduce prepareColumns names ∅;
     data := (λ c, {| cells := c; undefined_ := JUndef |}) <$> rows |}.

(** A character of the decimal text of an integer. *)
Definition sign_or_digit (c : ascii) : bool := Js.is_digit c || Ascii.eqb c "-".

(** A value that names no member of [Object.prototype] when it is used
    as the name of a property: every number, [null], [undefined], and
    every text but the twelve names. *)
Definition plain (v : jsval) : Prop := Js.to_str v ∉ Js.object_prototype_keys.

Definition plain_row (r : row) : Prop :=
  Forall plain (cells r) ∧ plain (undefined_ r).

Definition plain_table (t : table) : Prop := Forall plain_row (data t).

(** The tables that the relationships name. *)
Definition related_tables : list string :=
  relationships.*1.*1 ++ relationships.*2.

(** Two small tables for the examples: crawlers that refer to their
    class by its id, the second one to a class that is not there. *)
Definition sample_crawlers : table :=
  imported ["id"; "ua_string"; "class_id"]
    [[JNum 4; JStr "Googlebot/2.1"; JNum 10];
     [JNum 9; JStr "Examplebot/1.0"; JNum 77]].

Definition sample_classes : table :=
  imported ["id"; "crawler_classification"]
    [[JNum 5; JStr "Site monitor"];
     [JNum 10; JStr "Search engine bot"]].

Definition sample_output : gmap string table :=
  {[ "udger_crawler_list" := sample_crawlers;
     "udger_crawler_class" := sample_classes ]}.

(** The same two tables among the others that the relationships name,
    those without a row. *)
Definition sample_database : gmap string table :=
  sample_output ∪ list_to_map ((λ name, (name, imported ["id"] [])) <$> related_tables).

(** A cell as [JSON.stringify] writes it and the parser reads it back:
    [undefined] in an array is written [null]. *)
Definition json_cell (v : jsval) : jsval :=
  match v with JUndef => JNull | _ => v end.

(** A table as the parser loads it from the file that
    [JSON.stringify(output)] wrote: the property ["undefined"] of a row
    is not part of the text of an array. *)
Definition exported (t : table) : Table :=
  {| Table.columns := columns t;
     Table.data := (λ r, json_cell <$> cells r) <$> data t |}.

End Convert.

(** * Properties *)

Import UdgerParser Calls.

(** ** Objects as property lists *)

Section own_properties.

Context {A : Type}.
Implicit Types (o : list (string * A)) (key : string).

Lemma length_own_entries o : length (Js.own_entries o) = length o.
Proof.
  unfold Js.own_entries. rewrite length_app, length_fmap.
  rewrite (Permutation_length (merge_sort_Permutation _ _)).
  induction o as [|kv o IH]; [done|]. cbn [omap list_omap].
  rewrite filter_cons.
  destruct (Js.array_index_key kv.1) eqn:E; cbn [fmap option_fmap option_map].
  - rewrite decide_False by done. cbn [length]. lia.
  - rewrite decide_True by done. cbn [length]. lia.
Qed.

Lemma length_Object_keys o : length (Js.Object_keys o) = length o.
Proof. unfold Js.Object_keys. by rewrite length_fmap, length_own_entries. Qed.

Lemma own_entries_elem kv o : kv ∈ Js.own_entries o → kv ∈ o.
Proof.
  unfold Js.own_entries. rewrite elem_of_app. intros [Hin|Hin].
  - apply list_elem_of_fmap in Hin as [[n kv'] [-> Hin]].
    rewrite merge_sort_Permutation in Hin.
    apply list_elem_of_omap in Hin as (x & Hx & Hf).
    destruct (Js.array_index_key x.1); simplify_eq/=. done.
  - by apply list_elem_of_filter in Hin as [_ ?].
Qed.

Lemma Object_keys_head o key :
  head (Js.Object_keys o) = Some key → key ∈ o.*1.
Proof.
  unfold Js.Object_keys. intros Hhd.
  assert (key ∈ (Js.own_entries o).*1) as Hin.
  { destruct ((Js.own_entries o).*1); simplify_eq/=. left. }
  apply list_elem_of_fmap in Hin as (kv & -> & Hin).
  apply list_elem_of_fmap_2. by apply own_entries_elem.
Qed.

Lemma length_delete_property_le o key :
  length (Js.delete_property o key) ≤ length o.
Proof. apply length_filter. Qed.

Lemma length_delete_property_lt o key :
  key ∈ o.*1 → length (Js.delete_property o key) < length o.
Proof.
  intros (kv & -> & Hin)%list_elem_of_fmap.
  apply (length_filter_lt _ _ kv); [done|]. by intros ?.
Qed.

Lemma own_property_app o o' key :
  Js.own_property (o ++ o') key =
    match Js.own_property o key with
    | Some x => Some x
    | None => Js.own_property o' key
    end.
Proof.
  unfold Js.own_property. induction o as [|kv o IH]; [done|].
  cbn [app List.find]. destruct (bool_decide (kv.1 = key)); [done|]. apply IH.
Qed.

Lemma own_property_None o key : Js.own_property o key = None ↔ key ∉ o.*1.
Proof.
  unfold Js.own_property. induction o as [|kv o IH]; cbn [List.find fmap list_fmap].
  - split; [intros _; apply not_elem_of_nil | done].
  - rewrite not_elem_of_cons. case_bool_decide as Hk; cbn; [naive_solver|].
    rewrite IH. naive_solver.
Qed.

End own_properties.

(** ** The cache *)

(** The loop of [cacheWrite] exits, whatever the cache, when the capacity
    is not negative: as many iterations as there are entries suffice, and
    what is left fits the capacity. *)
Lemma evict_exits fuel max c :
  (0 ≤ max)%Z → length c ≤ fuel →
  ∃ c', evict fuel max c = Some c'
        ∧ (Z.of_nat (length (Js.Object_keys c')) ≤ max)%Z
        ∧ length c' ≤ length c.
Proof.
  intros Hmax. revert c. induction fuel as [|fuel IH]; intros c Hfuel.
  - destruct c; [|cbn in Hfuel; lia]. exists []. cbn.
    case_match eqn:E; [apply Z.ltb_lt in E; lia|]. split_and!; [done|lia|done].
  - cbn [evict]. case_match eqn:E.
    + apply Z.ltb_lt in E. rewrite length_Object_keys in E.
      destruct (head (Js.Object_keys c)) as [key|] eqn:Hhd.
      * apply Object_keys_head in Hhd.
        pose proof (length_delete_property_lt c key Hhd) as Hlt.
        simpl (Js.to_str _).
        destruct (IH (Js.delete_property c key)) as (c' & -> & ? & ?); [lia|].
        exists c'. split_and!; [done|done|lia].
      * pose proof (length_Object_keys c) as Hlen.
        destruct (Js.Object_keys c); [|done]. cbn in Hlen. lia.
    + apply Z.ltb_ge in E. exists c. done.
Qed.

(** With a negative capacity the loop never exits: no number of
    iterations brings it to its end. *)
Lemma evict_negative fuel max c : (max < 0)%Z → evict fuel max c = None.
Proof.
  intros Hmax. revert c. induction fuel as [|fuel IH]; intros c; cbn [evict].
  - case_match eqn:E; [done|]. apply Z.ltb_ge in E. lia.
  - case_match eqn:E; [apply IH|]. apply Z.ltb_ge in E. lia.
Qed.


Lemma cacheWrite_present this key data :
  cacheKeyExist this key = true → cacheWrite this key data = Returns this ().
Proof. unfold cacheWrite. by intros ->. Qed.

(** With a negative capacity a write of a new key does not end. *)
Lemma cacheWrite_diverges this key data :
  (cacheMaxRecords this < 0)%Z → cacheKeyExist this key = false →
  cacheWrite this key data = Diverges.
Proof. intros Hmax Hk. unfold cacheWrite. by rewrite Hk, evict_negative. Qed.

Lemma cacheKeyExist_false this key :
  cacheKeyExist this key = false ↔
    Js.own_property (cache this) key = None
    ∧ (key ∉ proto_extra this) ∧ (key ∉ Js.object_prototype_keys).
Proof.
  unfold cacheKeyExist, cache_get.
  destruct (Js.own_property (cache this) key); [naive_solver|].
  repeat case_bool_decide; naive_solver.
Qed.

Lemma cacheWrite_returns this key data :
  (0 ≤ cacheMaxRecords this)%Z →
  ∃ this', cacheWrite this key data = Returns this' ()
    ∧ if cacheKeyExist this key then this' = this
      else (Z.of_nat (length (Js.Object_keys (cache this'))) ≤ cacheMaxRecords this')%Z.
Proof.
  intros Hmax. unfold cacheWrite. destruct (cacheKeyExist this key); [by eexists|].
  destruct (evict_exits (S (length (cache this ++ [(key, data)])))
              (cacheMaxRecords this) (cache this ++ [(key, data)]))
    as (c' & -> & Hfit & _); [done|lia|].
  eexists. split; [done|]. done.
Qed.

(** C6, as amended.  With a capacity that is not negative [cacheWrite]
    returns; when it stored a new key the number of entries is at most
    the capacity, and when the key was there already the parser is as it
    was (so the number of entries is what it was, within the capacity or
    not). *)
Theorem cacheWrite_capacity this key data :
  (0 ≤ cacheMaxRecords this)%Z →
  ∃ this', cacheWrite this key data = Returns this' ()
    ∧ if cacheKeyExist this key then this' = this
      else (Z.of_nat (length (Js.Object_keys (cache this'))) ≤ cacheMaxRecords this')%Z.
Proof. apply cacheWrite_returns. Qed.

Lemma cacheWrite_capacity_witness :
  (0 ≤ cacheMaxRecords Demo.one_entry)%Z
  ∧ ∃ this', cacheWrite Demo.one_entry "b" 1 = Returns this' ()
      ∧ if cacheKeyExist Demo.one_entry "b" then this' = Demo.one_entry
        else (Z.of_nat (length (Js.Object_keys (cache this'))) ≤ cacheMaxRecords this')%Z.
Proof.
  split; [done|]. apply (cacheWrite_capacity Demo.one_entry "b" 1). done.
Defined.

(** C6 as stated fails: two entries are stored, the capacity is then set
    to 1, and a write of a key that is there returns with both entries
    still stored. *)
Lemma cacheWrite_over_capacity :
  cache Demo.two_entries = [("a", 0); ("b", 1)]
  ∧ cacheWrite (setCacheSize 1 Demo.two_entries) "a" 2
    = Returns (setCacheSize 1 Demo.two_entries) ()
  ∧ cacheMaxRecords (setCacheSize 1 Demo.two_entries) = 1%Z
  ∧ length (Js.Object_keys (cache (setCacheSize 1 Demo.two_entries))) = 2.
Proof.
  split_and!; [by vm_compute| |done|by vm_compute].
  apply cacheWrite_present. by vm_compute.
Qed.





(** ** Results shared between the cache and the caller *)

Lemma set_keys_heap H props : ∀ this,
  heap (set_keys H props this).1 = heap this.
Proof.
  induction props as [|[key value] props IH]; intros this; cbn [set_keys]; [done|].
  destruct (String.eqb key "ua"); [by rewrite IH|].
  destruct (String.eqb key "ip"); [|done].
  destruct value; [by rewrite IH|done].
Qed.

Lemma set_heap H data this this' :
  left_by (set H data this) = Some this' → heap this' = heap this.
Proof.
  unfold set. destruct data as [props|]; [|by intros [= <-]].
  cbv zeta.
  pose proof (set_keys_heap H
                (Js.own_entries props ++ ((λ k, (k, None)) <$> proto_extra this)) this)
    as Hh.
  destruct (set_keys _ _ this) as [this1 [|]]; cbn in *; by intros [= <-].
Qed.

Lemma flagged_alloc this l flag o :
  flagged this l flag → flagged (with_heap (heap this ++ [o]) this) l flag.
Proof.
  intros (x & Hl & Hx). exists x. split; [|done]. cbn [heap with_heap].
  by apply lookup_app_l_Some.
Qed.

Lemma cacheRead_flagged this key opts this' l flag :
  flagged this l flag →
  left_by (cacheRead this key opts) = Some this' → flagged this' l flag.
Proof.
  intros (x & Hl & Hx). unfold cacheRead.
  destruct (cache_flag opts) as [f|]; [|intros [= <-]; by exists x].
  destruct (cache_get this key) as [l'|k| |]; cbn [left_by].
  - intros [= <-]. cbn [heap with_heap]. destruct (decide (l' = l)) as [->|Hne].
    + exists (<[f := JV (JBool true)]> x). split.
      * cbn [heap with_heap]. by rewrite list_lookup_alter_eq, Hl.
      * destruct (decide (f = flag)) as [->|];
          [by rewrite lookup_insert_eq | by rewrite lookup_insert_ne].
    + exists x. split; [|done]. cbn [heap with_heap]. by rewrite list_lookup_alter_ne.
  - destruct (String.eqb k "__proto__"); intros [= <-]; by exists x.
  - intros [= <-]. by exists x.
  - intros [= <-]. by exists x.
Qed.

Lemma cacheWrite_heap this key data this' :
  left_by (cacheWrite this key data) = Some this' → heap this' = heap this.
Proof.
  unfold cacheWrite. destruct (cacheKeyExist this key); [by intros [= <-]|].
  destruct (evict _ _ _); [by intros [= <-]|done].
Qed.

Lemma parse_flagged H this opts this' l flag :
  flagged this l flag →
  left_by (parse H this opts) = Some this' → flagged this' l flag.
Proof.
  intros Hf. unfold parse. destruct (negb (db this)).
  { intros [= <-]. by apply flagged_alloc. }
  destruct (isCacheEnable this && cacheKeyExist this (keyCache this)).
  { by apply cacheRead_flagged. }
  set (ret := parse_result _ _ _).
  pose proof (flagged_alloc this l flag ret Hf) as Hf'.
  set (this1 := with_heap _ this) in *.
  destruct (isCacheEnable this1); [|by intros [= <-]].
  pose proof (cacheWrite_heap this1 (keyCache this1) (length (heap this))) as Hw.
  destruct (cacheWrite this1 _ _) as [this2 []|this2|]; cbn [left_by] in *;
    [| |done]; intros [= <-]; destruct Hf' as (x & ? & ?); exists x;
    by rewrite Hw.
Qed.

Lemma step_flagged H c this this' l flag :
  flagged this l flag → step H c this = Some this' → flagged this' l flag.
Proof.
  intros Hf. destruct c; cbn [step].
  - unfold connect. destruct (negb (db this)); by intros [= <-].
  - unfold disconnect. destruct (db this); by intros [= <-].
  - intros Hs. destruct Hf as (x & ? & ?). exists x.
    by rewrite (set_heap _ _ _ _ Hs).
  - by intros [= <-].
  - by intros [= <-].
  - by apply cacheRead_flagged.
  - intros Hs. destruct Hf as (x & ? & ?). exists x.
    by rewrite (cacheWrite_heap _ _ _ _ Hs).
  - by intros [= <-].
  - by apply parse_flagged.
Qed.

Lemma run_flagged H calls : ∀ this this' l flag,
  flagged this l flag → run H calls this = Some this' → flagged this' l flag.
Proof.
  induction calls as [|c calls IH]; intros this this' l flag Hf; cbn [run].
  - by intros [= <-].
  - destruct (step H c this) as [this1|] eqn:Hs; [|done].
    apply IH. by eapply step_flagged.
Qed.

(** C10, as amended.  A read of a key the cache holds returns the very
    object that is stored and leaves it stored.  Unless the options ask
    for the compact JSON format, the read sets the flag of the format on
    that object, and after any calls of the methods of the parser the
    object still has the flag set; with the options of the compact JSON
    format the read changes nothing. *)
Theorem cacheRead_marks_stored_object H this key opts l :
  Js.own_property (cache this) key = Some l →
  l < length (heap this) →
  ∃ this', cacheRead this key opts = Returns this' (Obj l)
    ∧ cache this' = cache this
    ∧ match cache_flag opts with
      | Some flag =>
          flagged this' l flag
          ∧ ∀ calls this'', run H calls this' = Some this'' → flagged this'' l flag
      | None => this' = this
      end.
Proof.
  intros Hown Hl. unfold cacheRead, cache_get. rewrite Hown.
  destruct (cache_flag opts) as [flag|]; [|by eexists].
  eexists. split; [done|]. split; [done|]. cbn [cache with_heap].
  assert (flagged (with_heap (alter (insert flag (JV (JBool true))) l (heap this)) this)
            l flag) as Hf.
  { destruct (lookup_lt_is_Some_2 (heap this) l Hl) as [x Hx].
    exists (<[flag := JV (JBool true)]> x). split.
    - cbn [heap with_heap]. by rewrite list_lookup_alter_eq, Hx.
    - by rewrite lookup_insert_eq. }
  split; [done|]. intros calls this''. by apply run_flagged.
Qed.

(** ** The shape of the result of [parse] *)


Lemma parseUa_not_given H this s opts :
  given s = false → udger (parseUa H this s opts) = json_clone (retUa this).
Proof. by destruct s as [[|c s]|]. Qed.

Lemma parseIp_not_given H this s opts :
  given s = false → udger (parseIp H this s opts) = json_clone (retIp this).
Proof. by destruct s as [[|c s]|]. Qed.

Lemma parse_result_shape H this o :
  let ret := parse_result H this o in
  if json o then
    (ret !! "userAgent" =
       if given (ua this) then Some (JO (json_ (parseUa H this (ua this) o)))
       else None)
    ∧ (ret !! "ipAddress" =
         if given (ip this) then Some (JO (json_ (parseIp H this (ip this) o)))
         else None)
    ∧ (ret !! "fromCache" = if full o then Some (JV (JBool false)) else None)
    ∧ dom ret ⊆ {["userAgent"; "ipAddress"; "fromCache"]}
  else
    ret !! "user_agent" = Some (JO (JV <$> udger (parseUa H this (ua this) o)))
    ∧ ret !! "ip_address" = Some (JO (JV <$> udger (parseIp H this (ip this) o)))
    ∧ ret !! "from_cache" = Some (JV (JBool false))
    ∧ dom ret = {["user_agent"; "ip_address"; "from_cache"]}
    ∧ (given (ua this) = false →
       udger (parseUa H this (ua this) o) = json_clone (retUa this))
    ∧ (given (ip this) = false →
       udger (parseIp H this (ip this) o) = json_clone (retIp this)).
Proof.
  unfold parse_result. destruct (json o).
  - destruct (given (ua this)), (given (ip this)), (full o);
      (split_and!;
       [by simplify_map_eq | by simplify_map_eq | by simplify_map_eq
       | rewrite ?dom_insert_L, dom_empty_L; set_solver]).
  - split_and!.
    + by simplify_map_eq.
    + by simplify_map_eq.
    + by simplify_map_eq.
    + rewrite !dom_insert_L, dom_empty_L. set_solver.
    + apply parseUa_not_given.
    + apply parseIp_not_given.
Qed.

(** C4, as amended.  When the database is open and the cache does not
    answer, [parse] returns a new object.  In the flat format the object
    has the sections [user_agent] and [ip_address], each the copy of its
    template when its input is not set, and the flag [from_cache], false.
    In the JSON format it has [userAgent] only when a user agent is set,
    [ipAddress] only when an address is set, and the flag [fromCache],
    false, only with the option [full]. *)
Theorem parse_sections H this opts :
  db this = true →
  (cacheEnable this = true →
   cacheKeyExist this (keyCache this) = false ∧ (0 ≤ cacheMaxRecords this)%Z) →
  ∃ this' l ret,
    parse H this opts = Returns this' (Obj l)
    ∧ heap this' !! l = Some ret
    ∧ let o := default {| json := false; full := false |} opts in
      if json o then
        (ret !! "userAgent" =
           if given (ua this) then Some (JO (json_ (parseUa H this (ua this) o)))
           else None)
        ∧ (ret !! "ipAddress" =
             if given (ip this) then Some (JO (json_ (parseIp H this (ip this) o)))
             else None)
        ∧ (ret !! "fromCache" = if full o then Some (JV (JBool false)) else None)
        ∧ dom ret ⊆ {["userAgent"; "ipAddress"; "fromCache"]}
      else
        ret !! "user_agent" = Some (JO (JV <$> udger (parseUa H this (ua this) o)))
        ∧ ret !! "ip_address" = Some (JO (JV <$> udger (parseIp H this (ip this) o)))
        ∧ ret !! "from_cache" = Some (JV (JBool false))
        ∧ dom ret = {["user_agent"; "ip_address"; "from_cache"]}
        ∧ (given (ua this) = false →
           udger (parseUa H this (ua this) o) = json_clone (retUa this))
        ∧ (given (ip this) = false →
           udger (parseIp H this (ip this) o) = json_clone (retIp this)).
Proof.
  intros Hdb Hcache. unfold parse, isCacheEnable. rewrite Hdb. cbn [negb].
  set (o := default _ opts).
  pose proof (parse_result_shape H this o) as Hshape. cbn zeta in Hshape.
  set (ret := parse_result H this o) in *.
  assert ((heap this ++ [ret]) !! length (heap this) = Some ret) as Hl.
  { rewrite lookup_app_r by lia. by rewrite Nat.sub_diag. }
  destruct (cacheEnable this) eqn:He.
  - destruct (Hcache eq_refl) as [Hk Hmax]. rewrite Hk. cbn [andb].
    set (this1 := with_heap (heap this ++ [ret]) this).
    change (cacheEnable this1) with (cacheEnable this). rewrite He.
    destruct (cacheWrite_returns this1 (keyCache this1) (length (heap this)))
      as (this2 & Hw & _); [done|].
    rewrite Hw. exists this2, (length (heap this)), ret. split; [done|].
    split; [|done].
    rewrite (cacheWrite_heap this1 (keyCache this1) (length (heap this)) this2);
      [done|by rewrite Hw].
  - cbn [andb]. change (cacheEnable (with_heap _ this)) with (cacheEnable this).
    rewrite He.
    by exists (with_heap (heap this ++ [ret]) this), (length (heap this)), ret.
Qed.


Lemma parse_sections_witness :
  db Demo.fresh = true
  ∧ (cacheEnable Demo.fresh = true →
     cacheKeyExist Demo.fresh (keyCache Demo.fresh) = false
     ∧ (0 ≤ cacheMaxRecords Demo.fresh)%Z)
  ∧ ∃ this' l ret,
      parse Sample.helpers Demo.fresh None = Returns this' (Obj l)
      ∧ heap this' !! l = Some ret
      ∧ ret !! "user_agent" = Some (JO ∅)
      ∧ ret !! "ip_address" = Some (JO ∅)
      ∧ ret !! "from_cache" = Some (JV (JBool false)).
Proof.
  split; [done|]. split; [done|].
  destruct (parse_sections Sample.helpers Demo.fresh None)
    as (this' & l & ret & Hp & Hl & Hua & Hip & Hflag & _); [done|done|].
  exists this', l, ret. split_and!; [done|done|..|done].
  - rewrite Hua. vm_compute. reflexivity.
  - rewrite Hip. vm_compute. reflexivity.
Defined.

(** C4 as stated fails in the JSON format: with a user agent and no
    address set, [parse({ json: true, full: true })] returns an object
    with the section [userAgent] and the flag, and without a section for
    the address; and with [{ json: true }] the object has no flag either. *)
Lemma parse_json_misses_sections :
  let this1 opts :=
    Demo.after (parse Sample.helpers Demo.unknown_ua (Some opts)) Demo.unknown_ua in
  Demo.returned (parse Sample.helpers Demo.unknown_ua (Some Demo.json_full))
  = Some (Obj 0)
  ∧ Demo.properties_at (this1 Demo.json_full) 0 = Some ["userAgent"; "fromCache"]
  ∧ Demo.returned (parse Sample.helpers Demo.unknown_ua (Some Demo.json_compact))
    = Some (Obj 0)
  ∧ Demo.properties_at (this1 Demo.json_compact) 0 = Some ["userAgent"].
Proof. split_and!; vm_compute; reflexivity. Qed.

(** ** The stages of [parseUa] *)

Import Fields.

(** A field that is not among those a stage assigns keeps its value. *)
Ltac frame Hk :=
  repeat (rewrite lookup_insert_ne;
          [|intros <-; apply Hk; repeat constructor]).

Section ua_stages.

Variable H : Helpers.
Variable this : Parser.
Implicit Types (v : UaVars) (k : string).

Lemma os_fields_frame r m k : k ∉ os_keys → os_fields r m !! k = m !! k.
Proof. intros Hk. unfold os_fields. cbv zeta. by frame Hk. Qed.

Lemma os_loop_frame opts ua rows k : ∀ v,
  k ∉ os_keys → rua (os_loop H this opts ua rows v) !! k = rua v !! k.
Proof.
  induction rows as [|row rows IH]; intros v Hk; cbn [os_loop]; [done|].
  destruct (ua_match H _ ua); [|by rewrite IH].
  cbn. by apply os_fields_frame.
Qed.

Lemma os_loop_client_id opts ua rows : ∀ v,
  client_id (os_loop H this opts ua rows v) = client_id v
  ∧ client_class_id (os_loop H this opts ua rows v) = client_class_id v
  ∧ deviceclass_id (os_loop H this opts ua rows v) = deviceclass_id v.
Proof.
  induction rows as [|row rows IH]; intros v; cbn [os_loop]; [done|].
  destruct (ua_match H _ ua); [done|].
  destruct (IH (with_r (RRow row) v)) as (-> & -> & ->). done.
Qed.

Lemma os_relation_stage_frame opts v k :
  k ∉ os_keys → rua (os_relation_stage this opts v) !! k = rua v !! k.
Proof.
  intros Hk. unfold os_relation_stage.
  destruct (os_relation_attempted v); [|done].
  destruct (findBy _ _); [|done]. cbn. by apply os_fields_frame.
Qed.

Lemma deviceclass_loop_frame opts ua rows k : ∀ v,
  k ∉ device_class_keys →
  rua (deviceclass_loop H this opts ua rows v) !! k = rua v !! k.
Proof.
  induction rows as [|row rows IH]; intros v Hk; cbn [deviceclass_loop]; [done|].
  destruct (ua_match H _ ua); [|by rewrite IH].
  cbn. by frame Hk.
Qed.

Lemma deviceclass_fallback_stage_frame opts v k :
  k ∉ device_class_keys →
  rua (deviceclass_fallback_stage this opts v) !! k = rua v !! k.
Proof.
  intros Hk. unfold deviceclass_fallback_stage.
  destruct (deviceclass_fallback_attempted v); [|done].
  destruct (findBy _ _); [|done]. cbn. by frame Hk.
Qed.

Lemma devicename_stage_frame ua v k :
  k ∉ device_name_keys → rua (devicename_stage H this ua v) !! k = rua v !! k.
Proof.
  intros Hk. unfold devicename_stage.
  destruct (Js.truthy _); [|done].
  destruct (devicename_loop H this ua _) as [match_ rId].
  destruct (findBy _ _); [|done]. cbn. by frame Hk.
Qed.

Lemma later_stages_frame opts ua v k :
  k ∉ os_keys ++ device_class_keys ++ device_name_keys →
  rua (later_stages H this opts ua v) !! k = rua v !! k.
Proof.
  rewrite !not_elem_of_app. intros (Hos & Hdc & Hdn). unfold later_stages.
  cbv zeta. rewrite devicename_stage_frame, deviceclass_fallback_stage_frame by done.
  unfold deviceclass_stage. rewrite deviceclass_loop_frame by done.
  rewrite os_relation_stage_frame by done.
  unfold os_stage. by rewrite os_loop_frame.
Qed.

Lemma no_crawler_row ua :
  (∀ row, row ∈ Table.data (udger_crawler_list (data this)) →
          ¬ is_crawler_row this ua row) →
  findBy (udger_crawler_list (data this))
    (λ row cols, Js.strict_eq (cell (RRow row) (cols !! "ua_string")) (JStr ua))
  = None.
Proof.
  unfold findBy, is_crawler_row, Js.strict_eq.
  induction (Table.data (udger_crawler_list (data this))) as [|row rows IH];
    intros Hno; cbn [List.find]; [done|].
  rewrite bool_decide_false by (apply Hno; left).
  apply IH. intros r Hr. apply Hno. by right.
Qed.

Lemma some_crawler_row ua row :
  row ∈ Table.data (udger_crawler_list (data this)) →
  is_crawler_row this ua row →
  ∃ q, findBy (udger_crawler_list (data this))
         (λ row cols, Js.strict_eq (cell (RRow row) (cols !! "ua_string")) (JStr ua))
       = Some q.
Proof.
  unfold findBy, is_crawler_row, Js.strict_eq.
  induction (Table.data (udger_crawler_list (data this))) as [|r rows IH];
    intros Hin Hrow; [by apply elem_of_nil in Hin|].
  cbn [List.find]. case_bool_decide as Hr; [by eexists|].
  apply IH; [|done]. apply elem_of_cons in Hin as [->|]; done.
Qed.

(** The client loop stops at the first row whose pattern matches. *)
Lemma client_loop_first_match opts ua pre row post e : ∀ v,
  (∀ r, r ∈ pre → client_pattern_match H this ua r = None) →
  client_pattern_match H this ua row = Some e →
  client_loop H this opts ua (pre ++ row :: post) v = client_found this opts row e v.
Proof.
  unfold client_pattern_match.
  induction pre as [|r0 pre IH]; intros v Hpre Hrow; cbn [app client_loop].
  - by rewrite Hrow.
  - rewrite (Hpre r0) by left. rewrite IH; [done| |done].
    intros r Hr. apply Hpre. by right.
Qed.

Lemma client_fields_version opts r e v :
  let m := rua (client_fields opts r e v) in
  m !! "ua_version" = Some (if Js.truthy (group1 e) then group1 e else JStr "")
  ∧ m !! "ua_version_major" =
      Some (if Js.truthy (group1 e)
            then JStr (default "" (head (Js.split "." (Js.to_str (group1 e)))))
            else JStr "").
Proof.
  unfold client_fields. cbv zeta. cbn [rua].
  destruct (Js.truthy (group1 e)); split; by simplify_map_eq.
Qed.

Lemma crawler_fields_class opts r v :
  let m := rua (crawler_fields opts r v) in
  m !! "ua_class" = Some (JStr "Crawler")
  ∧ m !! "ua_class_code" = Some (JStr "crawler").
Proof. unfold crawler_fields. cbv zeta. cbn [rua]. split; by simplify_map_eq. Qed.

Lemma parseUa_stages ua opts :
  ua ≠ "" →
  parseUa H this (Some ua) opts =
    {| udger := rua (ua_stages H this opts ua);
       json_ := ruaJson (ua_stages H this opts ua) |}.
Proof. by destruct ua. Qed.

End ua_stages.

Lemma split_head_before_dot s :
  before_first_dot s (default "" (head (Js.split "." s))).
Proof.
  unfold before_first_dot. induction s as [|c s IH]; cbn [Js.split].
  - split; [apply not_elem_of_nil|by left].
  - destruct (Ascii.eqb_spec c ".") as [->|Hc]; cbn.
    + split; [apply not_elem_of_nil|]. right. by exists s.
    + destruct IH as [Hno Hs].
      destruct (Js.split "." s) as [|w ws]; cbn in *.
      * split; [rewrite not_elem_of_cons; split; [congruence|apply not_elem_of_nil]|].
        destruct Hs as [->|[t ->]]; [by left|right; by exists t].
      * split; [rewrite not_elem_of_cons; split; [congruence|done]|].
        destruct Hs as [->|[t ->]]; [by left|right; by exists t].
Qed.

(** A field is not among those the later stages assign. *)
Ltac not_a_key := refine (bool_decide_unpack _ _); vm_compute; exact I.

Lemma os_relation_stage_skipped this opts v :
  client_id v = JNum 0 → os_relation_stage this opts v = v.
Proof.
  intros Hc. unfold os_relation_stage, os_relation_attempted. rewrite Hc.
  cbn. by rewrite andb_false_r.
Qed.

(** With no client found, what follows the client stage reads none of
    the tables of the clients. *)
Lemma later_stages_without_client H this regex clients relation opts ua v :
  client_id v = JNum 0 →
  later_stages H
    (with_data (with_client_tables regex clients relation (data this)) this)
    opts ua v
  = later_stages H this opts ua v.
Proof.
  intros Hc. unfold later_stages. cbv zeta.
  set (this' := with_data _ this).
  change (os_stage H this' opts ua v) with (os_stage H this opts ua v).
  set (v1 := os_stage H this opts ua v).
  assert (client_id v1 = JNum 0) as Hc1.
  { unfold v1, os_stage. by rewrite (proj1 (os_loop_client_id H this opts ua _ v)). }
  rewrite !os_relation_stage_skipped by done. reflexivity.
Qed.

(** C1, as amended.  A user agent string that is not empty and is the
    [ua_string] of a row of [udger_crawler_list] is classified "Crawler" /
    "crawler"; the result is the same whatever the tables of the client
    patterns, of the clients and of the client/OS relation hold, that is,
    the client stage and the client/OS relation stage take no part in
    it.  (The OS stage, the two device class stages and the device
    marketname stage run as for any other string.) *)
Theorem crawler_classification H this ua opts row :
  ua ≠ "" →
  row ∈ Table.data (udger_crawler_list (data this)) →
  is_crawler_row this ua row →
  udger (parseUa H this (Some ua) opts) !! "ua_class" = Some (JStr "Crawler")
  ∧ udger (parseUa H this (Some ua) opts) !! "ua_class_code" = Some (JStr "crawler")
  ∧ ∀ regex clients relation,
      parseUa H
        (with_data (with_client_tables regex clients relation (data this)) this)
        (Some ua) opts
      = parseUa H this (Some ua) opts.
Proof.
  intros Hua Hin Hrow.
  destruct (some_crawler_row this ua row Hin Hrow) as [q Hq].
  assert (crawler_or_client H this opts ua (ua_start this opts ua)
          = crawler_found this opts q (ua_start this opts ua)) as Hstage.
  { unfold crawler_or_client. by rewrite Hq. }
  split_and!.
  - rewrite parseUa_stages by done. cbn [udger]. unfold ua_stages. cbv zeta.
    rewrite later_stages_frame by not_a_key. rewrite Hstage.
    apply crawler_fields_class.
  - rewrite parseUa_stages by done. cbn [udger]. unfold ua_stages. cbv zeta.
    rewrite later_stages_frame by not_a_key. rewrite Hstage.
    apply crawler_fields_class.
  - intros regex clients relation. rewrite !parseUa_stages by done.
    unfold ua_stages. cbv zeta.
    set (this' := with_data _ this).
    assert (crawler_or_client H this' opts ua (ua_start this' opts ua)
            = crawler_found this opts q (ua_start this opts ua)) as Hstage'.
    { unfold crawler_or_client.
      change (udger_crawler_list (data this')) with (udger_crawler_list (data this)).
      by rewrite Hq. }
    rewrite Hstage, Hstage'.
    unfold this'. by rewrite later_stages_without_client.
Qed.

(** C8.  For a user agent string that is not empty and is the [ua_string]
    of no crawler, let [row] be the first row of [udger_client_regex], in
    the order of the table, whose pattern matches, and [e] the match.
    When the first group of [e] is a string that is not empty,
    [ua_version] is that string and [ua_version_major] is what precedes
    its first dot; when the group is missing or empty, both are the empty
    string. *)
Theorem client_version H this ua opts pre row post e :
  ua ≠ "" →
  (∀ r, r ∈ Table.data (udger_crawler_list (data this)) →
        ¬ is_crawler_row this ua r) →
  Table.data (udger_client_regex (data this)) = pre ++ row :: post →
  (∀ r, r ∈ pre → client_pattern_match H this ua r = None) →
  client_pattern_match H this ua row = Some e →
  let res := udger (parseUa H this (Some ua) opts) in
  match e !! 1 with
  | Some (Some s) =>
      if decide (s = "") then
        res !! "ua_version" = Some (JStr "")
        ∧ res !! "ua_version_major" = Some (JStr "")
      else
        res !! "ua_version" = Some (JStr s)
        ∧ ∃ m, res !! "ua_version_major" = Some (JStr m) ∧ before_first_dot s m
  | _ =>
      res !! "ua_version" = Some (JStr "")
      ∧ res !! "ua_version_major" = Some (JStr "")
  end.
Proof.
  intros Hua Hno Hdata Hpre Hrow res. subst res.
  rewrite parseUa_stages by done. cbn [udger]. unfold ua_stages. cbv zeta.
  rewrite !later_stages_frame by not_a_key.
  unfold crawler_or_client. rewrite no_crawler_row by done. rewrite Hdata.
  rewrite (client_loop_first_match H this opts ua pre row post e) by done.
  unfold client_found.
  destruct (client_fields_version opts (client_join this row) e
              (ua_start this opts ua)) as [-> ->].
  unfold group1. destruct (e !! 1) as [[s|]|]; [|done|done].
  destruct (decide (s = "")) as [->|Hs]; [done|].
  assert (Js.truthy (JStr s) = true) as ->.
  { cbn. by destruct s. }
  split; [done|]. eexists. split; [done|]. apply split_head_before_dot.
Qed.

Lemma crawler_classification_witness :
  Demo.googlebot_mobile ≠ ""
  ∧ Demo.googlebot_mobile_row ∈ Table.data (udger_crawler_list (data Demo.ready))
  ∧ is_crawler_row Demo.ready Demo.googlebot_mobile Demo.googlebot_mobile_row
  ∧ udger (parseUa Sample.helpers Demo.ready (Some Demo.googlebot_mobile) Demo.classic)
      !! "ua_class" = Some (JStr "Crawler").
Proof.
  assert (Demo.googlebot_mobile ≠ "") as Hua by done.
  assert (Demo.googlebot_mobile_row ∈ Table.data (udger_crawler_list (data Demo.ready)))
    as Hin by (right; left).
  assert (is_crawler_row Demo.ready Demo.googlebot_mobile Demo.googlebot_mobile_row)
    as Hrow by reflexivity.
  split_and!; [done|done|done|].
  exact (proj1 (crawler_classification Sample.helpers Demo.ready Demo.googlebot_mobile
                  Demo.classic Demo.googlebot_mobile_row Hua Hin Hrow)).
Defined.

(** C1 as stated fails: the string of the row [googlebot_mobile_row] is
    classified as a crawler, the row holds nothing about an OS or a
    device, and yet the result has the OS that the first matching row of
    [udger_os_regex] refers to and the device class that the client class
    with the id 99 refers to. *)
Lemma crawler_gets_os_and_device_fields :
  let res :=
    udger (parseUa Sample.helpers Demo.ready (Some Demo.googlebot_mobile) Demo.classic) in
  is_crawler_row Demo.ready Demo.googlebot_mobile Demo.googlebot_mobile_row
  ∧ res !! "ua_class" = Some (JStr "Crawler")
  ∧ retUa Demo.ready !! "os" = Some (JStr "")
  ∧ res !! "os" = Some (JStr "Android")
  ∧ res !! "os_family_code" = Some (JStr "android")
  ∧ retUa Demo.ready !! "device_class" = Some (JStr "")
  ∧ res !! "device_class" = Some (JStr "Unrecognized").
Proof. split_and!; vm_compute; reflexivity. Qed.

Lemma client_version_witness :
  let res :=
    udger (parseUa Sample.helpers Demo.ready (Some Demo.iemobile_ua) Demo.classic) in
  Demo.iemobile_ua ≠ ""
  ∧ client_pattern_match Sample.helpers Demo.ready Demo.iemobile_ua Demo.iemobile_pattern
    = Some [Some "IEMobile/11.0"; Some "11.0"]
  ∧ res !! "ua_version" = Some (JStr "11.0")
  ∧ ∃ m, res !! "ua_version_major" = Some (JStr m) ∧ before_first_dot "11.0" m.
Proof.
  intros res.
  assert (Demo.iemobile_ua ≠ "") as Hua by done.
  assert (∀ r, r ∈ Table.data (udger_crawler_list (data Demo.ready)) →
               ¬ is_crawler_row Demo.ready Demo.iemobile_ua r) as Hno.
  { intros r Hr Hrow.
    apply elem_of_cons in Hr as [->|Hr]; [by vm_compute in Hrow|].
    apply elem_of_cons in Hr as [->|Hr]; [by vm_compute in Hrow|].
    by apply elem_of_nil in Hr. }
  assert (∀ r, r ∈ [Demo.firefox_pattern] →
               client_pattern_match Sample.helpers Demo.ready Demo.iemobile_ua r = None)
    as Hpre.
  { intros r Hr. apply elem_of_cons in Hr as [->|Hr]; [by vm_compute|].
    by apply elem_of_nil in Hr. }
  assert (client_pattern_match Sample.helpers Demo.ready Demo.iemobile_ua
            Demo.iemobile_pattern = Some [Some "IEMobile/11.0"; Some "11.0"]) as Hrow
    by (by vm_compute).
  split_and!; [done|done|..];
    apply (client_version Sample.helpers Demo.ready Demo.iemobile_ua Demo.classic
             [Demo.firefox_pattern] Demo.iemobile_pattern [Demo.curl_pattern]
             [Some "IEMobile/11.0"; Some "11.0"] Hua Hno eq_refl Hpre Hrow).
Defined.

(** C5: the code at the failing input.  The string [iemobile_ua] matches
    no row of [udger_os_regex] and matches the pattern of the client with
    the id 7, so that the client/OS relation stage is attempted; the
    relation has the row (7, 2) for that client and the row at position 2
    of [udger_os_list] is Windows Phone; and yet the OS fields of the
    result are left as the template has them. *)
Lemma os_relation_not_applied :
  let v :=
    os_stage Sample.helpers Demo.ready Demo.classic Demo.iemobile_ua
      (crawler_or_client Sample.helpers Demo.ready Demo.classic Demo.iemobile_ua
         (ua_start Demo.ready Demo.classic Demo.iemobile_ua)) in
  let res :=
    udger (parseUa Sample.helpers Demo.ready (Some Demo.iemobile_ua) Demo.classic) in
  client_id v = JNum 7
  ∧ os_id v = JNum 0
  ∧ os_relation_attempted v = true
  ∧ Table.data (udger_client_os_relation (data Demo.ready)) = [[JNum 7; JNum 2]]
  ∧ cell (row_at (udger_os_list (data Demo.ready)) (JNum 2))
      (Table.columns (udger_os_list (data Demo.ready)) !! "name")
    = JStr "Windows Phone"
  ∧ res !! "ua_family_code" = Some (JStr "ie_mobile")
  ∧ res !! "os" = Some (JStr "")
  ∧ res !! "os_family_code" = Some (JStr "")
  ∧ res !! "os_info_url" = Some (JStr "").
Proof. split_and!; vm_compute; reflexivity. Qed.

(** ** Joins *)

(** When the foreign key [v] refers to no row of the table [t], [map]
    returns the empty record and merging it into the record [r] leaves
    [r] as it was. *)
Lemma dangling_foreign_key_helper t v keys rename (r : gmap string jsval) :
  row_at t v = RUndef →
  spread r (map t (row_at t v) keys rename) = r.
Proof. intros ->. unfold spread. cbn [map]. apply (left_id_L ∅ (∪)). Qed.

(** C9 as stated fails: the string [haiku_ua] matches the pattern
    [haiku_pattern], whose foreign key refers to no row of [udger_os_list];
    the fields that depend on the join are empty but for [os_info_url],
    which holds the address its value is appended to. *)
Lemma dangling_os_info_url :
  let res :=
    udger (parseUa Sample.helpers Demo.ready (Some Demo.haiku_ua) Demo.classic) in
  os_pattern_match Sample.helpers Demo.ready Demo.haiku_ua Demo.haiku_pattern
  = Some [Some "Haiku"]
  ∧ row_at (udger_os_list (data Demo.ready)) (JNum 5) = RUndef
  ∧ res !! "os" = Some (JStr "")
  ∧ res !! "os_code" = Some (JStr "")
  ∧ res !! "os_info_url"
    = Some (JStr "https://udger.com/resources/ua-list/os-detail?os=").
Proof. split_and!; vm_compute; reflexivity. Qed.

(** The record that [map] returns has the keys asked for, renamed, and no
    other. *)
Lemma map_lookup_other t row keys rename k :
  k ∉ keys → k ∉ rename.*2 → map t row keys rename !! k = None.
Proof.
  intros Hkeys Hren. unfold map.
  assert (∀ acc : gmap string jsval, acc !! k = None →
            foldl (λ acc key, <[key := cell row (Table.columns t !! key)]> acc) acc keys
            !! k = None) as Hfold.
  { revert Hkeys. clear. induction keys as [|key keys IH]; intros Hk acc Hacc; [done|].
    apply not_elem_of_cons in Hk as [Hne Hk]. cbn [foldl]. apply IH; [done|].
    by rewrite lookup_insert_ne. }
  assert (∀ ret : gmap string jsval, ret !! k = None →
            foldl (λ ret '(k1, k2), delete k1 (<[k2 := get ret k1]> ret)) ret rename
            !! k = None) as Hrename.
  { revert Hren. clear. induction rename as [|[k1 k2] rename IH]; intros Hk ret Hret;
      [done|].
    cbn in Hk. apply not_elem_of_cons in Hk as [Hne Hk]. cbn [foldl]. apply IH; [done|].
    destruct (decide (k1 = k)) as [->|Hk1]; [apply lookup_delete_eq|].
    rewrite lookup_delete_ne by done. by rewrite lookup_insert_ne. }
  destruct row; [apply lookup_empty|..]; by apply Hrename, Hfold.
Qed.

(** An instance in [parseUa]: the class of a crawler.  When the row of the
    crawler refers to no row of [udger_crawler_class], the two fields of
    the result that come from the class are empty strings. *)
Lemma crawler_class_dangling H this ua opts q :
  ua ≠ "" →
  findBy (udger_crawler_list (data this))
    (λ row cols, Js.strict_eq (cell (RRow row) (cols !! "ua_string")) (JStr ua))
  = Some q →
  row_at (udger_crawler_class (data this))
    (cell (RRow q) (Table.columns (udger_crawler_list (data this)) !! "class_id"))
  = RUndef →
  udger (parseUa H this (Some ua) opts) !! "crawler_category" = Some (JStr "")
  ∧ udger (parseUa H this (Some ua) opts) !! "crawler_category_code" = Some (JStr "").
Proof.
  intros Hua Hq Hrow.
  rewrite parseUa_stages by done. cbn [udger]. unfold ua_stages. cbv zeta.
  rewrite !later_stages_frame by not_a_key.
  unfold crawler_or_client. rewrite Hq. unfold crawler_found.
  set (r0 := map (udger_crawler_list (data this)) (RRow q)
               ["id"; "name"; "ver"; "ver_major"; "last_seen"; "respect_robotstxt";
                "family"; "family_code"; "family_homepage"; "family_icon";
                "vendor"; "vendor_code"; "vendor_homepage"; "class_id"]
               [("id", "botid")]).
  assert (get r0 "class_id"
          = cell (RRow q) (Table.columns (udger_crawler_list (data this)) !! "class_id"))
    as Hclass.
  { unfold r0, map, get. cbn [foldl]. by simplify_map_eq. }
  assert (crawler_join this q = r0) as ->.
  { unfold crawler_join. cbv zeta. fold r0. rewrite Hclass.
    by apply (dangling_foreign_key_helper _ _ _ _ r0). }
  assert (∀ k, k ∈ ["crawler_classification"; "crawler_classification_code"] →
               get_or_empty r0 k = JStr "") as Hempty.
  { intros k Hk.
    repeat (apply elem_of_cons in Hk as [->|Hk]); [..|by apply elem_of_nil in Hk];
      (unfold get_or_empty, get, r0; by rewrite map_lookup_other by not_a_key). }
  unfold crawler_fields. cbv zeta. cbn [rua].
  split; simplify_map_eq; f_equal; apply Hempty; not_a_key.
Qed.

(** ** The stages of [parseIp] *)

(** A run of assignments leaves the other fields as they are, and
    commutes with an assignment to another field. *)
Lemma assign_lookup_ne l : ∀ (m : gmap string jsval) k,
  k ∉ l.*1 → assign l m !! k = m !! k.
Proof.
  unfold assign. induction l as [|[k' v] l IH]; intros m k Hk; cbn [foldl]; [done|].
  cbn in Hk. apply not_elem_of_cons in Hk as [Hne Hk].
  rewrite IH by done. cbn. by rewrite lookup_insert_ne.
Qed.

Lemma assign_insert_ne l : ∀ (m : gmap string jsval) k x,
  k ∉ l.*1 → assign l (<[k := x]> m) = <[k := x]> (assign l m).
Proof.
  unfold assign. induction l as [|[k' v] l IH]; intros m k x Hk; cbn [foldl]; [done|].
  cbn in Hk. apply not_elem_of_cons in Hk as [Hne Hk].
  cbn [fst snd]. rewrite <-IH by done. f_equal. by apply insert_insert_ne.
Qed.

Lemma get_insert_ne (m : gmap string jsval) k k' x :
  k' ≠ k → get (<[k' := x]> m) k = get m k.
Proof. intros Hk. unfold get. by rewrite lookup_insert_ne. Qed.

Lemma field_insert_ne (m : gmap string jsval) f path k x :
  k ≠ f → field (<[k := x]> m) f path = field m f path.
Proof. intros Hk. unfold field. by rewrite get_insert_ne. Qed.

Lemma set_path_insert_ne path value (j : gmap string jvalue) k x :
  head path ≠ Some k →
  dotProp.set_path path value (<[k := x]> j) = <[k := x]> (dotProp.set_path path value j).
Proof.
  destruct path as [|p [|p' rest]]; intros Hk; cbn [dotProp.set_path]; [done|..].
  - apply insert_insert_ne. intros ->. by apply Hk.
  - assert (p ≠ k) as Hp by (intros ->; by apply Hk).
    rewrite lookup_insert_ne by done. by apply insert_insert_ne.
Qed.

Lemma set_path_lookup_ne path value (j : gmap string jvalue) k :
  head path ≠ Some k → dotProp.set_path path value j !! k = j !! k.
Proof.
  destruct path as [|p [|p' rest]]; intros Hk; cbn [dotProp.set_path]; [done|..];
    (rewrite lookup_insert_ne; [done|intros ->; by apply Hk]).
Qed.

Lemma set_when_insert_ne c path value (j : gmap string jvalue) k x :
  top path ≠ Some k →
  set_when c path value (<[k := x]> j) = <[k := x]> (set_when c path value j).
Proof.
  intros Hk. unfold set_when. destruct c; [|done]. by apply set_path_insert_ne.
Qed.

Lemma set_when_lookup_ne c path value (j : gmap string jvalue) k :
  top path ≠ Some k → set_when c path value j !! k = j !! k.
Proof.
  intros Hk. unfold set_when. destruct c; [|done]. by apply set_path_lookup_ne.
Qed.

(** A run of statements on paths that do not start with [k] leaves the
    property [k] as it is, and commutes with an assignment to it. *)
Lemma json_sets_insert_ne l k : ∀ (j : gmap string jvalue) x,
  Forall (λ s, top s.2.1 ≠ Some k) l →
  json_sets l (<[k := x]> j) = <[k := x]> (json_sets l j).
Proof.
  unfold json_sets. induction l as [|s l IH]; intros j x Hl; cbn [foldl]; [done|].
  apply Forall_cons in Hl as [Hs Hl].
  rewrite set_when_insert_ne by done. by apply IH.
Qed.

Lemma json_sets_lookup_ne l k : ∀ (j : gmap string jvalue),
  Forall (λ s, top s.2.1 ≠ Some k) l → json_sets l j !! k = j !! k.
Proof.
  unfold json_sets. induction l as [|s l IH]; intros j Hl; cbn [foldl]; [done|].
  apply Forall_cons in Hl as [Hs Hl].
  rewrite IH by done. by apply set_when_lookup_ne.
Qed.

Section ip_stages.

Variable H : Helpers.
Variable this : Parser.
Implicit Types (r rip : gmap string jsval) (j : gmap string jvalue).

(** The branches of [parseIp] as runs of assignments and statements. *)
Lemma ip_fields_runs opts r rip j :
  ip_fields opts r rip j
  = (assign (ip_found_assignments r) rip,
     json_sets (ip_found_sets opts r (assign (ip_found_assignments r) rip)) j).
Proof.
  unfold ip_fields, ip_found_assignments, ip_found_sets.
  destruct (Js.strict_eq _ _), (full opts); reflexivity.
Qed.

Lemma ip_not_found_runs opts rip j :
  ip_not_found opts rip j
  = (assign ip_not_found_assignments rip,
     json_sets (ip_not_found_sets opts (assign ip_not_found_assignments rip)) j).
Proof. unfold ip_not_found, ip_not_found_sets. destruct (full opts); reflexivity. Qed.

Lemma datacenter_fields_runs opts r rip j :
  datacenter_fields opts r rip j
  = (assign (datacenter_assignments r) rip,
     json_sets (datacenter_sets opts (assign (datacenter_assignments r) rip)) j).
Proof. unfold datacenter_fields, datacenter_sets. destruct (full opts); reflexivity. Qed.

End ip_stages.

(** Side conditions on concrete names and paths. *)
Ltac other_keys :=
  refine (bool_decide_unpack _ _); vm_compute; exact I.

Ltac other_paths :=
  cbn [app]; repeat (constructor; [by vm_compute|]); constructor.

Section ip_results.

Variable H : Helpers.
Variable this : Parser.
Implicit Types (r rip : gmap string jsval) (j : gmap string jvalue) (k : string).

Lemma ip_found_assignments_keys r k :
  k ∉ ip_found_keys → k ∉ (ip_found_assignments r).*1.
Proof.
  intros Hk Hin. apply Hk. clear Hk. revert k Hin.
  change (∀ k, k ∈ (ip_found_assignments r).*1 → k ∈ ip_found_keys)
    with ((ip_found_assignments r).*1 ⊆ ip_found_keys).
  unfold ip_found_assignments. destruct (Js.strict_eq _ _); other_keys.
Qed.

Lemma ip_found_sets_paths opts r rip k :
  k ∉ ["classification"; "lastSeen"; "hostname"; "geo"; "crawler"] →
  Forall (λ s, top s.2.1 ≠ Some k) (ip_found_sets opts r rip).
Proof.
  intros Hk. unfold ip_found_sets.
  assert (∀ p, top p ∈ Some <$> ["classification"; "lastSeen"; "hostname"; "geo"; "crawler"] →
               top p ≠ Some k) as Hp.
  { intros p (x & -> & Hx)%list_elem_of_fmap [= ->]. by apply Hk. }
  destruct (Js.strict_eq _ _), (full opts); cbn [app];
    repeat (constructor; [apply Hp; other_keys|]); constructor.
Qed.

Lemma ip_found_sets_insert_ne opts r rip k x :
  k ∉ ip_found_keys →
  ip_found_sets opts r (<[k := x]> rip) = ip_found_sets opts r rip.
Proof.
  intros Hk. unfold ip_found_sets.
  assert (∀ f path, f ∈ ip_found_keys →
                    field (<[k := x]> rip) f path = field rip f path) as Hf.
  { intros f path Hin. apply field_insert_ne. intros ->. by apply Hk. }
  assert (∀ f, f ∈ ip_found_keys → get (<[k := x]> rip) f = get rip f) as Hg.
  { intros f Hin. apply get_insert_ne. intros ->. by apply Hk. }
  rewrite !Hf, !Hg by other_keys. done.
Qed.

(** The lookup stage with the field [ip] written is the lookup stage,
    then the field written. *)
Lemma ip_lookup_stage_ip opts ip rip j x y :
  ip_lookup_stage this opts ip (<["ip" := x]> rip) (<["ip" := y]> j)
  = (<["ip" := x]> (ip_lookup_stage this opts ip rip j).1,
     <["ip" := y]> (ip_lookup_stage this opts ip rip j).2).
Proof.
  unfold ip_lookup_stage. destruct (findBy _ _) as [q|].
  - unfold ip_found. rewrite !ip_fields_runs. cbn [fst snd].
    rewrite assign_insert_ne by (apply ip_found_assignments_keys; other_keys).
    rewrite ip_found_sets_insert_ne by other_keys.
    by rewrite json_sets_insert_ne by (apply ip_found_sets_paths; other_keys).
  - rewrite !ip_not_found_runs. cbn [fst snd].
    rewrite assign_insert_ne by other_keys.
    unfold ip_not_found_sets. rewrite !get_insert_ne by done.
    by rewrite json_sets_insert_ne by (destruct (full opts); other_paths).
Qed.

Lemma datacenter_found_ip opts range q rip j x y :
  datacenter_found this opts range q (<["ip" := x]> rip) (<["ip" := y]> j)
  = (<["ip" := x]> (datacenter_found this opts range q rip j).1,
     <["ip" := y]> (datacenter_found this opts range q rip j).2).
Proof.
  unfold datacenter_found. rewrite !datacenter_fields_runs. cbn [fst snd].
  rewrite assign_insert_ne by other_keys.
  unfold datacenter_sets. rewrite !field_insert_ne by done.
  by rewrite json_sets_insert_ne by (destruct (full opts); other_paths).
Qed.

Lemma datacenter_stage_ip opts ipver ip rip j x y :
  datacenter_stage H this opts ipver ip (<["ip" := x]> rip) (<["ip" := y]> j)
  = (<["ip" := x]> (datacenter_stage H this opts ipver ip rip j).1,
     <["ip" := y]> (datacenter_stage H this opts ipver ip rip j).2).
Proof.
  unfold datacenter_stage.
  destruct (Js.strict_eq ipver (JNum 4)).
  { destruct (findBy _ _); [apply datacenter_found_ip|done]. }
  destruct (Js.strict_eq ipver (JNum 6)); [|done].
  destruct (findBy _ _); [apply datacenter_found_ip|done].
Qed.

Lemma ip_stages_ip opts ipver ip rip j x y :
  ip_stages H this opts ipver ip (<["ip" := x]> rip) (<["ip" := y]> j)
  = (<["ip" := x]> (ip_stages H this opts ipver ip rip j).1,
     <["ip" := y]> (ip_stages H this opts ipver ip rip j).2).
Proof.
  unfold ip_stages. rewrite ip_lookup_stage_ip.
  destruct (ip_lookup_stage this opts ip rip j) as [rip1 j1]. cbn [fst snd].
  apply datacenter_stage_ip.
Qed.

(** What [parseIp] returns for a string that is not empty: the stages run
    on the version and on the canonical text, and the string itself in
    the field [ip]. *)
Lemma parseIp_core ip opts :
  ip ≠ "" →
  parseIp H this (Some ip) opts
  = {| udger := <["ip" := JStr ip]>
                  (ip_core H this opts (getIpVersion H ip) (canonical H ip)).1;
       json_ := <["ip" := JV (JStr ip)]>
                  (ip_core H this opts (getIpVersion H ip) (canonical H ip)).2 |}.
Proof.
  intros Hip. destruct ip as [|c ip]; [done|]. unfold parseIp, ip_core.
  set (s := String c ip). fold (canonical H s). cbv zeta.
  rewrite (insert_insert_ne _ "ip_ver" "ip") by done.
  assert ((if full opts
           then dotProp.set (dotProp.set ∅ "ip" (JStr s)) "version" (getIpVersion H s)
           else dotProp.set ∅ "ip" (JStr s))
          = <["ip" := JV (JStr s)]>
              (if full opts then dotProp.set ∅ "version" (getIpVersion H s) else ∅))
    as ->.
  { destruct (full opts); [|done].
    change (dotProp.set ∅ "ip" (JStr s)) with (<["ip" := JV (JStr s)]> (∅ : gmap string jvalue)).
    unfold dotProp.set. by rewrite set_path_insert_ne by (by vm_compute). }
  rewrite ip_stages_ip. by destruct (ip_stages _ _ _ _ _ _ _).
Qed.

End ip_results.

(** C2, as amended.  For two strings that [getIpVersion] takes for IPv6
    addresses and that denote the same address (the same packed form),
    the results of [parseIp] are the same in every field but [ip], which
    holds the string as it was given, in both formats. *)
Theorem parseIp_same_address H this ip1 ip2 opts :
  ip1 ≠ "" → ip2 ≠ "" →
  getIpVersion H ip1 = JNum 6 →
  getIpVersion H ip2 = JNum 6 →
  inetPton H ip1 = inetPton H ip2 →
  udger (parseIp H this (Some ip2) opts)
  = <["ip" := JStr ip2]> (udger (parseIp H this (Some ip1) opts))
  ∧ json_ (parseIp H this (Some ip2) opts)
    = <["ip" := JV (JStr ip2)]> (json_ (parseIp H this (Some ip1) opts))
  ∧ udger (parseIp H this (Some ip1) opts) !! "ip" = Some (JStr ip1)
  ∧ udger (parseIp H this (Some ip2) opts) !! "ip" = Some (JStr ip2).
Proof.
  intros H1 H2 Hv1 Hv2 Haddr. rewrite !parseIp_core by done. cbn [udger json_].
  assert (canonical H ip2 = canonical H ip1) as ->.
  { unfold canonical. by rewrite Hv1, Hv2, Haddr. }
  rewrite Hv1, Hv2, !insert_insert_eq, !lookup_insert_eq. done.
Qed.

Lemma parseIp_same_address_witness :
  "2001:db8::1" ≠ "" ∧ "2001:0db8:0:0:0:0:0:1" ≠ ""
  ∧ Sample.getIpVersion "2001:db8::1" = JNum 6
  ∧ Sample.getIpVersion "2001:0db8:0:0:0:0:0:1" = JNum 6
  ∧ Sample.inetPton "2001:db8::1" = Sample.inetPton "2001:0db8:0:0:0:0:0:1"
  ∧ udger (parseIp Sample.helpers Demo.ready (Some "2001:0db8:0:0:0:0:0:1") Demo.classic)
    = <["ip" := JStr "2001:0db8:0:0:0:0:0:1"]>
        (udger (parseIp Sample.helpers Demo.ready (Some "2001:db8::1") Demo.classic)).
Proof.
  assert (Sample.getIpVersion "2001:db8::1" = JNum 6) as Hv1 by (by vm_compute).
  assert (Sample.getIpVersion "2001:0db8:0:0:0:0:0:1" = JNum 6) as Hv2 by (by vm_compute).
  assert (Sample.inetPton "2001:db8::1" = Sample.inetPton "2001:0db8:0:0:0:0:0:1")
    as Haddr by (by vm_compute).
  split_and!; [done|done|done|done|done|].
  apply (parseIp_same_address Sample.helpers Demo.ready "2001:db8::1"
           "2001:0db8:0:0:0:0:0:1" Demo.classic); done.
Defined.

(** C2 as stated fails: an address in its compressed and in an expanded
    form, both found in [udger_ip_list] under the compressed form, and two
    results that differ in the field [ip]. *)
Lemma parseIp_echoes_the_given_text :
  let res ip := udger (parseIp Sample.helpers Demo.ready (Some ip) Demo.classic) in
  Sample.getIpVersion "2001:db8::1" = JNum 6
  ∧ Sample.getIpVersion "2001:0db8:0:0:0:0:0:1" = JNum 6
  ∧ Sample.inetNtop (Sample.inetPton "2001:0db8:0:0:0:0:0:1") = "2001:db8::1"
  ∧ Sample.inetNtop (Sample.inetPton "2001:db8::1") = "2001:db8::1"
  ∧ res "2001:db8::1" !! "ip_hostname" = Some (JStr "host.example.org")
  ∧ res "2001:0db8:0:0:0:0:0:1" !! "ip_hostname" = Some (JStr "host.example.org")
  ∧ res "2001:db8::1" !! "ip" = Some (JStr "2001:db8::1")
  ∧ res "2001:0db8:0:0:0:0:0:1" !! "ip" = Some (JStr "2001:0db8:0:0:0:0:0:1").
Proof. split_and!; vm_compute; reflexivity. Qed.

Section not_an_address.

Variable H : Helpers.
Variable this : Parser.

Lemma ip_lookup_stage_frame opts ip rip j k :
  k ∉ ip_found_keys →
  (ip_lookup_stage this opts ip rip j).1 !! k = rip !! k.
Proof.
  intros Hk. unfold ip_lookup_stage. destruct (findBy _ _) as [q|].
  - unfold ip_found. rewrite ip_fields_runs. cbn [fst].
    apply assign_lookup_ne. by apply ip_found_assignments_keys.
  - rewrite ip_not_found_runs. cbn [fst]. apply assign_lookup_ne.
    intros Hin. apply Hk. revert Hin. clear Hk. revert k.
    change (∀ k, k ∈ ip_not_found_assignments.*1 → k ∈ ip_found_keys)
      with (ip_not_found_assignments.*1 ⊆ ip_found_keys).
    other_keys.
Qed.

Lemma ip_lookup_stage_json_frame opts ip rip j k :
  k ∉ ["classification"; "lastSeen"; "hostname"; "geo"; "crawler"] →
  (ip_lookup_stage this opts ip rip j).2 !! k = j !! k.
Proof.
  intros Hk. unfold ip_lookup_stage. destruct (findBy _ _) as [q|].
  - unfold ip_found. rewrite ip_fields_runs. cbn [snd].
    apply json_sets_lookup_ne. by apply ip_found_sets_paths.
  - rewrite ip_not_found_runs. cbn [snd]. apply json_sets_lookup_ne.
    unfold ip_not_found_sets.
    assert (top "classification.name" = Some "classification") as Hn by done.
    assert (top "classification.code" = Some "classification") as Hc by done.
    assert (top "classification" = Some "classification") as Ht by done.
    assert (Some "classification" ≠ Some k) as Hne.
    { intros [= <-]. apply Hk. left. }
    destruct (full opts); repeat (constructor; [cbn [snd fst always]; congruence|]);
      constructor.
Qed.

Lemma datacenter_stage_skipped opts ipver ip rip j :
  ipver ≠ JNum 4 → ipver ≠ JNum 6 →
  datacenter_stage H this opts ipver ip rip j = (rip, j).
Proof.
  intros H4 H6. unfold datacenter_stage, Js.strict_eq.
  by rewrite !bool_decide_false.
Qed.

End not_an_address.

(** C3, as amended.  For a string that is not empty and that
    [getIpVersion] takes neither for an IPv4 nor for an IPv6 address, the
    result of [parseIp] has the string in [ip] and what [getIpVersion]
    returned in [ip_ver]; the lookup in [udger_ip_list] is made with the
    string as it is; when no row has it, the classification is
    "Unrecognized" / "unrecognized" and nothing else is written; the
    datacenter stage is not run, so the datacenter fields are those of
    the template and the JSON format has no datacenter. *)
Theorem parseIp_not_an_address H this ip opts :
  ip ≠ "" →
  getIpVersion H ip ≠ JNum 4 →
  getIpVersion H ip ≠ JNum 6 →
  let res := parseIp H this (Some ip) opts in
  let start :=
    <["ip_ver" := getIpVersion H ip]> (<["ip" := JStr ip]> (json_clone (retIp this))) in
  udger res !! "ip" = Some (JStr ip)
  ∧ udger res !! "ip_ver" = Some (getIpVersion H ip)
  ∧ (∀ k, k ∈ datacenter_keys → udger res !! k = json_clone (retIp this) !! k)
  ∧ json_ res !! "datacenter" = None
  ∧ match List.find (is_ip_row this ip) (Table.data (udger_ip_list (data this))) with
    | Some q => udger res = assign (ip_found_assignments (ip_join this q)) start
    | None =>
        udger res
        = <["ip_classification_code" := JStr "unrecognized"]>
            (<["ip_classification" := JStr "Unrecognized"]> start)
    end.
Proof.
  intros Hip H4 H6 res start. subst res.
  destruct ip as [|c ip]; [done|]. unfold parseIp. cbv beta iota zeta.
  set (s := String c ip) in *.
  assert (Js.strict_eq (getIpVersion H s) (JNum 6) = false) as ->
    by (by apply bool_decide_false).
  fold start. unfold ip_stages.
  set (j0 := if full opts then _ else _).
  assert (j0 !! "datacenter" = None) as Hj0.
  { unfold j0, dotProp.set. destruct (full opts);
      rewrite !set_path_lookup_ne by (by vm_compute); apply lookup_empty. }
  pose proof (ip_lookup_stage_frame this opts s start j0) as Hframe.
  pose proof (ip_lookup_stage_json_frame this opts s start j0 "datacenter") as Hjson.
  assert (ip_lookup_stage this opts s start j0
          = match List.find (is_ip_row this s) (Table.data (udger_ip_list (data this))) with
            | Some q => ip_found this opts q start j0
            | None => ip_not_found opts start j0
            end) as Hlookup by reflexivity.
  destruct (ip_lookup_stage this opts s start j0) as [rip1 j1].
  rewrite datacenter_stage_skipped by done. cbn [udger json_ fst snd] in *.
  split_and!.
  - rewrite Hframe by other_keys. unfold start. by simplify_map_eq.
  - rewrite Hframe by other_keys. unfold start. by simplify_map_eq.
  - intros k Hk. unfold datacenter_keys in Hk.
    repeat (apply elem_of_cons in Hk as [->|Hk]); [..|by apply elem_of_nil in Hk];
      (rewrite Hframe by other_keys; unfold start; by simplify_map_eq).
  - rewrite Hjson by other_keys. done.
  - destruct (List.find _ _) as [q|].
    + unfold ip_found in Hlookup. rewrite ip_fields_runs in Hlookup.
      apply (f_equal fst) in Hlookup. exact Hlookup.
    + apply (f_equal fst) in Hlookup. exact Hlookup.
Qed.

Lemma parseIp_not_an_address_witness :
  let res := parseIp Sample.helpers Demo.ready (Some "not-an-address") Demo.classic in
  "not-an-address" ≠ ""
  ∧ Sample.getIpVersion "not-an-address" ≠ JNum 4
  ∧ Sample.getIpVersion "not-an-address" ≠ JNum 6
  ∧ udger res !! "ip" = Some (JStr "not-an-address")
  ∧ udger res !! "ip_ver" = Some (Sample.getIpVersion "not-an-address")
  ∧ json_ res !! "datacenter" = None.
Proof.
  intros res.
  assert (Sample.getIpVersion "not-an-address" ≠ JNum 4) as H4 by (by vm_compute).
  assert (Sample.getIpVersion "not-an-address" ≠ JNum 6) as H6 by (by vm_compute).
  destruct (parseIp_not_an_address Sample.helpers Demo.ready "not-an-address"
              Demo.classic) as (Hip & Hver & _ & Hdc & _); [done|done|done|].
  by split_and!.
Defined.

(** C3 as stated fails: for a string that is no address the result holds
    more than the string: the lookup is made, finds no row, and the
    classification is set to "Unrecognized" / "unrecognized", the template
    having the empty string there. *)
Lemma parseIp_classifies_any_string :
  let res :=
    udger (parseIp Sample.helpers Demo.ready (Some "not-an-address") Demo.classic) in
  Sample.getIpVersion "not-an-address" = Sample.unknown
  ∧ retIp Demo.ready !! "ip_classification" = Some (JStr "")
  ∧ res !! "ip" = Some (JStr "not-an-address")
  ∧ res !! "ip_classification" = Some (JStr "Unrecognized")
  ∧ res !! "ip_classification_code" = Some (JStr "unrecognized").
Proof. split_and!; vm_compute; reflexivity. Qed.

Lemma cacheRead_marks_stored_object_witness :
  Js.own_property (cache (Demo.parsed_once None)) "myUnknowUA" = Some 0
  ∧ 0 < length (heap (Demo.parsed_once None))
  ∧ ∃ this', cacheRead (Demo.parsed_once None) "myUnknowUA" None = Returns this' (Obj 0)
      ∧ flagged this' 0 "from_cache".
Proof.
  assert (Js.own_property (cache (Demo.parsed_once None)) "myUnknowUA" = Some 0)
    as Hown by (by vm_compute).
  assert (0 < length (heap (Demo.parsed_once None))) as Hl by (vm_compute; lia).
  split; [done|]. split; [done|].
  destruct (cacheRead_marks_stored_object Sample.helpers (Demo.parsed_once None)
              "myUnknowUA" None 0 Hown Hl) as (this' & Hread & _ & Hflag & _).
  by exists this'.
Defined.

(** C10 as stated fails for the compact JSON format: the first call of
    [parse({ json: true })] stores its result; a read with the same
    options returns that object and sets no flag on it. *)
Lemma cacheRead_compact_sets_no_flag :
  let this := Demo.parsed_once (Some Demo.json_compact) in
  let read := cacheRead this "myUnknowUA" (Some Demo.json_compact) in
  Js.own_property (cache this) "myUnknowUA" = Some 0
  ∧ Demo.returned read = Some (Obj 0)
  ∧ Demo.returned (parse Sample.helpers this (Some Demo.json_compact)) = Some (Obj 0)
  ∧ Demo.properties_at (Demo.after read this) 0 = Some ["userAgent"]
  ∧ Demo.property_at (Demo.after read this) 0 "from_cache" = None
  ∧ Demo.property_at (Demo.after read this) 0 "fromCache" = None.
Proof. split_and!; vm_compute; reflexivity. Qed.

(** * Further properties *)

Import Cases.

(** ** The cache as a queue *)

Lemma own_entries_insertion_order {A} (o : list (string * A)) :
  Forall (λ kv, Js.array_index_key kv.1 = None) o → Js.own_entries o = o.
Proof.
  intros Hall. unfold Js.own_entries.
  assert (omap (λ kv : string * A, (λ n, (n, kv)) <$> Js.array_index_key kv.1) o = [])
    as ->.
  { induction Hall as [|kv o Hkv Hall IH]; [done|].
    cbn [omap list_omap]. by rewrite Hkv, IH. }
  cbn. induction Hall as [|kv o Hkv Hall IH]; [done|].
  rewrite filter_cons, decide_True by done. by rewrite IH.
Qed.

Lemma delete_property_head {A} (k : string) (x : A) (o : list (string * A)) :
  k ∉ o.*1 → Js.delete_property ((k, x) :: o) k = o.
Proof.
  intros Hk. unfold Js.delete_property. rewrite filter_cons, decide_False by (by intros ?).
  induction o as [|kv o IH]; [done|].
  cbn in Hk. apply not_elem_of_cons in Hk as [Hne Hk].
  rewrite filter_cons, decide_True by (by cbn). by rewrite IH.
Qed.

Lemma delete_property_last {A} (k : string) (x : A) (o : list (string * A)) :
  k ∉ o.*1 → Js.delete_property (o ++ [(k, x)]) k = o.
Proof.
  intros Hk. unfold Js.delete_property. rewrite filter_app.
  rewrite filter_cons, decide_False by (by intros ?). rewrite filter_nil, app_nil_r.
  induction o as [|kv o IH]; [done|].
  cbn in Hk. apply not_elem_of_cons in Hk as [Hne Hk].
  rewrite filter_cons, decide_True by (by cbn). by rewrite IH.
Qed.

(** On entries in insertion order the loop of [cacheWrite] removes the
    oldest ones and keeps the [max] most recent. *)
Lemma evict_oldest max c : ∀ fuel,
  insertion_ordered c → (0 ≤ max)%Z → length c ≤ fuel →
  evict fuel max c = Some (drop (length c - Z.to_nat max) c).
Proof.
  induction c as [|[k x] c IH]; intros fuel [Hnd Hall] Hmax Hfuel.
  - destruct fuel; cbn; (case_match eqn:E; [apply Z.ltb_lt in E; lia|done]).
  - apply NoDup_cons in Hnd as [Hk Hnd]. apply Forall_cons in Hall as [Hkx Hall].
    destruct fuel as [|fuel]; [cbn in Hfuel; lia|]. cbn [evict].
    unfold Js.Object_keys.
    rewrite own_entries_insertion_order by (by constructor).
    cbn [fmap list_fmap length head default option_fmap option_map Js.to_str fst].
    case_match eqn:E.
    + apply Z.ltb_lt in E. rewrite length_fmap in E.
      rewrite delete_property_head by done.
      rewrite IH; [|done|done|cbn in Hfuel; lia].
      f_equal. replace (S (length c) - Z.to_nat max) with (S (length c - Z.to_nat max)) by lia.
      done.
    + apply Z.ltb_ge in E. rewrite length_fmap in E.
      replace (S (length c) - Z.to_nat max) with 0 by lia. done.
Qed.

Lemma insertion_ordered_snoc c key data :
  insertion_ordered c → Js.array_index_key key = None → key ∉ c.*1 →
  insertion_ordered (c ++ [(key, data)]).
Proof.
  intros [Hnd Hall] Hkey Hnew. split.
  - rewrite fmap_app. apply NoDup_app. split; [done|]. split.
    + intros k Hk Hin. cbn in Hin. apply list_elem_of_singleton in Hin as ->. done.
    + cbn. apply NoDup_singleton.
  - apply Forall_app. split; [done|]. by repeat constructor.
Qed.

Lemma cacheWrite_drop this key data :
  (0 ≤ cacheMaxRecords this)%Z →
  insertion_ordered (cache this) →
  Js.array_index_key key = None →
  cacheKeyExist this key = false →
  cacheWrite this key data
  = Returns
      (with_cache (drop (S (length (cache this)) - Z.to_nat (cacheMaxRecords this))
                     (cache this ++ [(key, data)])) this) ().
Proof.
  intros Hmax Hord Hkey Hnew. unfold cacheWrite. rewrite Hnew.
  apply cacheKeyExist_false in Hnew as (Hown & _ & _).
  apply own_property_None in Hown.
  rewrite evict_oldest; [|by apply insertion_ordered_snoc|done|lia].
  rewrite length_app. cbn [length]. by rewrite Nat.add_1_r.
Qed.

(** X1.  The cache is a queue when no key is an array index: a write of a
    new key, with a capacity that is not negative, appends the entry and
    leaves the most recent entries, as many as the capacity allows; the
    entries written first are the ones removed. *)
Theorem cacheWrite_evicts_oldest this key data :
  (0 ≤ cacheMaxRecords this)%Z →
  insertion_ordered (cache this) →
  Js.array_index_key key = None →
  cacheKeyExist this key = false →
  cacheWrite this key data
  = Returns
      (with_cache (drop (S (length (cache this)) - Z.to_nat (cacheMaxRecords this))
                     (cache this ++ [(key, data)])) this) ().
Proof. apply cacheWrite_drop. Qed.

Lemma cacheWrite_evicts_oldest_witness :
  (0 ≤ cacheMaxRecords Demo.one_entry)%Z
  ∧ insertion_ordered (cache Demo.one_entry)
  ∧ Js.array_index_key "b" = None
  ∧ cacheKeyExist Demo.one_entry "b" = false
  ∧ cache Demo.one_entry = [("a", 0)]
  ∧ cache <$> left_by (cacheWrite Demo.one_entry "b" 1) = Some [("b", 1)].
Proof.
  assert (insertion_ordered (cache Demo.one_entry)) as Hord
    by (refine (bool_decide_unpack _ _); vm_compute; exact I).
  split_and!; [done|done|done|done|done|].
  rewrite (cacheWrite_evicts_oldest Demo.one_entry "b" 1); done.
Defined.

(** After a write of a new key that is no array index, with room for one
    entry at least, the key is an own property of the cache and holds
    the object written. *)
Lemma cacheWrite_stores this key data :
  (1 ≤ cacheMaxRecords this)%Z →
  insertion_ordered (cache this) →
  Js.array_index_key key = None →
  cacheKeyExist this key = false →
  ∃ c, cacheWrite this key data = Returns (with_cache c this) ()
    ∧ Js.own_property c key = Some data.
Proof.
  intros Hmax Hord Hkey Hnew.
  rewrite cacheWrite_drop by (done || lia).
  eexists. split; [done|].
  apply cacheKeyExist_false in Hnew as (Hown & _ & _).
  apply own_property_None in Hown.
  set (n := S (length (cache this)) - Z.to_nat (cacheMaxRecords this)).
  assert (n ≤ length (cache this)) as Hn by (unfold n; lia).
  rewrite drop_app_le by done. rewrite own_property_app.
  assert (Js.own_property (drop n (cache this)) key = None) as ->.
  { apply own_property_None. intros Hin. apply Hown.
    rewrite <-(take_drop n (cache this)), fmap_app. apply elem_of_app. by right. }
  unfold Js.own_property. cbn. by rewrite bool_decide_true.
Qed.

(** X2.  A write followed by a read returns what was written: with room
    for one entry at least, a new key that is no array index is in the
    cache after [cacheWrite], and [cacheRead] returns the object that was
    stored under it. *)
Theorem cacheWrite_then_cacheRead this key data opts :
  (1 ≤ cacheMaxRecords this)%Z →
  insertion_ordered (cache this) →
  Js.array_index_key key = None →
  cacheKeyExist this key = false →
  ∃ this', cacheWrite this key data = Returns this' ()
    ∧ cacheKeyExist this' key = true
    ∧ ∃ this'', cacheRead this' key opts = Returns this'' (Obj data).
Proof.
  intros Hmax Hord Hkey Hnew.
  destruct (cacheWrite_stores this key data) as (c & -> & Hget); [done..|].
  eexists. split; [done|]. split.
  - unfold cacheKeyExist, cache_get. cbn [cache with_cache]. by rewrite Hget.
  - unfold cacheRead, cache_get. cbn [cache with_cache]. rewrite Hget.
    destruct (cache_flag opts); by eexists.
Qed.

Lemma cacheWrite_then_cacheRead_witness :
  (1 ≤ cacheMaxRecords Demo.one_entry)%Z
  ∧ insertion_ordered (cache Demo.one_entry)
  ∧ Js.array_index_key "b" = None
  ∧ cacheKeyExist Demo.one_entry "b" = false
  ∧ ∃ this', cacheWrite Demo.one_entry "b" 1 = Returns this' ()
      ∧ cacheKeyExist this' "b" = true
      ∧ ∃ this'', cacheRead this' "b" None = Returns this'' (Obj 1).
Proof.
  assert (insertion_ordered (cache Demo.one_entry)) as Hord
    by (refine (bool_decide_unpack _ _); vm_compute; exact I).
  split_and!; [done|done|done|done|].
  apply (cacheWrite_then_cacheRead Demo.one_entry "b" 1 None); done.
Defined.

Lemma own_entries_index_last {A} (o : list (string * A)) key x n :
  Forall (λ kv, Js.array_index_key kv.1 = None) o →
  Js.array_index_key key = Some n →
  Js.own_entries (o ++ [(key, x)]) = (key, x) :: o.
Proof.
  intros Hall Hkey. unfold Js.own_entries.
  rewrite omap_app, filter_app. cbn [omap list_omap fst]. rewrite Hkey.
  assert (omap (λ kv : string * A, (λ n, (n, kv)) <$> Js.array_index_key kv.1) o = [])
    as ->.
  { clear Hkey. induction Hall as [|kv o Hkv Hall IH]; [done|].
    cbn [omap list_omap]. by rewrite Hkv, IH. }
  rewrite filter_cons, decide_False by (cbn; congruence). rewrite filter_nil, app_nil_r.
  cbn. f_equal. clear Hkey.
  induction Hall as [|kv o Hkv Hall IH]; [done|].
  rewrite filter_cons, decide_True by done. by rewrite IH.
Qed.

(** X3.  A key that is an array index goes to the front of the queue:
    written into a cache that is full (or over its capacity) and holds no
    such key, it is the first entry removed, and the write leaves it out
    of the cache. *)
Theorem cacheWrite_index_key_not_stored this key data n :
  (0 ≤ cacheMaxRecords this ≤ Z.of_nat (length (cache this)))%Z →
  insertion_ordered (cache this) →
  Js.array_index_key key = Some n →
  cacheKeyExist this key = false →
  ∃ this', cacheWrite this key data = Returns this' ()
    ∧ cache this'
      = drop (length (cache this) - Z.to_nat (cacheMaxRecords this)) (cache this)
    ∧ cacheKeyExist this' key = false.
Proof.
  intros [Hmax Hfull] Hord Hkey Hnew. unfold cacheWrite. rewrite Hnew.
  pose proof Hnew as (Hown & Hextra & Hproto)%cacheKeyExist_false.
  pose proof Hown as Hnotin%own_property_None.
  set (c := cache this) in *. cbn [evict].
  unfold Js.Object_keys at 1.
  rewrite (own_entries_index_last c key data n) by (done || apply Hord).
  cbn [fmap list_fmap length].
  rewrite (proj2 (Z.ltb_lt _ _)) by (rewrite length_fmap; lia).
  unfold Js.Object_keys.
  rewrite (own_entries_index_last c key data n) by (done || apply Hord).
  cbn [fmap list_fmap head default option_fmap option_map Js.to_str fst].
  rewrite delete_property_last by done.
  rewrite evict_oldest; [|done|done|rewrite length_app; lia].
  eexists. split; [done|]. cbn [cache with_cache]. split; [done|].
  apply cacheKeyExist_false. cbn [cache with_cache proto_extra]. split_and!; [|done|done].
  apply own_property_None. intros Hin. apply Hnotin.
  rewrite <-(take_drop (length c - Z.to_nat (cacheMaxRecords this)) c), fmap_app.
  apply elem_of_app. by right.
Qed.

Lemma cacheWrite_index_key_not_stored_witness :
  (0 ≤ cacheMaxRecords Demo.one_entry ≤ Z.of_nat (length (cache Demo.one_entry)))%Z
  ∧ insertion_ordered (cache Demo.one_entry)
  ∧ Js.array_index_key "2024" = Some 2024%N
  ∧ cacheKeyExist Demo.one_entry "2024" = false
  ∧ ∃ this', cacheWrite Demo.one_entry "2024" 1 = Returns this' ()
      ∧ cache this'
        = drop (length (cache Demo.one_entry)
                - Z.to_nat (cacheMaxRecords Demo.one_entry)) (cache Demo.one_entry)
      ∧ cacheKeyExist this' "2024" = false.
Proof.
  assert (insertion_ordered (cache Demo.one_entry)) as Hord
    by (refine (bool_decide_unpack _ _); vm_compute; exact I).
  assert (0 ≤ cacheMaxRecords Demo.one_entry ≤ Z.of_nat (length (cache Demo.one_entry)))%Z
    as Hfull by (by vm_compute).
  split_and!; [apply Hfull|apply Hfull|done|done|done|].
  apply (cacheWrite_index_key_not_stored Demo.one_entry "2024" 1 2024%N); done.
Defined.

(** X4.  With a negative capacity the loop of [cacheWrite] has no end,
    whatever the cache holds: no number of iterations exits it.  So a
    write of a new key does not return, and neither does a call of
    [parse] that the cache does not answer. *)
Theorem parse_negative_capacity H this opts :
  (cacheMaxRecords this < 0)%Z →
  (∀ fuel c, evict fuel (cacheMaxRecords this) c = None)
  ∧ (∀ key data, cacheKeyExist this key = false → cacheWrite this key data = Diverges)
  ∧ (db this = true → cacheEnable this = true →
     cacheKeyExist this (keyCache this) = false →
     parse H this opts = Diverges).
Proof.
  intros Hmax. split_and!.
  - intros fuel c. by apply evict_negative.
  - intros key data Hnew. unfold cacheWrite. by rewrite Hnew, evict_negative.
  - intros Hdb Hon Hnew. unfold parse, isCacheEnable. rewrite Hdb, Hon, Hnew.
    cbn [negb andb cacheEnable with_heap keyCache].
    unfold cacheWrite.
    assert (∀ x, cacheKeyExist (with_heap x this) (keyCache this) = false) as ->.
    { intros x. exact Hnew. }
    rewrite Hon. by rewrite evict_negative by exact Hmax.
Qed.

Lemma parse_negative_capacity_witness :
  (cacheMaxRecords (setCacheSize (-1) Demo.caching) < 0)%Z
  ∧ parse Sample.helpers (setCacheSize (-1) Demo.caching) None = Diverges.
Proof.
  assert (cacheMaxRecords (setCacheSize (-1) Demo.caching) < 0)%Z as Hmax by done.
  split; [done|].
  apply (parse_negative_capacity Sample.helpers (setCacheSize (-1) Demo.caching) None Hmax);
    done.
Defined.

(** ** The inputs and the key of the cache *)

Lemma set_keys_inputs H l : ∀ this,
  (set_keys H l this).1
  = with_inputs (ip (set_keys H l this).1) (ua (set_keys H l this).1) this.
Proof.
  induction l as [|[key value] l IH]; intros this; cbn [set_keys].
  - by destruct this.
  - destruct (String.eqb key "ua"); [by rewrite IH|].
    destruct (String.eqb key "ip"); [|by destruct this].
    destruct value; [by rewrite IH|by destruct this].
Qed.

Lemma set_keys_rejects H l key value : ∀ this,
  (key, value) ∈ l → key ≠ "ua" → key ≠ "ip" → (set_keys H l this).2 = false.
Proof.
  induction l as [|[k v] l IH]; intros this Hin Hua Hip; [by apply elem_of_nil in Hin|].
  cbn [set_keys].
  destruct (String.eqb_spec k "ua") as [->|Hk1].
  { apply IH; [|done|done]. apply elem_of_cons in Hin as [[= ? ?]|]; [done|done]. }
  destruct (String.eqb_spec k "ip") as [->|Hk2]; [|done].
  destruct v; [|done].
  apply IH; [|done|done]. apply elem_of_cons in Hin as [[= ? ?]|]; [done|done].
Qed.

Lemma own_entries_elem_2 {A} (kv : string * A) o : kv ∈ o → kv ∈ Js.own_entries o.
Proof.
  intros Hin. unfold Js.own_entries. apply elem_of_app.
  destruct (Js.array_index_key kv.1) as [n|] eqn:E.
  - left. apply list_elem_of_fmap. exists (n, kv). split; [done|].
    rewrite merge_sort_Permutation. apply list_elem_of_omap.
    exists kv. split; [done|]. by rewrite E.
  - right. by apply list_elem_of_filter.
Qed.

Lemma set_rejects_other_properties_helper H this props key :
  key ∈ props.*1 ++ proto_extra this → key ≠ "ua" → key ≠ "ip" →
  ∃ this', set H (Some props) this = Throws this'
    ∧ keyCache this' = keyCache this
    ∧ retUa this' = retUa this ∧ retIp this' = retIp this
    ∧ cache this' = cache this.
Proof.
  intros Hin Hua Hip. unfold set.
  set (l := Js.own_entries props ++ _).
  assert (∃ value, (key, value) ∈ l) as [value Hl].
  { apply elem_of_app in Hin as [Hin|Hin].
    - apply list_elem_of_fmap in Hin as ([k v] & -> & Hin). exists v.
      apply elem_of_app. left. by apply own_entries_elem_2.
    - exists None. apply elem_of_app. right. apply list_elem_of_fmap. by exists key. }
  pose proof (set_keys_rejects H l key value this Hl Hua Hip) as Hfalse.
  pose proof (set_keys_inputs H l this) as Hframe.
  destruct (set_keys H l this) as [this' b]. cbn [fst snd] in *. subst b.
  exists this'. split; [done|]. by rewrite Hframe.
Qed.

(** X5.  [set] accepts the properties [ua] and [ip] only: an object with
    any other property, its own or inherited from a prototype that a
    cache read has written to, makes it throw.  The key of the cache, the
    two templates and the cache are then as they were (the inputs named
    before the offending property may have been assigned). *)
Theorem set_rejects_other_properties H this props key :
  key ∈ props.*1 ++ proto_extra this → key ≠ "ua" → key ≠ "ip" →
  ∃ this', set H (Some props) this = Throws this'
    ∧ keyCache this' = keyCache this
    ∧ retUa this' = retUa this ∧ retIp this' = retIp this
    ∧ cache this' = cache this.
Proof. apply set_rejects_other_properties_helper. Qed.

Lemma set_rejects_other_properties_witness :
  "browser" ∈ [("ua", Some "curl/7.0"); ("browser", Some "curl")].*1 ++ proto_extra Demo.fresh
  ∧ ∃ this', set Sample.helpers
               (Some [("ua", Some "curl/7.0"); ("browser", Some "curl")]) Demo.fresh
             = Throws this'
      ∧ keyCache this' = keyCache Demo.fresh.
Proof.
  assert ("browser" ∈ [("ua", Some "curl/7.0"); ("browser", Some "curl")].*1
                      ++ proto_extra Demo.fresh) as Hin
    by (refine (bool_decide_unpack _ _); vm_compute; exact I).
  split; [done|].
  destruct (set_rejects_other_properties Sample.helpers Demo.fresh
              [("ua", Some "curl/7.0"); ("browser", Some "curl")] "browser" Hin)
    as (this' & Hset & Hkey & _); [done|done|].
  by exists this'.
Defined.

Lemma string_app_empty_r (s : string) : s +:+ "" = s.
Proof.
  induction s as [|c s IH]; [done|].
  change (String c (s +:+ "") = String c s). by rewrite IH.
Qed.

Lemma given_append k u : (if given (Some u) then k +:+ u else k) = k +:+ u.
Proof.
  unfold given. destruct (String.eqb_spec u "") as [->|_]; cbn [negb]; [|done].
  by rewrite string_app_empty_r.
Qed.

Lemma given_or_empty s : (if given (Some s) then s else "") = s.
Proof. unfold given. by destruct (String.eqb_spec s "") as [->|_]. Qed.

(** What [set({ ip, ua })] leaves: the inputs, the address in lower case,
    and their concatenation as the key when the cache is enabled. *)
Lemma set_ip_ua H this ip0 ua0 :
  proto_extra this = [] →
  set H (Some [("ip", Some ip0); ("ua", Some ua0)]) this
  = Returns
      (with_templates (if cacheEnable this then toLowerCase H ip0 +:+ ua0 else "")
         (json_clone (defaultRet_user_agent this))
         (json_clone (defaultRet_ip_address this))
         (with_inputs (Some (toLowerCase H ip0)) (Some ua0) this)) ().
Proof.
  intros Hextra. unfold set. rewrite Hextra. cbn [fmap list_fmap].
  rewrite own_entries_insertion_order by (by repeat constructor).
  cbn [app set_keys String.eqb Ascii.eqb Bool.eqb]. cbn [ip ua with_inputs cacheEnable].
  do 2 f_equal.
  destruct (cacheEnable this); [|done]. cbn [default]. unfold id.
  by rewrite given_append, given_or_empty.
Qed.

Lemma set_ua H this ua0 :
  proto_extra this = [] →
  set H (Some [("ua", Some ua0)]) this
  = Returns
      (with_templates
         (if cacheEnable this
          then (if given (ip this) then default "" (ip this) else "") +:+ ua0
          else "")
         (json_clone (defaultRet_user_agent this))
         (json_clone (defaultRet_ip_address this))
         (with_inputs (ip this) (Some ua0) this)) ().
Proof.
  intros Hextra. unfold set. rewrite Hextra. cbn [fmap list_fmap].
  rewrite own_entries_insertion_order by (by repeat constructor).
  cbn [app set_keys String.eqb Ascii.eqb Bool.eqb]. cbn [ip ua with_inputs cacheEnable].
  do 2 f_equal.
  destruct (cacheEnable this); [|done]. cbn [default]. unfold id.
  by rewrite given_append.
Qed.

(** ** Results served from the cache *)

(** X6.  With the cache enabled, a call of [parse] that the cache does
    not answer stores the object it returns, and every later call with
    the same key returns that very object, whatever its options: the
    options are no part of the key, so a result built for one format
    answers a request for another.  The later call sets its flag on the
    object. *)
Theorem parse_cache_hit H this opts :
  db this = true → cacheEnable this = true →
  (1 ≤ cacheMaxRecords this)%Z →
  insertion_ordered (cache this) →
  Js.array_index_key (keyCache this) = None →
  cacheKeyExist this (keyCache this) = false →
  let l := length (heap this) in
  let o := parse_result H this (default {| json := false; full := false |} opts) in
  ∃ this1, parse H this opts = Returns this1 (Obj l)
    ∧ heap this1 !! l = Some o
    ∧ ∀ opts2, ∃ this2, parse H this1 opts2 = Returns this2 (Obj l)
        ∧ heap this2 !! l
          = Some (match cache_flag opts2 with
                  | Some flag => <[flag := JV (JBool true)]> o
                  | None => o
                  end).
Proof.
  intros Hdb Hon Hmax Hord Hkey Hnew l o.
  unfold parse at 1, isCacheEnable. rewrite Hdb, Hon, Hnew. cbn [negb andb].
  fold o. fold l. cbn [cacheEnable with_heap keyCache]. rewrite Hon.
  set (this0 := with_heap (heap this ++ [o]) this).
  destruct (cacheWrite_stores this0 (keyCache this) l) as (c & -> & Hget); [done..|].
  subst this0. eexists. split; [done|]. cbn [heap with_cache with_heap].
  assert ((heap this ++ [o]) !! l = Some o) as Hl by apply list_lookup_middle, eq_refl.
  split; [done|]. intros opts2.
  unfold parse, isCacheEnable, cacheKeyExist, cache_get.
  cbn [db cacheEnable keyCache cache with_cache with_heap]. rewrite Hdb, Hon, Hget.
  cbn [negb andb]. unfold cacheRead, cache_get. cbn [cache with_cache]. rewrite Hget.
  destruct (cache_flag opts2) as [flag|]; (eexists; split; [done|]);
    cbn [heap with_cache with_heap]; [|done].
  rewrite list_lookup_alter_eq. by rewrite Hl.
Qed.

Lemma parse_cache_hit_witness :
  let this := Demo.after_set [("ua", Some "myUnknowUA")] (setCacheEnable true Demo.fresh) in
  db this = true ∧ cacheEnable this = true
  ∧ (1 ≤ cacheMaxRecords this)%Z
  ∧ insertion_ordered (cache this)
  ∧ Js.array_index_key (keyCache this) = None
  ∧ cacheKeyExist this (keyCache this) = false
  ∧ ∃ this1, parse Sample.helpers this (Some Demo.classic) = Returns this1 (Obj 0)
      ∧ ∃ this2, parse Sample.helpers this1 (Some Demo.json_full) = Returns this2 (Obj 0).
Proof.
  intros this.
  assert (insertion_ordered (cache this)) as Hord
    by (refine (bool_decide_unpack _ _); vm_compute; exact I).
  assert (Js.array_index_key (keyCache this) = None) as Hkey by (by vm_compute).
  assert (cacheKeyExist this (keyCache this) = false) as Hnew by (by vm_compute).
  split_and!; [done|done|done|done|done|done|].
  destruct (parse_cache_hit Sample.helpers this (Some Demo.classic))
    as (this1 & Hparse & _ & Hhit); [done..|].
  exists this1. split; [exact Hparse|].
  destruct (Hhit (Some Demo.json_full)) as (this2 & Hparse2 & _). by exists this2.
Defined.

(** X7.  The key of the cache is the address (in lower case) followed by
    the user agent string, with nothing between them.  Two pairs of
    inputs with the same concatenation share an entry: after [set] and
    [parse] for the first pair, [set] and [parse] for the second pair
    return the object that was built for the first. *)
Theorem parse_cache_key_collision H this ip1 ua1 ip2 ua2 opts1 opts2 :
  db this = true → cacheEnable this = true →
  (1 ≤ cacheMaxRecords this)%Z →
  insertion_ordered (cache this) →
  proto_extra this = [] →
  toLowerCase H ip2 +:+ ua2 = toLowerCase H ip1 +:+ ua1 →
  Js.array_index_key (toLowerCase H ip1 +:+ ua1) = None →
  cacheKeyExist this (toLowerCase H ip1 +:+ ua1) = false →
  ∃ this1 this2 this3 this4,
    set H (Some [("ip", Some ip1); ("ua", Some ua1)]) this = Returns this1 ()
    ∧ parse H this1 opts1 = Returns this2 (Obj (length (heap this)))
    ∧ heap this2 !! length (heap this)
      = Some (parse_result H this1 (default {| json := false; full := false |} opts1))
    ∧ set H (Some [("ip", Some ip2); ("ua", Some ua2)]) this2 = Returns this3 ()
    ∧ ip this3 = Some (toLowerCase H ip2) ∧ ua this3 = Some ua2
    ∧ parse H this3 opts2 = Returns this4 (Obj (length (heap this))).
Proof.
  intros Hdb Hon Hmax Hord Hextra Hsame Hkey Hnew.
  set (key := toLowerCase H ip1 +:+ ua1) in *.
  set (this1 := with_templates key (json_clone (defaultRet_user_agent this))
                  (json_clone (defaultRet_ip_address this))
                  (with_inputs (Some (toLowerCase H ip1)) (Some ua1) this)).
  assert (set H (Some [("ip", Some ip1); ("ua", Some ua1)]) this = Returns this1 ())
    as Hset1.
  { rewrite set_ip_ua by done. by rewrite Hon. }
  set (o := parse_result H this1 (default {| json := false; full := false |} opts1)).
  set (this1' := with_heap (heap this1 ++ [o]) this1).
  destruct (cacheWrite_stores this1' key (length (heap this)))
    as (c & Hwrite & Hget); [done|done|done|exact Hnew|].
  set (this2 := with_cache c this1').
  assert (parse H this1 opts1 = Returns this2 (Obj (length (heap this)))) as Hparse1.
  { unfold parse, isCacheEnable.
    assert (db this1 = true) as -> by done.
    assert (cacheEnable this1 = true) as Hon1 by done. rewrite Hon1.
    assert (cacheKeyExist this1 (keyCache this1) = false) as -> by exact Hnew.
    cbn [negb andb]. fold o. fold this1'.
    assert (cacheEnable this1' = true) as -> by done.
    assert (keyCache this1' = key) as -> by done.
    assert (length (heap this1) = length (heap this)) as -> by done.
    by rewrite Hwrite. }
  set (this3 := with_templates key (json_clone (defaultRet_user_agent this2))
                  (json_clone (defaultRet_ip_address this2))
                  (with_inputs (Some (toLowerCase H ip2)) (Some ua2) this2)).
  assert (set H (Some [("ip", Some ip2); ("ua", Some ua2)]) this2 = Returns this3 ())
    as Hset2.
  { rewrite set_ip_ua by done.
    assert (cacheEnable this2 = true) as -> by done. by rewrite Hsame. }
  assert (parse H this3 opts2 = cacheRead this3 key opts2) as Hhit.
  { unfold parse, isCacheEnable, cacheKeyExist, cache_get.
    assert (db this3 = true) as -> by done.
    assert (cacheEnable this3 = true) as -> by done.
    assert (cache this3 = c) as -> by done.
    assert (keyCache this3 = key) as -> by done.
    by rewrite Hget. }
  assert (∃ this4, cacheRead this3 key opts2 = Returns this4 (Obj (length (heap this))))
    as [this4 Hread].
  { unfold cacheRead, cache_get.
    assert (cache this3 = c) as -> by done. rewrite Hget.
    destruct (cache_flag opts2); by eexists. }
  exists this1, this2, this3, this4. split_and!; try done.
  - unfold this2, this1'. cbn [heap with_cache with_heap].
    apply list_lookup_middle. done.
  - by rewrite Hhit.
Qed.

Lemma parse_cache_key_collision_witness :
  let this := setCacheEnable true Demo.fresh in
  toLowerCase Sample.helpers "1.2.3.45" +:+ ""
  = toLowerCase Sample.helpers "1.2.3.4" +:+ "5"
  ∧ ∃ this1 this2 this3 this4,
      set Sample.helpers (Some [("ip", Some "1.2.3.4"); ("ua", Some "5")]) this = Returns this1 ()
      ∧ parse Sample.helpers this1 None = Returns this2 (Obj 0)
      ∧ set Sample.helpers (Some [("ip", Some "1.2.3.45"); ("ua", Some "")]) this2
        = Returns this3 ()
      ∧ ip this3 = Some "1.2.3.45" ∧ ua this3 = Some ""
      ∧ parse Sample.helpers this3 None = Returns this4 (Obj 0).
Proof.
  intros this.
  assert (insertion_ordered (cache this)) as Hord
    by (refine (bool_decide_unpack _ _); vm_compute; exact I).
  assert (toLowerCase Sample.helpers "1.2.3.45" +:+ ""
          = toLowerCase Sample.helpers "1.2.3.4" +:+ "5") as Hsame
    by (by vm_compute).
  assert (Js.array_index_key (toLowerCase Sample.helpers "1.2.3.4" +:+ "5") = None) as Hkey
    by (by vm_compute).
  assert (cacheKeyExist this (toLowerCase Sample.helpers "1.2.3.4" +:+ "5") = false) as Hnew
    by (by vm_compute).
  split; [done|].
  destruct (parse_cache_key_collision Sample.helpers this "1.2.3.4" "5" "1.2.3.45" ""
              None None)
    as (this1 & this2 & this3 & this4 & H1 & H2 & _ & H3 & Hip & Hua & H4); [done..|].
  exists this1, this2, this3, this4. by split_and!.
Defined.

(** ** Keys that every object inherits *)

Lemma prototype_keys_given key :
  key ∈ Js.object_prototype_keys → given (Some key) = true.
Proof.
  revert key. apply Forall_forall.
  refine (bool_decide_unpack _ _). vm_compute. exact I.
Qed.

Lemma prototype_keys_flag opts flag :
  cache_flag opts = Some flag → flag ≠ "ua" ∧ flag ≠ "ip".
Proof.
  unfold cache_flag. destruct opts as [[[] []]|]; intros [= <-]; done.
Qed.

(** X8.  The cache is an ordinary object, so the names it inherits from
    [Object.prototype] read as entries: with the cache enabled, no
    address given and such a name as user agent string (["constructor"],
    ["toString"], ...), [parse] takes the inherited member for a stored
    result and returns it; the string is not classified, no result
    object is built and nothing is stored. *)
Theorem parse_inherited_key H this key opts :
  db this = true → cacheEnable this = true →
  given (ip this) = false →
  proto_extra this = [] →
  key ∈ Js.object_prototype_keys →
  Js.own_property (cache this) key = None →
  ∃ this1 this2,
    set H (Some [("ua", Some key)]) this = Returns this1 ()
    ∧ parse H this1 opts = Returns this2 (Builtin key)
    ∧ heap this2 = heap this ∧ cache this2 = cache this.
Proof.
  intros Hdb Hon Hip Hextra Hkey Hown.
  set (this1 := with_templates key (json_clone (defaultRet_user_agent this))
                  (json_clone (defaultRet_ip_address this))
                  (with_inputs (ip this) (Some key) this)).
  assert (set H (Some [("ua", Some key)]) this = Returns this1 ()) as Hset.
  { rewrite set_ua by done. by rewrite Hon, Hip. }
  assert (cache_get this1 key = Builtin key) as Hget.
  { unfold cache_get. assert (cache this1 = cache this) as -> by done.
    assert (proto_extra this1 = []) as -> by done. rewrite Hown.
    rewrite bool_decide_false by apply not_elem_of_nil. by rewrite bool_decide_true. }
  assert (parse H this1 opts = cacheRead this1 key opts) as Hparse.
  { unfold parse, isCacheEnable, cacheKeyExist.
    assert (db this1 = true) as -> by done.
    assert (cacheEnable this1 = true) as -> by done.
    assert (keyCache this1 = key) as -> by done.
    by rewrite Hget. }
  exists this1. rewrite Hparse. unfold cacheRead. rewrite Hget.
  destruct (cache_flag opts) as [flag|]; [|by eexists].
  destruct (String.eqb key "__proto__"); by eexists.
Qed.

Lemma parse_inherited_key_witness :
  let this := setCacheEnable true Demo.fresh in
  "constructor" ∈ Js.object_prototype_keys
  ∧ ∃ this1 this2,
      set Sample.helpers (Some [("ua", Some "constructor")]) this = Returns this1 ()
      ∧ parse Sample.helpers this1 None = Returns this2 (Builtin "constructor")
      ∧ heap this2 = heap this ∧ cache this2 = cache this.
Proof.
  intros this.
  assert ("constructor" ∈ Js.object_prototype_keys) as Hkey
    by (refine (bool_decide_unpack _ _); vm_compute; exact I).
  split; [done|].
  apply (parse_inherited_key Sample.helpers this "constructor" None); done.
Defined.

(** X9.  The key ["__proto__"] reads as [Object.prototype] itself, and the
    flag that [cacheRead] sets on what it returns then becomes a property
    that every object inherits and that a loop [for ... in] visits.
    After a call of [parse] with this key and the classic or the full
    JSON options, every call of [set] with an object throws. *)
Theorem parse_proto_key H this opts flag :
  db this = true → cacheEnable this = true →
  keyCache this = "__proto__" →
  proto_extra this = [] →
  Js.own_property (cache this) "__proto__" = None →
  cache_flag opts = Some flag →
  ∃ this1, parse H this opts = Returns this1 (Builtin "__proto__")
    ∧ proto_extra this1 = [flag]
    ∧ ∀ props, ∃ this2, set H (Some props) this1 = Throws this2.
Proof.
  intros Hdb Hon Hkey Hextra Hown Hflag.
  assert (cache_get this "__proto__" = Builtin "__proto__") as Hget.
  { unfold cache_get. rewrite Hown, Hextra. done. }
  unfold parse, isCacheEnable, cacheKeyExist. rewrite Hdb, Hon, Hkey, Hget.
  cbn [negb andb]. unfold cacheRead. rewrite Hget, Hflag. cbn [String.eqb Ascii.eqb Bool.eqb].
  eexists. split; [done|]. cbn [proto_extra with_proto_extra]. rewrite Hextra.
  split; [done|]. intros props.
  destruct (prototype_keys_flag opts flag Hflag) as [Hua Hip].
  destruct (set_rejects_other_properties_helper H
              (with_proto_extra [flag] this) props flag) as (this2 & Hset & _);
    [|done|done|by exists this2].
  apply elem_of_app. right. cbn. left.
Qed.

Lemma parse_proto_key_witness :
  let this := Demo.after_set [("ua", Some "__proto__")] (setCacheEnable true Demo.fresh) in
  keyCache this = "__proto__"
  ∧ cache_flag None = Some "from_cache"
  ∧ ∃ this1, parse Sample.helpers this None = Returns this1 (Builtin "__proto__")
      ∧ ∃ this2, set Sample.helpers (Some [("ua", Some "curl/7.0")]) this1 = Throws this2.
Proof.
  intros this.
  assert (keyCache this = "__proto__") as Hkey by (by vm_compute).
  split; [done|]. split; [done|].
  destruct (parse_proto_key Sample.helpers this None "from_cache")
    as (this1 & Hparse & _ & Hset); [done..|].
  exists this1. split; [exact Hparse|]. apply Hset.
Defined.

(** ** The database handle *)

(** X10.  [disconnect] closes an open handle and says so, a second call
    finds nothing to close; [parse] then returns an empty object and
    leaves the cache as it is, even when the cache is enabled; [connect]
    brings the parser back to what it was. *)
Theorem disconnect_parse_connect H this opts :
  db this = true →
  let closed := (disconnect this).1 in
  (disconnect this).2 = true
  ∧ disconnect closed = (closed, false)
  ∧ (∃ this', parse H closed opts = Returns this' (Obj (length (heap this)))
       ∧ heap this' !! length (heap this) = Some ∅
       ∧ cache this' = cache this)
  ∧ connect closed = (this, true)
  ∧ connect this = (this, false).
Proof.
  intros Hdb closed. unfold closed, disconnect, connect. rewrite Hdb. cbn.
  split_and!; try done.
  - eexists. unfold parse. cbn. split; [done|]. split; [|done].
    by apply list_lookup_middle.
  - f_equal. destruct this. cbn in *. by subst.
Qed.

Lemma disconnect_parse_connect_witness :
  db Demo.ready = true
  ∧ (disconnect Demo.ready).2 = true
  ∧ connect (disconnect Demo.ready).1 = (Demo.ready, true).
Proof.
  split; [done|].
  destruct (disconnect_parse_connect Sample.helpers Demo.ready None)
    as (Hd & _ & _ & Hc & _); [done|].
  by split.
Defined.

(** ** The stages of [parseUa] when patterns match or do not *)

Section ua_no_match.

Variable H : Helpers.
Variable this : Parser.
Implicit Types (v : UaVars).

Lemma with_r_idem v : with_r (r v) v = v.
Proof. by destruct v. Qed.

Lemma client_loop_no_match opts ua rows : ∀ v,
  (∀ row, row ∈ rows → client_pattern_match H this ua row = None) →
  ∃ x, client_loop H this opts ua rows v = with_r x v.
Proof.
  unfold client_pattern_match.
  induction rows as [|row rows IH]; intros v Hno; cbn [client_loop].
  - exists (r v). by rewrite with_r_idem.
  - rewrite (Hno row) by left.
    destruct (IH (with_r (RRow row) v)) as [x ->]; [|by exists x].
    intros r0 Hr0. apply Hno. by right.
Qed.

Lemma os_loop_no_match opts ua rows : ∀ v,
  (∀ row, row ∈ rows → os_pattern_match H this ua row = None) →
  ∃ x, os_loop H this opts ua rows v = with_r x v.
Proof.
  unfold os_pattern_match.
  induction rows as [|row rows IH]; intros v Hno; cbn [os_loop].
  - exists (r v). by rewrite with_r_idem.
  - rewrite (Hno row) by left.
    destruct (IH (with_r (RRow row) v)) as [x ->]; [|by exists x].
    intros r0 Hr0. apply Hno. by right.
Qed.

Lemma deviceclass_loop_no_match opts ua rows : ∀ v,
  (∀ row, row ∈ rows → deviceclass_pattern_match H this ua row = None) →
  ∃ x, deviceclass_loop H this opts ua rows v = with_r x v.
Proof.
  unfold deviceclass_pattern_match.
  induction rows as [|row rows IH]; intros v Hno; cbn [deviceclass_loop].
  - exists (r v). by rewrite with_r_idem.
  - rewrite (Hno row) by left.
    destruct (IH (with_r (RRow row) v)) as [x ->]; [|by exists x].
    intros r0 Hr0. apply Hno. by right.
Qed.

(** The OS loop stops at the first row whose pattern matches. *)
Lemma os_loop_first_match opts ua pre row post e : ∀ v,
  (∀ r, r ∈ pre → os_pattern_match H this ua r = None) →
  os_pattern_match H this ua row = Some e →
  os_loop H this opts ua (pre ++ row :: post) v = os_found this opts row v.
Proof.
  unfold os_pattern_match.
  induction pre as [|r0 pre IH]; intros v Hpre Hrow; cbn [app os_loop].
  - by rewrite Hrow.
  - rewrite (Hpre r0) by left. rewrite IH; [done| |done].
    intros r Hr. apply Hpre. by right.
Qed.

End ua_no_match.

Lemma get_json_clone (m : gmap string jsval) k : get (json_clone m) k = get m k.
Proof.
  unfold get, json_clone.
  destruct (m !! k) as [x|] eqn:Hm.
  - destruct (decide (x = JUndef)) as [->|Hx].
    + rewrite (proj2 (map_lookup_filter_None _ _ _)); [done|].
      right. intros x Hx. rewrite Hm in Hx. by injection Hx as <-; intros ?.
    + by rewrite (map_lookup_filter_Some_2 _ _ _ x).
  - rewrite (proj2 (map_lookup_filter_None _ _ _)); [done|]. by left.
Qed.

(** X11.  A user agent string that is not empty, is the string of no
    crawler and is matched by no pattern of the clients, of the OS and
    of the device classes is classified "Unrecognized" / "unrecognized":
    the result is the copy of the template with the string and this
    class, and the JSON format holds the string and the class only.  (The
    template is taken to have no OS family, as the device marketname
    stage reads the field [os_family_code].) *)
Theorem parseUa_unrecognized H this ua opts :
  ua ≠ "" →
  (∀ row, row ∈ Table.data (udger_crawler_list (data this)) →
          ¬ is_crawler_row this ua row) →
  (∀ row, row ∈ Table.data (udger_client_regex (data this)) →
          client_pattern_match H this ua row = None) →
  (∀ row, row ∈ Table.data (udger_os_regex (data this)) →
          os_pattern_match H this ua row = None) →
  (∀ row, row ∈ Table.data (udger_deviceclass_regex (data this)) →
          deviceclass_pattern_match H this ua row = None) →
  Js.truthy (get (retUa this) "os_family_code") = false →
  udger (parseUa H this (Some ua) opts)
  = <["ua_class_code" := JStr "unrecognized"]>
      (<["ua_class" := JStr "Unrecognized"]>
         (<["ua_string" := JStr ua]> (json_clone (retUa this))))
  ∧ json_ (parseUa H this (Some ua) opts)
    = {[ "ua" :=
           JO (if full opts then
                 {[ "string" := JV (JStr ua);
                    "class" := JO {[ "name" := JV (JStr "Unrecognized");
                                     "code" := JV (JStr "unrecognized") ]} ]}
               else
                 {[ "string" := JV (JStr ua);
                    "class" := JV (JStr "unrecognized") ]}) ]}.
Proof.
  intros Hua Hcrawler Hclient Hos Hdevice Htemplate.
  rewrite parseUa_stages by done. cbn [udger json_].
  unfold ua_stages, crawler_or_client. cbv zeta.
  rewrite no_crawler_row by done.
  set (v0 := ua_start this opts ua).
  destruct (client_loop_no_match H this opts ua _ v0 Hclient) as [x1 ->].
  unfold later_stages, os_stage, deviceclass_stage. cbv zeta.
  destruct (os_loop_no_match H this opts ua _ (with_r x1 v0) Hos) as [x2 ->].
  rewrite os_relation_stage_skipped by done.
  destruct (deviceclass_loop_no_match H this opts ua _ (with_r x2 (with_r x1 v0)) Hdevice)
    as [x3 ->].
  assert (deviceclass_fallback_stage this opts (with_r x3 (with_r x2 (with_r x1 v0)))
          = with_r x3 (with_r x2 (with_r x1 v0))) as -> by done.
  assert (devicename_stage H this ua (with_r x3 (with_r x2 (with_r x1 v0)))
          = with_r x3 (with_r x2 (with_r x1 v0))) as ->.
  { unfold devicename_stage. cbn [rua with_r v0 ua_start].
    unfold get at 1. rewrite !lookup_insert_ne by done.
    fold (get (json_clone (retUa this)) "os_family_code").
    by rewrite get_json_clone, Htemplate. }
  cbn [rua ruaJson with_r v0 ua_start]. split; [done|].
  destruct (full opts); vm_compute; reflexivity.
Qed.

Lemma parseUa_unrecognized_witness :
  let res := parseUa Sample.helpers Demo.ready (Some "myUnknowUA") Demo.json_full in
  udger res !! "ua_class" = Some (JStr "Unrecognized")
  ∧ json_ res
    = {[ "ua" :=
           JO {[ "string" := JV (JStr "myUnknowUA");
                 "class" := JO {[ "name" := JV (JStr "Unrecognized");
                                  "code" := JV (JStr "unrecognized") ]} ]} ]}.
Proof.
  intros res.
  destruct (parseUa_unrecognized Sample.helpers Demo.ready "myUnknowUA" Demo.json_full)
    as [Hudger Hjson].
  - done.
  - apply Forall_forall. unfold is_crawler_row.
    refine (bool_decide_unpack _ _). vm_compute. exact I.
  - apply Forall_forall. refine (bool_decide_unpack _ _). vm_compute. exact I.
  - apply Forall_forall. refine (bool_decide_unpack _ _). vm_compute. exact I.
  - apply Forall_forall. refine (bool_decide_unpack _ _). vm_compute. exact I.
  - by vm_compute.
  - subst res. split; [by rewrite Hudger|exact Hjson].
Defined.

Lemma os_found_join this opts row v :
  rua (os_found this opts row v) = os_fields (os_join this row) (rua v)
  ∧ os_id (os_found this opts row v) = get (os_join this row) "os_id".
Proof. done. Qed.

(** X12.  The patterns of [udger_os_regex] are tried in the order of the
    table and the first that matches decides: the OS fields of the
    result come from the row of [udger_os_list] that the pattern refers
    to, whatever the crawler and client stage found, and the later
    stages leave them as they are.  (The joined [os_id] is taken not to
    equal 0, or the client/OS relation stage may run.) *)
Theorem os_first_match H this ua opts pre row post e :
  ua ≠ "" →
  Table.data (udger_os_regex (data this)) = pre ++ row :: post →
  (∀ r, r ∈ pre → os_pattern_match H this ua r = None) →
  os_pattern_match H this ua row = Some e →
  Js.loose_eq_num (get (os_join this row) "os_id") 0 = false →
  let res := udger (parseUa H this (Some ua) opts) in
  let r := os_join this row in
  res !! "os" = Some (get_or_empty r "name")
  ∧ res !! "os_code" = Some (get_or_empty r "name_code")
  ∧ res !! "os_homepage" = Some (get_or_empty r "homepage")
  ∧ res !! "os_family" = Some (get_or_empty r "family")
  ∧ res !! "os_family_code" = Some (get_or_empty r "family_code")
  ∧ res !! "os_family_vendor" = Some (get_or_empty r "vendor").
Proof.
  intros Hua Hdata Hpre Hrow Hid res r. subst res.
  rewrite parseUa_stages by done. cbn [udger]. unfold ua_stages. cbv zeta.
  set (v1 := crawler_or_client H this opts ua (ua_start this opts ua)).
  assert (∀ k, k ∈ os_keys →
               rua (later_stages H this opts ua v1) !! k
               = os_fields r (rua v1) !! k) as Hfields.
  { intros k Hk. unfold later_stages. cbv zeta.
    assert ((k ∉ device_class_keys) ∧ (k ∉ device_name_keys)) as [Hdc Hdn].
    { revert k Hk. apply Forall_forall.
      refine (bool_decide_unpack _ _). vm_compute. exact I. }
    rewrite devicename_stage_frame, deviceclass_fallback_stage_frame by done.
    unfold deviceclass_stage. rewrite deviceclass_loop_frame by done.
    unfold os_stage. rewrite Hdata.
    rewrite (os_loop_first_match H this opts ua pre row post e) by done.
    destruct (os_found_join this opts row v1) as [Hrua Hosid].
    assert (os_relation_stage this opts (os_found this opts row v1)
            = os_found this opts row v1) as ->.
    { unfold os_relation_stage, os_relation_attempted. by rewrite Hosid, Hid. }
    by rewrite Hrua. }
  rewrite !Hfields by (refine (bool_decide_unpack _ _); vm_compute; exact I).
  unfold os_fields. cbv zeta. split_and!; by simplify_map_eq.
Qed.

Lemma os_first_match_witness :
  let ua := "Mozilla/5.0 (Windows NT 10.0; Win64; x64)" in
  let res := udger (parseUa Sample.helpers Demo.ready (Some ua) Demo.classic) in
  os_pattern_match Sample.helpers Demo.ready ua Demo.android_pattern = None
  ∧ (∃ e, os_pattern_match Sample.helpers Demo.ready ua Demo.windows10_pattern = Some e)
  ∧ res !! "os" = Some (get_or_empty (os_join Demo.ready Demo.windows10_pattern) "name")
  ∧ get_or_empty (os_join Demo.ready Demo.windows10_pattern) "name" = JStr "Windows 10".
Proof.
  intros ua res.
  assert (os_pattern_match Sample.helpers Demo.ready ua Demo.android_pattern = None)
    as Hpre by (by vm_compute).
  assert (os_pattern_match Sample.helpers Demo.ready ua Demo.windows10_pattern
          = Some [Some "Windows NT 10.0"]) as Hrow by (by vm_compute).
  split; [done|]. split; [by eexists|].
  destruct (os_first_match Sample.helpers Demo.ready ua Demo.classic
              [Demo.android_pattern] Demo.windows10_pattern [Demo.haiku_pattern]
              [Some "Windows NT 10.0"]) as (Hos & _).
  - done.
  - done.
  - intros r0 Hr0. apply list_elem_of_singleton in Hr0 as ->. exact Hpre.
  - exact Hrow.
  - by vm_compute.
  - split; [exact Hos|by vm_compute].
Defined.

Section device_class_of_the_class.

Variable H : Helpers.
Variable this : Parser.

(** The second device class stage, reached with no device class found
    by a pattern and with a class for the client: the fields come from
    the device class of the first row of [udger_client_class] that has
    the id of that class. *)
Lemma later_stages_class_device opts ua v cid c :
  client_class_id v = cid →
  deviceclass_id v = JNum 0 →
  Js.loose_eq_num cid (-1) = false →
  (∀ row, row ∈ Table.data (udger_deviceclass_regex (data this)) →
          deviceclass_pattern_match H this ua row = None) →
  List.find (is_class_row this cid) (Table.data (udger_client_class (data this)))
  = Some c →
  let m := rua (later_stages H this opts ua v) in
  let r := class_device_join this c in
  m !! "device_class" = Some (get_or_empty r "name")
  ∧ m !! "device_class_code" = Some (get_or_empty r "name_code")
  ∧ m !! "device_class_icon" = Some (get_or_empty r "icon")
  ∧ m !! "device_class_icon_big" = Some (get_or_empty r "icon_big").
Proof.
  intros Hcid Hdid Hclass Hno Hfind m r. subst m.
  unfold later_stages. cbv zeta.
  rewrite !devicename_stage_frame
    by (refine (bool_decide_unpack _ _); vm_compute; exact I).
  set (v1 := os_stage H this opts ua v).
  assert (client_class_id v1 = cid ∧ deviceclass_id v1 = JNum 0) as [Hcid1 Hdid1].
  { unfold v1, os_stage.
    destruct (os_loop_client_id H this opts ua
                (Table.data (udger_os_regex (data this))) v) as (_ & -> & ->). done. }
  set (v2 := os_relation_stage this opts v1).
  assert (client_class_id v2 = cid ∧ deviceclass_id v2 = JNum 0) as [Hcid2 Hdid2].
  { unfold v2, os_relation_stage. destruct (os_relation_attempted v1); [|done].
    destruct (findBy _ _); done. }
  unfold deviceclass_stage.
  destruct (deviceclass_loop_no_match H this opts ua _ v2 Hno) as [x ->].
  unfold deviceclass_fallback_stage, deviceclass_fallback_attempted.
  cbn [deviceclass_id client_class_id with_r]. rewrite Hcid2, Hdid2, Hclass.
  cbn [Js.loose_eq_num Js.to_number Z.eqb negb andb].
  assert (findBy (udger_client_class (data this))
            (λ row cols, Js.strict_eq (cell (RRow row) (cols !! "id")) cid)
          = Some c) as -> by exact Hfind.
  fold (class_device_join this c). fold r. cbn [rua].
  split_and!; by simplify_map_eq.
Qed.

End device_class_of_the_class.

(** X13.  The client stage leaves the class of the client for the device
    stage: when no pattern of [udger_deviceclass_regex] matches, the
    device class of the result is the one that the class of the client
    refers to in [udger_client_class]. *)
Theorem client_class_device_class H this ua opts pre row post e c :
  ua ≠ "" →
  (∀ r, r ∈ Table.data (udger_crawler_list (data this)) →
        ¬ is_crawler_row this ua r) →
  Table.data (udger_client_regex (data this)) = pre ++ row :: post →
  (∀ r, r ∈ pre → client_pattern_match H this ua r = None) →
  client_pattern_match H this ua row = Some e →
  (∀ r, r ∈ Table.data (udger_deviceclass_regex (data this)) →
        deviceclass_pattern_match H this ua r = None) →
  let cid := get (client_join this row) "class_id" in
  Js.loose_eq_num cid (-1) = false →
  List.find (is_class_row this cid) (Table.data (udger_client_class (data this)))
  = Some c →
  let res := udger (parseUa H this (Some ua) opts) in
  let r := class_device_join this c in
  res !! "device_class" = Some (get_or_empty r "name")
  ∧ res !! "device_class_code" = Some (get_or_empty r "name_code")
  ∧ res !! "device_class_icon" = Some (get_or_empty r "icon")
  ∧ res !! "device_class_icon_big" = Some (get_or_empty r "icon_big").
Proof.
  intros Hua Hno Hdata Hpre Hrow Hdevice cid Hcid Hfind res r. subst res.
  rewrite parseUa_stages by done. cbn [udger]. unfold ua_stages. cbv zeta.
  unfold crawler_or_client. rewrite no_crawler_row by done. rewrite Hdata.
  rewrite (client_loop_first_match H this opts ua pre row post e) by done.
  by apply (later_stages_class_device H this opts ua _ cid c).
Qed.

(** X14.  The crawler stage sets the class of the client to 99: when no
    pattern of [udger_deviceclass_regex] matches the string of a
    crawler, the device class of the result is the one that the row of
    [udger_client_class] with the id 99 refers to. *)
Theorem crawler_device_class H this ua opts row c :
  ua ≠ "" →
  row ∈ Table.data (udger_crawler_list (data this)) →
  is_crawler_row this ua row →
  (∀ r, r ∈ Table.data (udger_deviceclass_regex (data this)) →
        deviceclass_pattern_match H this ua r = None) →
  List.find (is_class_row this (JNum 99)) (Table.data (udger_client_class (data this)))
  = Some c →
  let res := udger (parseUa H this (Some ua) opts) in
  let r := class_device_join this c in
  res !! "device_class" = Some (get_or_empty r "name")
  ∧ res !! "device_class_code" = Some (get_or_empty r "name_code")
  ∧ res !! "device_class_icon" = Some (get_or_empty r "icon")
  ∧ res !! "device_class_icon_big" = Some (get_or_empty r "icon_big").
Proof.
  intros Hua Hin Hrow Hdevice Hfind res r. subst res.
  rewrite parseUa_stages by done. cbn [udger]. unfold ua_stages. cbv zeta.
  destruct (some_crawler_row this ua row Hin Hrow) as [q Hq].
  unfold crawler_or_client. rewrite Hq.
  by apply (later_stages_class_device H this opts ua _ (JNum 99) c).
Qed.

Lemma client_class_device_class_witness :
  let ua := "Mozilla/5.0 (X11; Linux x86_64; rv:40.0) Gecko/20100101 Firefox/40.0" in
  let res := udger (parseUa Sample.helpers Demo.ready (Some ua) Demo.classic) in
  get (client_join Demo.ready Demo.firefox_pattern) "class_id" = JNum 0
  ∧ ∃ c, List.find (is_class_row Demo.ready (JNum 0))
           (Table.data (udger_client_class (data Demo.ready))) = Some c
      ∧ res !! "device_class" = Some (get_or_empty (class_device_join Demo.ready c) "name")
      ∧ get_or_empty (class_device_join Demo.ready c) "name" = JStr "Desktop".
Proof.
  intros ua res.
  assert (get (client_join Demo.ready Demo.firefox_pattern) "class_id" = JNum 0) as Hcid
    by (by vm_compute).
  split; [done|].
  exists [JNum 0; JStr "Browser"; JStr "browser"; JNum 0]. split; [by vm_compute|].
  destruct (client_class_device_class Sample.helpers Demo.ready ua Demo.classic
              [] Demo.firefox_pattern [Demo.iemobile_pattern; Demo.curl_pattern]
              [Some "Firefox/40.0"; Some "40.0"]
              [JNum 0; JStr "Browser"; JStr "browser"; JNum 0]) as (Hclass & _).
  - done.
  - apply Forall_forall. unfold is_crawler_row.
    refine (bool_decide_unpack _ _). vm_compute. exact I.
  - done.
  - intros r0 Hr0. by apply elem_of_nil in Hr0.
  - by vm_compute.
  - apply Forall_forall. refine (bool_decide_unpack _ _). vm_compute. exact I.
  - by vm_compute.
  - by vm_compute.
  - split; [exact Hclass|by vm_compute].
Defined.

Lemma crawler_device_class_witness :
  let ua := "Googlebot/2.1 (+http://www.google.com/bot.html)" in
  let res := udger (parseUa Sample.helpers Demo.ready (Some ua) Demo.classic) in
  is_crawler_row Demo.ready ua Demo.googlebot_row
  ∧ ∃ c, List.find (is_class_row Demo.ready (JNum 99))
           (Table.data (udger_client_class (data Demo.ready))) = Some c
      ∧ res !! "device_class" = Some (get_or_empty (class_device_join Demo.ready c) "name")
      ∧ get_or_empty (class_device_join Demo.ready c) "name" = JStr "Unrecognized".
Proof.
  intros ua res.
  assert (is_crawler_row Demo.ready ua Demo.googlebot_row) as Hrow by (by vm_compute).
  split; [done|].
  exists [JNum 99; JStr "Crawler"; JStr "crawler"; JNum 2]. split; [by vm_compute|].
  destruct (crawler_device_class Sample.helpers Demo.ready ua Demo.classic
              Demo.googlebot_row
              [JNum 99; JStr "Crawler"; JStr "crawler"; JNum 2]) as (Hclass & _).
  - done.
  - refine (bool_decide_unpack _ _). vm_compute. exact I.
  - exact Hrow.
  - apply Forall_forall. refine (bool_decide_unpack _ _). vm_compute. exact I.
  - by vm_compute.
  - split; [exact Hclass|by vm_compute].
Defined.

(** ** The stages of [parseIp] *)

Section ip_more.

Variable H : Helpers.
Variable this : Parser.

Lemma datacenter_stage_frame opts ipver ip rip j k :
  k ∉ datacenter_keys →
  (datacenter_stage H this opts ipver ip rip j).1 !! k = rip !! k.
Proof.
  intros Hk.
  assert (∀ range q, (datacenter_found this opts range q rip j).1 !! k = rip !! k)
    as Hfound.
  { intros range q. unfold datacenter_found. rewrite datacenter_fields_runs.
    cbn [fst]. by apply assign_lookup_ne. }
  unfold datacenter_stage.
  destruct (Js.strict_eq ipver (JNum 4)).
  { destruct (findBy _ _); [apply Hfound|done]. }
  destruct (Js.strict_eq ipver (JNum 6)); [|done].
  destruct (findBy _ _); [apply Hfound|done].
Qed.

Lemma parseIp_udger ip opts :
  ip ≠ "" →
  udger (parseIp H this (Some ip) opts)
  = <["ip" := JStr ip]>
      (ip_core H this opts (getIpVersion H ip) (canonical H ip)).1.
Proof. intros Hip. by rewrite parseIp_core. Qed.

End ip_more.

(** X15.  An address that no row of [udger_ip_list] has (under its
    canonical text) is classified "Unrecognized" / "unrecognized",
    whatever its version and whatever the datacenter stage finds: the
    result is the template with the string, the version, this class
    and, at most, the datacenter fields. *)
Theorem parseIp_unlisted_address H this ip opts :
  ip ≠ "" →
  List.find (is_ip_row this (canonical H ip)) (Table.data (udger_ip_list (data this)))
  = None →
  let res := udger (parseIp H this (Some ip) opts) in
  res !! "ip" = Some (JStr ip)
  ∧ res !! "ip_ver" = Some (getIpVersion H ip)
  ∧ res !! "ip_classification" = Some (JStr "Unrecognized")
  ∧ res !! "ip_classification_code" = Some (JStr "unrecognized")
  ∧ ∀ k, k ∉ ["ip"; "ip_ver"; "ip_classification"; "ip_classification_code"]
             ++ datacenter_keys →
         res !! k = json_clone (retIp this) !! k.
Proof.
  intros Hip Hfind res. subst res. rewrite parseIp_udger by done.
  unfold ip_core, ip_stages.
  set (start := <["ip_ver" := getIpVersion H ip]> (json_clone (retIp this))).
  set (j0 := if full opts then _ else _).
  assert (ip_lookup_stage this opts (canonical H ip) start j0
          = ip_not_found opts start j0) as ->.
  { unfold ip_lookup_stage.
    assert (findBy (udger_ip_list (data this))
              (λ row cols, Js.strict_eq (cell (RRow row) (cols !! "ip"))
                             (JStr (canonical H ip))) = None) as -> by exact Hfind.
    done. }
  rewrite ip_not_found_runs.
  set (rip1 := assign ip_not_found_assignments start).
  set (j1 := json_sets _ j0).
  assert (∀ k, k ∉ datacenter_keys →
               (datacenter_stage H this opts (getIpVersion H ip) (canonical H ip) rip1 j1).1
               !! k = rip1 !! k) as Hframe.
  { intros k Hk. by apply datacenter_stage_frame. }
  split_and!.
  - by rewrite lookup_insert_eq.
  - rewrite lookup_insert_ne by done.
    rewrite Hframe by (refine (bool_decide_unpack _ _); vm_compute; exact I).
    unfold rip1, assign, ip_not_found_assignments, start. cbn [foldl fst snd].
    by simplify_map_eq.
  - rewrite lookup_insert_ne by done.
    rewrite Hframe by (refine (bool_decide_unpack _ _); vm_compute; exact I).
    unfold rip1, assign, ip_not_found_assignments. cbn [foldl fst snd].
    by simplify_map_eq.
  - rewrite lookup_insert_ne by done.
    rewrite Hframe by (refine (bool_decide_unpack _ _); vm_compute; exact I).
    unfold rip1, assign, ip_not_found_assignments. cbn [foldl fst snd].
    by simplify_map_eq.
  - intros k Hk. apply not_elem_of_app in Hk as [Hk Hdc].
    rewrite !not_elem_of_cons in Hk. destruct Hk as (? & ? & ? & ? & _).
    rewrite lookup_insert_ne by done. rewrite Hframe by done.
    unfold rip1, assign, ip_not_found_assignments, start. cbn [foldl fst snd].
    by rewrite !lookup_insert_ne by done.
Qed.

Lemma parseIp_unlisted_address_witness :
  let res := udger (parseIp Sample.helpers Demo.ready (Some "192.168.0.1") Demo.classic) in
  List.find (is_ip_row Demo.ready (canonical Sample.helpers "192.168.0.1"))
    (Table.data (udger_ip_list (data Demo.ready))) = None
  ∧ res !! "ip_ver" = Some (Sample.getIpVersion "192.168.0.1")
  ∧ res !! "ip_classification" = Some (JStr "Unrecognized").
Proof.
  intros res.
  assert (List.find (is_ip_row Demo.ready (canonical Sample.helpers "192.168.0.1"))
            (Table.data (udger_ip_list (data Demo.ready))) = None) as Hfind
    by (by vm_compute).
  split; [done|].
  destruct (parseIp_unlisted_address Sample.helpers Demo.ready "192.168.0.1" Demo.classic)
    as (_ & Hver & Hclass & _); [done|done|].
  by split.
Defined.

Lemma in_range4_numbers this n row a b :
  cell (RRow row) (Table.columns (udger_datacenter_range (data this)) !! "iplong_from")
  = JNum a →
  cell (RRow row) (Table.columns (udger_datacenter_range (data this)) !! "iplong_to")
  = JNum b →
  in_range4 this n row = true ↔ (a ≤ n ≤ b)%Z.
Proof.
  intros Ha Hb. unfold in_range4. cbv zeta. rewrite Ha, Hb.
  unfold Js.le_num, Js.ge_num. cbn [Js.to_number].
  rewrite andb_true_iff, !Z.leb_le. done.
Qed.

Lemma datacenter_range_fields H this ip opts q :
  ip ≠ "" →
  getIpVersion H ip = JNum 4 →
  List.find (in_range4 this (ip2long H ip))
    (Table.data (udger_datacenter_range (data this))) = Some q →
  let res := udger (parseIp H this (Some ip) opts) in
  let r := datacenter_join this (udger_datacenter_range (data this)) q in
  res !! "datacenter_name" = Some (get_or_empty r "name")
  ∧ res !! "datacenter_name_code" = Some (get_or_empty r "name_code")
  ∧ res !! "datacenter_homepage" = Some (get_or_empty r "homepage")
  ∧ (List.find (is_ip_row this ip) (Table.data (udger_ip_list (data this))) = None →
     res !! "ip_classification" = Some (JStr "Unrecognized")).
Proof.
  intros Hip Hver Hfind res r. subst res. rewrite parseIp_udger by done.
  assert (canonical H ip = ip) as Hcanon.
  { unfold canonical. by rewrite Hver. }
  rewrite Hcanon, Hver. unfold ip_core, ip_stages.
  set (start := <["ip_ver" := JNum 4]> (json_clone (retIp this))).
  set (j0 := if full opts then _ else _).
  pose proof (ip_lookup_stage_frame this opts ip start j0) as Hlookup.
  assert (ip_lookup_stage this opts ip start j0
          = match List.find (is_ip_row this ip) (Table.data (udger_ip_list (data this))) with
            | Some q => ip_found this opts q start j0
            | None => ip_not_found opts start j0
            end) as Hstage by reflexivity.
  destruct (ip_lookup_stage this opts ip start j0) as [rip1 j1].
  unfold datacenter_stage.
  assert (Js.strict_eq (JNum 4) (JNum 4) = true) as -> by done.
  assert (findBy (udger_datacenter_range (data this))
            (λ row cols,
               Js.le_num (cell (RRow row) (cols !! "iplong_from")) (Some (ip2long H ip))
               && Js.ge_num (cell (RRow row) (cols !! "iplong_to")) (Some (ip2long H ip)))
          = Some q) as -> by exact Hfind.
  unfold datacenter_found. rewrite datacenter_fields_runs. cbn [fst]. fold r.
  unfold assign, datacenter_assignments. cbn [foldl fst snd].
  split_and!; try by simplify_map_eq.
  intros Hnone. rewrite Hnone in Hstage. rewrite ip_not_found_runs in Hstage.
  apply (f_equal fst) in Hstage. cbn [fst] in Hstage. subst rip1.
  unfold assign, ip_not_found_assignments. cbn [foldl fst snd]. by simplify_map_eq.
Qed.

(** X16.  For an IPv4 address the datacenter is the one of the first row
    of [udger_datacenter_range], in the order of the table, whose range
    holds the number of the address (for a row with the numbers [a] and
    [b] as bounds: [a <= n <= b]); the three datacenter fields come from
    the row of [udger_datacenter_list] it refers to, and an address that
    [udger_ip_list] does not have stays "Unrecognized". *)
Theorem parseIp_datacenter_range H this ip opts q :
  ip ≠ "" →
  getIpVersion H ip = JNum 4 →
  List.find (in_range4 this (ip2long H ip))
    (Table.data (udger_datacenter_range (data this))) = Some q →
  let res := udger (parseIp H this (Some ip) opts) in
  let r := datacenter_join this (udger_datacenter_range (data this)) q in
  (res !! "datacenter_name" = Some (get_or_empty r "name")
   ∧ res !! "datacenter_name_code" = Some (get_or_empty r "name_code")
   ∧ res !! "datacenter_homepage" = Some (get_or_empty r "homepage")
   ∧ (List.find (is_ip_row this ip) (Table.data (udger_ip_list (data this))) = None →
      res !! "ip_classification" = Some (JStr "Unrecognized")))
  ∧ (∀ row a b,
       cell (RRow row)
         (Table.columns (udger_datacenter_range (data this)) !! "iplong_from") = JNum a →
       cell (RRow row)
         (Table.columns (udger_datacenter_range (data this)) !! "iplong_to") = JNum b →
       in_range4 this (ip2long H ip) row = true ↔ (a ≤ ip2long H ip ≤ b)%Z).
Proof.
  intros Hip Hver Hfind res r. split.
  - by apply datacenter_range_fields.
  - intros row a b. apply in_range4_numbers.
Qed.

Lemma parseIp_datacenter_range_witness :
  let res := udger (parseIp Sample.helpers Demo.ready (Some "66.249.64.1") Demo.classic) in
  Sample.getIpVersion "66.249.64.1" = JNum 4
  ∧ Sample.ip2long "66.249.64.1" = 1123631105%Z
  ∧ res !! "datacenter_name" = Some (JStr "Example Hosting")
  ∧ res !! "ip_classification" = Some (JStr "Unrecognized").
Proof.
  intros res.
  assert (Sample.getIpVersion "66.249.64.1" = JNum 4) as Hver by (by vm_compute).
  split; [done|]. split; [by vm_compute|].
  destruct (parseIp_datacenter_range Sample.helpers Demo.ready "66.249.64.1" Demo.classic
              [JNum 0; JNum 1123631104; JNum 1123639295])
    as ((Hname & _ & _ & Hclass) & _); [done|done|by vm_compute|].
  subst res. split; [rewrite Hname; by vm_compute|].
  apply Hclass. by vm_compute.
Defined.

(** ** The cache when it is disabled *)

Lemma set_frame H data this :
  ∃ this', left_by (set H data this) = Some this'
    ∧ cacheEnable this' = cacheEnable this ∧ cache this' = cache this
    ∧ heap this' = heap this ∧ proto_extra this' = proto_extra this
    ∧ db this' = db this.
Proof.
  unfold set. destruct data as [props|]; [|by exists this].
  set (l := Js.own_entries props ++ _).
  pose proof (set_keys_inputs H l this) as Hframe.
  destruct (set_keys H l this) as [this1 []]; cbn [fst] in Hframe;
    eexists; (split; [done|]); by rewrite Hframe.
Qed.

Lemma step_cache_disabled H c this :
  cacheEnable this = false → plain_use c →
  ∃ this', step H c this = Some this'
    ∧ cacheEnable this' = false ∧ cache this' = cache this
    ∧ proto_extra this' = proto_extra this
    ∧ ∀ l o, heap this !! l = Some o → heap this' !! l = Some o.
Proof.
  intros Hoff Hc. destruct c as [| |props| | | | | |opts]; try done; cbn [step].
  - unfold connect. destruct (negb (db this)); by eexists.
  - unfold disconnect. destruct (db this); by eexists.
  - destruct (set_frame H props this) as (this' & -> & Hon & Hcache & Hheap & Hextra & _).
    exists this'. split; [done|]. rewrite Hon, Hcache, Hextra, Hheap. done.
  - unfold parse, isCacheEnable. rewrite Hoff. cbn [andb cacheEnable with_heap].
    rewrite Hoff.
    destruct (negb (db this)); (eexists; split; [done|]);
      (split_and!; [done..|]); intros l o Hl; cbn [heap with_heap];
      by apply lookup_app_l_Some.
Qed.

(** X17.  While the cache is disabled, [set], [parse], [connect] and
    [disconnect] leave it alone: no sequence of such calls changes the
    entries of the cache or an object that was returned before, and each
    of them ends; a call of [parse] builds a new object even when the
    cache holds an entry for the inputs. *)
Theorem cache_disabled_untouched H calls : ∀ this,
  cacheEnable this = false →
  Forall plain_use calls →
  (∃ this', run H calls this = Some this'
     ∧ cacheEnable this' = false ∧ cache this' = cache this
     ∧ ∀ l o, heap this !! l = Some o → heap this' !! l = Some o)
  ∧ (db this = true →
     ∀ opts, parse H this opts
             = Returns
                 (with_heap
                    (heap this
                     ++ [parse_result H this
                           (default {| json := false; full := false |} opts)]) this)
                 (Obj (length (heap this)))).
Proof.
  intros this Hoff Hcalls. split.
  - revert this Hoff. induction Hcalls as [|c calls Hc Hcalls IH]; intros this Hoff.
    + by exists this.
    + destruct (step_cache_disabled H c this Hoff Hc)
        as (this1 & Hstep & Hoff1 & Hcache1 & _ & Hheap1).
      destruct (IH this1 Hoff1) as (this' & Hrun & Hoff' & Hcache' & Hheap').
      exists this'. cbn [run]. rewrite Hstep. split; [done|]. split; [done|].
      split; [congruence|]. intros l o Hl. by apply Hheap', Hheap1.
  - intros Hdb opts. unfold parse, isCacheEnable. rewrite Hdb, Hoff.
    cbn [negb andb cacheEnable with_heap]. by rewrite Hoff.
Qed.

Lemma cache_disabled_untouched_witness :
  let this := setCacheEnable false Demo.two_entries in
  cacheEnable this = false
  ∧ ∃ this', run Sample.helpers
               [Call_set (Some [("ua", Some "a")]); Call_parse None; Call_disconnect;
                Call_parse None] this = Some this'
      ∧ cache this' = [("a", 0); ("b", 1)].
Proof.
  intros this. split; [done|].
  destruct (cache_disabled_untouched Sample.helpers
              [Call_set (Some [("ua", Some "a")]); Call_parse None; Call_disconnect;
               Call_parse None] this) as [(this' & Hrun & _ & Hcache & _) _].
  - done.
  - refine (bool_decide_unpack _ _). vm_compute. exact I.
  - exists this'. split; [done|]. rewrite Hcache. by vm_compute.
Defined.

(** ** Joins *)

Lemma map_keys_lookup t row keys k : ∀ acc : gmap string jsval,
  foldl (λ acc key, <[key := cell row (Table.columns t !! key)]> acc) acc keys !! k
  = if decide (k ∈ keys) then Some (cell row (Table.columns t !! k)) else acc !! k.
Proof.
  induction keys as [|key keys IH]; intros acc; cbn [foldl].
  - by rewrite decide_False by apply not_elem_of_nil.
  - rewrite IH. destruct (decide (k ∈ keys)) as [Hin|Hin].
    + by rewrite decide_True by (by right).
    + destruct (decide (key = k)) as [->|Hne].
      * rewrite decide_True by left. by rewrite lookup_insert_eq.
      * rewrite decide_False by (rewrite not_elem_of_cons; by split).
        by rewrite lookup_insert_ne.
Qed.

(** X18.  [map] builds a record with the keys it is asked for and no
    other: each key holds the cell of its column ([undefined] when the
    table has no such column or the row no such cell), and a renamed key
    is found under its new name only.  For no row at all the record is
    empty. *)
Theorem map_keys_and_rename t row keys k1 k2 :
  row ≠ RUndef → k1 ∈ keys → k1 ≠ k2 →
  let m := map t row keys [(k1, k2)] in
  m !! k2 = Some (cell row (Table.columns t !! k1))
  ∧ m !! k1 = None
  ∧ (∀ k, k ∈ keys → k ≠ k1 → k ≠ k2 → m !! k = Some (cell row (Table.columns t !! k)))
  ∧ (∀ k, k ∉ keys → k ≠ k2 → m !! k = None)
  ∧ (∀ k, k ∈ keys → map t row keys [] !! k = Some (cell row (Table.columns t !! k)))
  ∧ map t RUndef keys [(k1, k2)] = ∅.
Proof.
  intros Hrow Hk1 Hne m. subst m.
  assert (∀ rename,
            map t row keys rename
            = foldl (λ ret '(k1, k2), delete k1 (<[k2 := get ret k1]> ret))
                (foldl (λ acc key, <[key := cell row (Table.columns t !! key)]> acc)
                   ∅ keys) rename) as Hmap.
  { intros rename. by destruct row. }
  rewrite !Hmap. cbn [foldl]. unfold get.
  set (ret := foldl _ ∅ keys).
  assert (∀ k, ret !! k
               = if decide (k ∈ keys) then Some (cell row (Table.columns t !! k))
                 else None) as Hret.
  { intros k. unfold ret. by rewrite map_keys_lookup, lookup_empty. }
  split_and!.
  - rewrite lookup_delete_ne by done. rewrite lookup_insert_eq.
    by rewrite Hret, decide_True.
  - apply lookup_delete_eq.
  - intros k Hk Hk1' Hk2. rewrite lookup_delete_ne, lookup_insert_ne by done.
    by rewrite Hret, decide_True.
  - intros k Hk Hk2. destruct (decide (k1 = k)) as [->|Hk1']; [apply lookup_delete_eq|].
    rewrite lookup_delete_ne, lookup_insert_ne by done. by rewrite Hret, decide_False.
  - intros k Hk. by rewrite Hret, decide_True.
  - done.
Qed.

Lemma map_keys_and_rename_witness :
  let m := map (udger_os_list Demo.dataset)
             (row_at (udger_os_list Demo.dataset) (JNum 1))
             os_list_keys [("id", "os_id")] in
  row_at (udger_os_list Demo.dataset) (JNum 1) ≠ RUndef
  ∧ "id" ∈ os_list_keys
  ∧ m !! "os_id" = Some (JNum 2) ∧ m !! "id" = None.
Proof.
  intros m.
  assert (row_at (udger_os_list Demo.dataset) (JNum 1) ≠ RUndef) as Hrow
    by (by vm_compute).
  assert ("id" ∈ os_list_keys) as Hin
    by (refine (bool_decide_unpack _ _); vm_compute; exact I).
  split; [done|]. split; [done|].
  destruct (map_keys_and_rename (udger_os_list Demo.dataset)
              (row_at (udger_os_list Demo.dataset) (JNum 1)) os_list_keys "id" "os_id")
    as (Hnew & Hold & _); [done..|].
  subst m. split; [|exact Hold]. rewrite Hnew. by vm_compute.
Defined.

(** ** The checks before the random samples *)

(** X19.  [randomSanityChecks] lets a call through exactly when the
    database is open and [max] is a number other than 0; otherwise it
    calls [callback] once, with one error, the closed database being
    reported before a missing [max] and that before a [max] that is no
    number; when the checks pass [callback] is not called. *)
Theorem randomSanityChecks_accepts this max :
  let ok := (Checks.randomSanityChecks this max).1 in
  let errors := (Checks.randomSanityChecks this max).2 in
  (ok = true ↔ db this = true ∧ ∃ n, max = JNum n ∧ n ≠ 0%Z)
  ∧ length errors = (if ok then 0 else 1)
  ∧ (db this = false → errors = ["Database not ready"])
  ∧ (db this = true → Js.truthy max = false →
     errors = ["Please specify maximum number of records"]).
Proof.
  unfold Checks.randomSanityChecks.
  destruct (db this); cbn [negb].
  2: { split_and!; [|done..]. split; [done|]. by intros [? _]. }
  destruct max as [| |[]|n|s]; cbn [Js.truthy negb Checks.is_number fst snd];
    try (split_and!; [|done..]; split; [done|]; by intros (_ & n' & ? & _)).
  - destruct (Z.eqb_spec n 0) as [->|Hn]; cbn [negb fst snd].
    + split_and!; [|done..]. split; [done|]. by intros (_ & n' & [= <-] & ?).
    + split_and!; [|done..]. split; [|done]. intros _. split; [done|]. by exists n.
  - destruct (String.eqb s ""); cbn [negb fst snd];
      (split_and!; [|done..]; split; [done|]; by intros (_ & n' & ? & _)).
Qed.

Lemma randomSanityChecks_accepts_witness :
  db (disconnect Demo.fresh).1 = false
  ∧ (Checks.randomSanityChecks (disconnect Demo.fresh).1 (JNum 10)).2
    = ["Database not ready"].
Proof.
  split; [done|].
  by apply (randomSanityChecks_accepts (disconnect Demo.fresh).1 (JNum 10)).
Defined.

(** ** The conversion of the database *)

Section convert.

Import Convert.

Lemma put_lookup_eq acc key n : key ≠ "__proto__" → put acc key n !! key = Some n.
Proof.
  intros Hkey. unfold put. destruct (String.eqb_spec key "__proto__"); [done|].
  apply lookup_insert_eq.
Qed.

Lemma put_lookup_ne acc key n s : key ≠ s → put acc key n !! s = acc !! s.
Proof.
  intros Hkey. unfold put. destruct (String.eqb key "__proto__"); [done|].
  by apply lookup_insert_ne.
Qed.

Lemma put_lookup_proto acc key n : put acc key n !! "__proto__" = acc !! "__proto__".
Proof.
  unfold put. destruct (String.eqb_spec key "__proto__") as [->|Hne]; [done|].
  by apply lookup_insert_ne.
Qed.

Section keyed.

Context {A : Type} (key : A → string).

(** The object that [reduce] builds with [acc[key(v)] = i]. *)
Lemma indexes_other s l : ∀ i acc,
  s ∉ key <$> l →
  reduce_from (λ acc v i, put acc (key v) i) i l acc !! s = acc !! s.
Proof.
  induction l as [|v l IH]; intros i acc Hs; [done|].
  cbn in Hs. apply not_elem_of_cons in Hs as [Hne Hs].
  cbn [reduce_from]. rewrite IH by done. by apply put_lookup_ne.
Qed.

Lemma indexes_proto l : ∀ i acc,
  reduce_from (λ acc v i, put acc (key v) i) i l acc !! "__proto__"
  = acc !! "__proto__".
Proof.
  induction l as [|v l IH]; intros i acc; [done|].
  cbn [reduce_from]. by rewrite IH, put_lookup_proto.
Qed.

Lemma indexes_unique l : ∀ i acc j v,
  NoDup (key <$> l) → l !! j = Some v → key v ≠ "__proto__" →
  reduce_from (λ acc v i, put acc (key v) i) i l acc !! key v = Some (i + j).
Proof.
  induction l as [|v0 l IH]; intros i acc j v Hnd Hj Hkey; [done|].
  cbn in Hnd. apply NoDup_cons in Hnd as [Hv0 Hnd].
  cbn [reduce_from].
  destruct j as [|j]; cbn in Hj.
  - injection Hj as ->. rewrite indexes_other by done.
    rewrite put_lookup_eq by done. f_equal. lia.
  - rewrite (IH _ _ j) by done. f_equal. lia.
Qed.

End keyed.

(** X20.  The columns of a table are numbered from 0 in the order of the
    statement: the name at position [i] is sent to [i], a name that the
    table does not have is sent to nothing, and so is ["__proto__"],
    even as the name of a column. *)
Theorem imported_columns names rows :
  NoDup names →
  (∀ i name, names !! i = Some name → name ≠ "__proto__" →
             columns (imported names rows) !! name = Some i)
  ∧ (∀ name, name ∉ names → columns (imported names rows) !! name = None)
  ∧ columns (imported names rows) !! "__proto__" = None.
Proof.
  intros Hnd. unfold imported, reduce, prepareColumns. cbn [columns]. split_and!.
  - intros i name Hi Hname.
    rewrite (indexes_unique id names 0 ∅ i name); [done|by rewrite list_fmap_id|done..].
  - intros name Hname. rewrite (indexes_other id); [done|by rewrite list_fmap_id].
  - by rewrite (indexes_proto id).
Qed.

Lemma imported_columns_witness :
  NoDup ["id"; "ua_string"; "class_id"]
  ∧ columns (imported ["id"; "ua_string"; "class_id"] []) !! "class_id" = Some 2.
Proof.
  assert (NoDup ["id"; "ua_string"; "class_id"]) as Hnd
    by (refine (bool_decide_unpack _ _); vm_compute; exact I).
  split; [done|].
  by apply (imported_columns ["id"; "ua_string"; "class_id"] [] Hnd).
Defined.

(** The ids of a table as the keys of [mapIndexesByID]. *)
Lemma mapIndexesByID_unique t j r :
  NoDup (ids t) → data t !! j = Some r →
  Js.to_str (read r (columns t !! "id")) ≠ "__proto__" →
  mapIndexesByID t !! Js.to_str (read r (columns t !! "id")) = Some j.
Proof.
  intros Hnd Hj Hid. unfold mapIndexesByID, reduce.
  by rewrite (indexes_unique (λ v, Js.to_str (read v (columns t !! "id")))
                (data t) 0 ∅ j r).
Qed.

Lemma mapIndexesByID_other t s :
  s ∉ ids t → mapIndexesByID t !! s = None.
Proof.
  intros Hs. unfold mapIndexesByID, reduce.
  by rewrite (indexes_other (λ v, Js.to_str (read v (columns t !! "id")))).
Qed.

Lemma prototype_keys_proto : "__proto__" ∈ Js.object_prototype_keys.
Proof. refine (bool_decide_unpack _ _). vm_compute. exact I. Qed.

(** What the lookup [rightIndexes[v]] gives for a foreign id [v] that
    names no member of [Object.prototype]. *)
Lemma index_of_id t v :
  NoDup (ids t) → Js.to_str v ∉ Js.object_prototype_keys →
  (∃ j r, data t !! j = Some r
          ∧ Js.to_str (read r (columns t !! "id")) = Js.to_str v
          ∧ index_of (mapIndexesByID t) v = Some (JNum (Z.of_nat j)))
  ∨ ((Js.to_str v ∉ ids t) ∧ index_of (mapIndexesByID t) v = Some JUndef).
Proof.
  intros Hnd Hplain. unfold index_of.
  destruct (decide (Js.to_str v ∈ ids t)) as [Hin|Hnotin].
  - left. unfold ids in Hin. apply list_elem_of_fmap in Hin as (r & Hr & Hin).
    apply list_elem_of_lookup in Hin as [j Hj]. exists j, r.
    split; [done|]. split; [done|]. cbv beta in Hr. rewrite Hr.
    rewrite (mapIndexesByID_unique t j r); [done|done|done|].
    rewrite <-Hr. intros Hp. apply Hplain. rewrite Hp. apply prototype_keys_proto.
  - right. split; [done|]. rewrite mapIndexesByID_other by done.
    by rewrite bool_decide_false.
Qed.


Lemma read_write_eq r c x : read (write r c x) c = x.
Proof.
  destruct c as [n|]; cbn [read write cells]; [|done].
  case_decide as Hn.
  - by rewrite list_lookup_insert_eq.
  - rewrite lookup_app_r by lia. rewrite lookup_app_r by (rewrite length_replicate; lia).
    rewrite length_replicate. by replace (n - length (cells r) - (n - length (cells r))) with 0 by lia.
Qed.

Lemma read_write_ne r c c' x : c' ≠ c → read (write r c x) c' = read r c'.
Proof.
  intros Hc. destruct c as [n|], c' as [n'|]; cbn [read write cells undefined_]; try done.
  assert (n ≠ n') as Hn by congruence.
  case_decide as Hlt.
  - by rewrite list_lookup_insert_ne.
  - destruct (decide (n' < length (cells r))) as [Hn'|Hn'].
    + by rewrite lookup_app_l.
    + rewrite (lookup_ge_None_2 (cells r) n') by lia. cbn [default].
      rewrite lookup_app_r by lia.
      destruct (decide (n' < n)) as [Hlt'|Hge].
      * rewrite lookup_app_l by (rewrite length_replicate; lia).
        by rewrite lookup_replicate_2 by lia.
      * rewrite lookup_app_r by (rewrite length_replicate; lia).
        rewrite length_replicate.
        by rewrite lookup_ge_None_2 by (cbn; lia).
Qed.

(** X21.  One pass of the loop over the relationships, for foreign ids
    that name no member of [Object.prototype] and a table whose ids
    differ from one another: every row of the left table is kept, at its
    place and with its other cells; its foreign id is replaced by the
    position, in the right table, of the row with this id (compared as
    the names of properties are), or by [undefined] when no row has
    it. *)
Theorem replace_foreign_rows output leftTable foreignColumn rightTable l r :
  output !! leftTable = Some l →
  output !! rightTable = Some r →
  NoDup (ids r) →
  (∀ row, row ∈ data l → plain (read row (columns l !! foreignColumn))) →
  let c := columns l !! foreignColumn in
  ∃ rows,
    replace_foreign output (leftTable, foreignColumn, rightTable)
    = Done (<[leftTable := {| columns := columns l; data := rows |}]> output)
    ∧ length rows = length (data l)
    ∧ ∀ i row, data l !! i = Some row →
        ∃ row', rows !! i = Some row'
          ∧ (∀ c', c' ≠ c → read row' c' = read row c')
          ∧ ((∃ j target,
                data r !! j = Some target
                ∧ Js.to_str (read target (columns r !! "id")) = Js.to_str (read row c)
                ∧ read row' c = JNum (Z.of_nat j))
             ∨ ((Js.to_str (read row c) ∉ ids r) ∧ read row' c = JUndef)).
Proof.
  intros Hl Hr Hnd Hplain c. unfold replace_foreign. rewrite Hl, Hr. fold c.
  assert (is_Some (mapM (replace_in_row c (mapIndexesByID r)) (data l))) as [rows Hrows].
  { apply mapM_is_Some, Forall_forall. intros row Hrow. unfold replace_in_row. cbn.
    destruct (index_of_id r (read row c) Hnd (Hplain row Hrow))
      as [(j & target & _ & _ & ->)|[_ ->]]; by eexists. }
  rewrite Hrows. exists rows. split; [done|].
  split; [symmetry; by eapply length_mapM|].
  intros i row Hi. apply mapM_Some_1 in Hrows.
  destruct (Forall2_lookup_l _ _ _ _ _ Hrows Hi) as (row' & Hi' & Hrow').
  exists row'. split; [done|]. unfold replace_in_row in Hrow'.
  assert (row ∈ data l) as Hin by (by eapply list_elem_of_lookup_2).
  destruct (index_of_id r (read row c) Hnd (Hplain row Hin))
    as [(j & target & Hj & Hid & Hix)|[Hnone Hix]];
    rewrite Hix in Hrow'; injection Hrow' as <-.
  - split; [intros c' Hc'; by apply read_write_ne|]. left.
    exists j, target. by rewrite read_write_eq.
  - split; [intros c' Hc'; by apply read_write_ne|]. right.
    by rewrite read_write_eq.
Qed.

Lemma replace_foreign_rows_witness :
  NoDup (ids sample_classes)
  ∧ ∃ rows,
      replace_foreign sample_output
        ("udger_crawler_list", "class_id", "udger_crawler_class")
      = Done (<["udger_crawler_list" :=
                 {| columns := columns sample_crawlers; data := rows |}]> sample_output)
      ∧ length rows = 2.
Proof.
  assert (NoDup (ids sample_classes)) as Hnd
    by (refine (bool_decide_unpack _ _); vm_compute; exact I).
  split; [done|].
  destruct (replace_foreign_rows sample_output
              "udger_crawler_list" "class_id" "udger_crawler_class"
              sample_crawlers sample_classes)
    as (rows & Hrun & Hlen & _); [done|done|done| |by exists rows].
  apply Forall_forall. unfold plain.
  refine (bool_decide_unpack _ _). vm_compute. exact I.
Defined.

(** The two rows of the example after the pass: the id 10 has become the
    position 1, the id 77, which no class has, [undefined]. *)
Lemma replace_foreign_sample :
  (λ out, (λ t, cells <$> data t) <$> out !! "udger_crawler_list")
    <$> (match replace_foreign sample_output
                 ("udger_crawler_list", "class_id", "udger_crawler_class") with
         | Done out => Some out
         | _ => None
         end)
  = Some (Some [[JNum 4; JStr "Googlebot/2.1"; JNum 1];
                [JNum 9; JStr "Examplebot/1.0"; JUndef]]).
Proof. vm_compute. reflexivity. Qed.

(** X22.  The position that the conversion writes is the one the parser
    reads: for a foreign id that names no member of [Object.prototype]
    and a table whose ids differ from one another, the cell written,
    read back from the JSON file, selects the row with this id in the
    table as the parser loads it; and when no row has the id, the cell
    is written [null], selects no row, and every join on it gives the
    empty record. *)
Theorem foreign_key_round_trip t v :
  NoDup (ids t) → plain v →
  ∃ x, index_of (mapIndexesByID t) v = Some x
    ∧ ((∃ j r, data t !! j = Some r
               ∧ Js.to_str (read r (columns t !! "id")) = Js.to_str v
               ∧ row_at (exported t) (json_cell x) = RRow (json_cell <$> cells r))
       ∨ ((Js.to_str v ∉ ids t)
          ∧ json_cell x = JNull
          ∧ ∀ T keys rename,
              map T (row_at (exported t) (json_cell x)) keys rename = ∅)).
Proof.
  intros Hnd Hplain.
  destruct (index_of_id t v Hnd Hplain) as [(j & r & Hj & Hid & ->)|[Hnone ->]];
    eexists; (split; [done|]).
  - left. exists j, r. split; [done|]. split; [done|].
    unfold row_at, exported. cbn [json_cell Js.array_index Table.data].
    rewrite (proj2 (Z.leb_le 0 (Z.of_nat j))) by lia. rewrite Nat2Z.id.
    by rewrite list_lookup_fmap, Hj.
  - right. split; [done|]. split; [done|]. done.
Qed.

Lemma foreign_key_round_trip_witness :
  NoDup (ids sample_classes) ∧ plain (JNum 10)
  ∧ ∃ x, index_of (mapIndexesByID sample_classes) (JNum 10) = Some x
      ∧ ((∃ j r, data sample_classes !! j = Some r
                 ∧ Js.to_str (read r (columns sample_classes !! "id"))
                   = Js.to_str (JNum 10)
                 ∧ row_at (exported sample_classes) (json_cell x)
                   = RRow (json_cell <$> cells r))
         ∨ ((Js.to_str (JNum 10) ∉ ids sample_classes)
            ∧ json_cell x = JNull
            ∧ ∀ T keys rename,
                map T (row_at (exported sample_classes) (json_cell x)) keys rename = ∅)).
Proof.
  assert (NoDup (ids sample_classes)) as Hnd
    by (refine (bool_decide_unpack _ _); vm_compute; exact I).
  assert (plain (JNum 10)) as Hplain
    by (unfold plain; refine (bool_decide_unpack _ _); vm_compute; exact I).
  split; [done|]. split; [done|].
  exact (foreign_key_round_trip sample_classes (JNum 10) Hnd Hplain).
Defined.

(** The decimal text of an integer is made of digits and a sign. *)
Lemma pretty_N_char_digit x : Js.is_digit (pretty_N_char x) = true.
Proof. unfold pretty_N_char. by repeat case_match. Qed.

Lemma pretty_N_go_digits x : ∀ s,
  Forall (λ c, sign_or_digit c = true) (list_ascii_of_string s) →
  Forall (λ c, sign_or_digit c = true) (list_ascii_of_string (pretty_N_go x s)).
Proof.
  induction (N.lt_wf_0 x) as [x _ IH]. intros s Hs.
  destruct (decide (0 < x)%N) as [Hx|Hx].
  - rewrite pretty_N_go_step by done. apply IH.
    + by apply N.div_lt.
    + cbn. constructor; [|done]. unfold sign_or_digit.
      by rewrite pretty_N_char_digit.
  - assert (x = 0%N) as -> by lia. by rewrite pretty_N_go_0.
Qed.

Lemma pretty_Z_digits (z : Z) :
  Forall (λ c, sign_or_digit c = true) (list_ascii_of_string (pretty z)).
Proof.
  assert (∀ p : positive,
            Forall (λ c, sign_or_digit c = true) (list_ascii_of_string (pretty p)))
    as Hpos.
  { intros p. unfold pretty, pretty_positive, pretty, pretty_N.
    rewrite decide_False by done. apply pretty_N_go_digits. constructor. }
  destruct z as [|p|p]; unfold pretty, pretty_Z.
  - by repeat constructor.
  - apply Hpos.
  - cbn. constructor; [done|]. apply Hpos.
Qed.

Lemma plain_number z : plain (JNum z).
Proof.
  unfold plain. cbn [Js.to_str]. intros Hin.
  pose proof (pretty_Z_digits z) as Hdigits.
  revert Hin Hdigits. generalize (pretty z). intros s Hin.
  assert (Forall (λ key, ¬ Forall (λ c, sign_or_digit c = true)
                             (list_ascii_of_string key))
            Js.object_prototype_keys) as Hkeys.
  { refine (bool_decide_unpack _ _). vm_compute. exact I. }
  by apply (proj1 (Forall_forall _ _) Hkeys).
Qed.

Lemma plain_undefined : plain JUndef.
Proof. unfold plain. refine (bool_decide_unpack _ _). vm_compute. exact I. Qed.

Lemma plain_write r c x : plain_row r → plain x → plain_row (write r c x).
Proof.
  intros [Hcells Hundef] Hx. destruct c as [n|]; [|by split]. split; [|done].
  cbn [write cells]. case_decide.
  - by apply Forall_insert.
  - apply Forall_app. split; [done|]. apply Forall_app. split.
    + apply Forall_replicate. apply plain_undefined.
    + by repeat constructor.
Qed.

Lemma index_of_plain ix v :
  plain v → ∃ x, index_of ix v = Some x ∧ plain x.
Proof.
  intros Hv. unfold index_of. destruct (ix !! Js.to_str v) as [i|].
  - eexists. split; [done|]. apply plain_number.
  - rewrite bool_decide_false by done. eexists. split; [done|]. apply plain_undefined.
Qed.

(** One pass on tables whose cells are plain. *)
Lemma replace_foreign_plain output leftTable foreignColumn rightTable :
  is_Some (output !! leftTable) → is_Some (output !! rightTable) →
  (∀ name t, output !! name = Some t → plain_table t) →
  ∃ l rows,
    output !! leftTable = Some l
    ∧ replace_foreign output (leftTable, foreignColumn, rightTable)
      = Done (<[leftTable := {| columns := columns l; data := rows |}]> output)
    ∧ length rows = length (data l)
    ∧ Forall plain_row rows.
Proof.
  intros [l Hl] [r Hr] Hplain. exists l. unfold replace_foreign. rewrite Hl, Hr.
  set (c := columns l !! foreignColumn).
  pose proof (Hplain _ _ Hl) as Hrowsl. unfold plain_table in Hrowsl.
  assert (∀ row, row ∈ data l →
                 ∃ row', replace_in_row c (mapIndexesByID r) row = Some row'
                         ∧ plain_row row') as Hrow.
  { intros row Hin. unfold replace_in_row.
    pose proof (proj1 (Forall_forall _ _) Hrowsl row Hin) as Hr0.
    assert (plain (read row c)) as Hread.
    { destruct Hr0 as [Hcells Hundef]. destruct c as [n|]; cbn [read]; [|done].
      destruct (cells row !! n) as [x|] eqn:Hn; cbn [default]; [|apply plain_undefined].
      apply (proj1 (Forall_forall _ _) Hcells). by eapply list_elem_of_lookup_2. }
    destruct (index_of_plain (mapIndexesByID r) (read row c) Hread) as (x & -> & Hx).
    eexists. split; [done|]. by apply plain_write. }
  assert (is_Some (mapM (replace_in_row c (mapIndexesByID r)) (data l))) as [rows Hrows].
  { apply mapM_is_Some, Forall_forall. intros row Hin.
    destruct (Hrow row Hin) as (row' & Hrow' & _). cbn. by rewrite Hrow'. }
  rewrite Hrows. exists rows. split; [done|]. split; [done|].
  split; [symmetry; by eapply length_mapM|].
  apply mapM_Some_1 in Hrows. apply Forall_forall. intros row' Hin'.
  apply list_elem_of_lookup in Hin' as [i Hi].
  destruct (Forall2_lookup_r _ _ _ _ _ Hrows Hi) as (row & Hi0 & Heq).
  destruct (Hrow row) as (row'' & Heq' & Hp); [by eapply list_elem_of_lookup_2|].
  rewrite Heq in Heq'. by injection Heq' as <-.
Qed.

Lemma replace_all_plain rels : ∀ output,
  (∀ name, name ∈ rels.*1.*1 ++ rels.*2 → is_Some (output !! name)) →
  (∀ name t, output !! name = Some t → plain_table t) →
  ∃ output', replace_all rels output = Done output'
    ∧ (∀ name t, output !! name = Some t →
         ∃ t', output' !! name = Some t'
               ∧ columns t' = columns t ∧ length (data t') = length (data t))
    ∧ (∀ name, name ∉ rels.*1.*1 → output' !! name = output !! name).
Proof.
  induction rels as [|[[leftTable foreignColumn] rightTable] rels IH];
    intros output Hthere Hplain; cbn [replace_all].
  - exists output. split; [done|]. split; [intros name t Ht; by exists t|done].
  - destruct (replace_foreign_plain output leftTable foreignColumn rightTable)
      as (l & rows & Hl & -> & Hlen & Hrows).
    { apply Hthere. cbn. left. }
    { apply Hthere. apply elem_of_app. right. cbn. left. }
    { done. }
    set (output1 := <[leftTable := _]> output).
    assert (∀ name t, output !! name = Some t →
              ∃ t', output1 !! name = Some t'
                    ∧ columns t' = columns t ∧ length (data t') = length (data t))
      as Hshape1.
    { intros name t Ht. unfold output1.
      destruct (decide (leftTable = name)) as [->|Hne].
      - rewrite lookup_insert_eq. eexists. split; [done|].
        rewrite Hl in Ht. injection Ht as <-. by split.
      - rewrite lookup_insert_ne by done. by exists t. }
    destruct (IH output1) as (output' & -> & Hshape & Hother).
    { intros name Hname.
      destruct (Hthere name) as [t Ht].
      { cbn [fmap list_fmap fst snd app]. right.
        apply elem_of_app in Hname as [Hname|Hname]; apply elem_of_app;
          [by left|right; by right]. }
      destruct (Hshape1 name t Ht) as (t' & -> & _). by eexists. }
    { intros name t. unfold output1.
      destruct (decide (leftTable = name)) as [->|Hne].
      - rewrite lookup_insert_eq. intros [= <-]. exact Hrows.
      - rewrite lookup_insert_ne by done. apply Hplain. }
    exists output'. split; [done|]. split.
    + intros name t Ht. destruct (Hshape1 name t Ht) as (t1 & Ht1 & Hc1 & Hl1).
      destruct (Hshape name t1 Ht1) as (t' & Ht' & Hc' & Hl').
      exists t'. split; [done|]. split; congruence.
    + intros name Hname. cbn in Hname. apply not_elem_of_cons in Hname as [Hne Hname].
      rewrite Hother by done. unfold output1. by rewrite lookup_insert_ne.
Qed.

(** X23.  With the tables that the relationships name in place and no
    cell that names a member of [Object.prototype], the block that
    replaces the foreign ids runs to its end; it keeps every table, with
    its columns and the number of its rows, and leaves a table that is
    on the left of no relationship as it is. *)
Theorem replace_foreign_ids_runs output :
  (∀ name, name ∈ related_tables → is_Some (output !! name)) →
  (∀ name t, output !! name = Some t → plain_table t) →
  ∃ output', replace_foreign_ids output = Done output'
    ∧ (∀ name t, output !! name = Some t →
         ∃ t', output' !! name = Some t'
               ∧ columns t' = columns t ∧ length (data t') = length (data t))
    ∧ (∀ name, name ∉ relationships.*1.*1 → output' !! name = output !! name).
Proof. apply replace_all_plain. Qed.

Lemma replace_foreign_ids_runs_witness :
  (∀ name, name ∈ related_tables → is_Some (sample_database !! name))
  ∧ (∀ name t, sample_database !! name = Some t → plain_table t)
  ∧ ∃ output', replace_foreign_ids sample_database = Done output'
      ∧ output' !! "udger_crawler_class" = sample_database !! "udger_crawler_class".
Proof.
  assert (∀ name, name ∈ related_tables → is_Some (sample_database !! name)) as Hthere.
  { apply Forall_forall. refine (bool_decide_unpack _ _). vm_compute. exact I. }
  assert (∀ name t, sample_database !! name = Some t → plain_table t) as Hplain.
  { change (map_Forall (λ _ t, plain_table t) sample_database).
    unfold plain_table, plain_row, plain.
    refine (bool_decide_unpack _ _). vm_compute. exact I. }
  split; [done|]. split; [done|].
  destruct (replace_foreign_ids_runs sample_database Hthere Hplain)
    as (output' & Hrun & _ & Hother).
  exists output'. split; [done|]. apply Hother.
  refine (bool_decide_unpack _ _). vm_compute. exact I.
Defined.

Lemma replace_all_missing rels : ∀ output name,
  (∀ name t, output !! name = Some t → plain_table t) →
  name ∈ rels.*1.*1 ++ rels.*2 → output !! name = None →
  replace_all rels output = TypeError.
Proof.
  induction rels as [|[[leftTable foreignColumn] rightTable] rels IH];
    intros output name Hplain Hname Hnone; cbn [replace_all].
  { by apply elem_of_nil in Hname. }
  destruct (output !! leftTable) as [l|] eqn:Hl;
    [|by unfold replace_foreign; rewrite Hl].
  destruct (output !! rightTable) as [r|] eqn:Hr;
    [|by unfold replace_foreign; rewrite Hl, Hr].
  destruct (replace_foreign_plain output leftTable foreignColumn rightTable)
    as (l' & rows & _ & -> & _ & Hrows); [by eexists|by eexists|done|].
  assert (name ≠ leftTable) as Hnl by congruence.
  assert (name ≠ rightTable) as Hnr by congruence.
  apply (IH _ name).
  - intros name' t.
    destruct (decide (leftTable = name')) as [->|Hne].
    + rewrite lookup_insert_eq. intros [= <-]. exact Hrows.
    + rewrite lookup_insert_ne by done. apply Hplain.
  - cbn [fmap list_fmap fst snd app] in Hname.
    apply elem_of_cons in Hname as [->|Hname]; [done|].
    apply elem_of_app in Hname as [Hname|Hname]; apply elem_of_app; [by left|].
    apply elem_of_cons in Hname as [->|Hname]; [done|by right].
  - by rewrite lookup_insert_ne.
Qed.

(** X24.  When one of the tables that the relationships name is missing,
    the block stops with a [TypeError], whatever the tables that are
    there hold (cells that name a member of [Object.prototype] apart). *)
Theorem replace_foreign_ids_missing_table output name :
  (∀ name t, output !! name = Some t → plain_table t) →
  name ∈ related_tables → output !! name = None →
  replace_foreign_ids output = TypeError.
Proof. apply replace_all_missing. Qed.

Lemma replace_foreign_ids_missing_table_witness :
  "udger_os_list" ∈ related_tables
  ∧ sample_output !! "udger_os_list" = None
  ∧ replace_foreign_ids sample_output = TypeError.
Proof.
  assert ("udger_os_list" ∈ related_tables) as Hin
    by (refine (bool_decide_unpack _ _); vm_compute; exact I).
  split; [done|]. split; [done|].
  apply (replace_foreign_ids_missing_table sample_output "udger_os_list"); [|done..].
  change (map_Forall (λ _ t, plain_table t) sample_output).
  unfold plain_table, plain_row, plain.
  refine (bool_decide_unpack _ _). vm_compute. exact I.
Defined.

End convert.

(** ** More on the stages of [parseUa] and [parseIp] *)

(** The device class loop stops at the first row whose pattern matches. *)
Lemma deviceclass_loop_first_match H this opts ua pre row post e : ∀ v,
  (∀ r, r ∈ pre → deviceclass_pattern_match H this ua r = None) →
  deviceclass_pattern_match H this ua row = Some e →
  deviceclass_loop H this opts ua (pre ++ row :: post) v
  = deviceclass_found this opts row v.
Proof.
  unfold deviceclass_pattern_match.
  induction pre as [|r0 pre IH]; intros v Hpre Hrow; cbn [app deviceclass_loop].
  - by rewrite Hrow.
  - rewrite (Hpre r0) by left. rewrite IH; [done| |done].
    intros r Hr. apply Hpre. by right.
Qed.

(** X25.  The patterns of [udger_deviceclass_regex] are tried in the
    order of the table and the first that matches decides the device
    class: its fields come from the row of [udger_deviceclass_list] that
    the pattern refers to, and the second device class stage and the
    device marketname stage leave them as they are.  The address in
    [device_class_info_url] ends with the name as a text, without the
    default that the other fields have.  (The joined [deviceclass_id] is
    taken not to equal 0, or the second stage may run.) *)
Theorem deviceclass_first_match H this ua opts pre row post e :
  ua ≠ "" →
  Table.data (udger_deviceclass_regex (data this)) = pre ++ row :: post →
  (∀ r, r ∈ pre → deviceclass_pattern_match H this ua r = None) →
  deviceclass_pattern_match H this ua row = Some e →
  Js.loose_eq_num (get (deviceclass_join this row) "deviceclass_id") 0 = false →
  let res := udger (parseUa H this (Some ua) opts) in
  let r := deviceclass_join this row in
  res !! "device_class" = Some (get_or_empty r "name")
  ∧ res !! "device_class_code" = Some (get_or_empty r "name_code")
  ∧ res !! "device_class_icon" = Some (get_or_empty r "icon")
  ∧ res !! "device_class_icon_big" = Some (get_or_empty r "icon_big")
  ∧ res !! "device_class_info_url"
    = Some (JStr ("https://udger.com/resources/ua-list/device-detail?device="
                  +:+ Js.to_str (get r "name"))).
Proof.
  intros Hua Hdata Hpre Hrow Hid res r. subst res.
  rewrite parseUa_stages by done. cbn [udger]. unfold ua_stages, later_stages. cbv zeta.
  set (v2 := os_relation_stage this opts _).
  rewrite !devicename_stage_frame
    by (refine (bool_decide_unpack _ _); vm_compute; exact I).
  unfold deviceclass_stage. rewrite Hdata.
  rewrite (deviceclass_loop_first_match H this opts ua pre row post e) by done.
  assert (deviceclass_fallback_stage this opts (deviceclass_found this opts row v2)
          = deviceclass_found this opts row v2) as ->.
  { unfold deviceclass_fallback_stage, deviceclass_fallback_attempted.
    assert (deviceclass_id (deviceclass_found this opts row v2)
            = get (deviceclass_join this row) "deviceclass_id") as -> by done.
    by rewrite Hid. }
  assert (rua (deviceclass_found this opts row v2)
          = <["device_class_info_url" :=
                JStr ("https://udger.com/resources/ua-list/device-detail?device="
                      +:+ Js.to_str (get r "name"))]>
              (<["device_class_icon_big" := get_or_empty r "icon_big"]>
                 (<["device_class_icon" := get_or_empty r "icon"]>
                    (<["device_class_code" := get_or_empty r "name_code"]>
                       (<["device_class" := get_or_empty r "name"]> (rua v2))))))
    as -> by done.
  split_and!; by simplify_map_eq.
Qed.

Lemma deviceclass_first_match_witness :
  let ua := "Mozilla/5.0 (Linux; Android 6.0.1; Nexus 5X) Mobile Safari/537.36" in
  let res := udger (parseUa Sample.helpers Demo.ready (Some ua) Demo.classic) in
  (∃ e, deviceclass_pattern_match Sample.helpers Demo.ready ua [JNum 1; JStr "/Mobile/si"]
        = Some e)
  ∧ res !! "device_class"
    = Some (get_or_empty (deviceclass_join Demo.ready [JNum 1; JStr "/Mobile/si"]) "name")
  ∧ get_or_empty (deviceclass_join Demo.ready [JNum 1; JStr "/Mobile/si"]) "name"
    = JStr "Smartphone".
Proof.
  intros ua res.
  assert (deviceclass_pattern_match Sample.helpers Demo.ready ua [JNum 1; JStr "/Mobile/si"]
          = Some [Some "Mobile"]) as Hrow by (by vm_compute).
  split; [by eexists|].
  destruct (deviceclass_first_match Sample.helpers Demo.ready ua Demo.classic
              [] [JNum 1; JStr "/Mobile/si"] [] [Some "Mobile"]) as (Hclass & _).
  - done.
  - done.
  - intros r0 Hr0. by apply elem_of_nil in Hr0.
  - exact Hrow.
  - by vm_compute.
  - split; [exact Hclass|by vm_compute].
Defined.

(** X26.  An address that a row of [udger_ip_list] has under its
    canonical text gets its fields from the first such row, with the
    class of the address, the crawler it refers to and the class of that
    crawler joined, each field defaulting to the empty string; the
    datacenter stage leaves these fields as they are. *)
Theorem parseIp_listed_address H this ip opts q :
  ip ≠ "" →
  List.find (is_ip_row this (canonical H ip)) (Table.data (udger_ip_list (data this)))
  = Some q →
  let res := udger (parseIp H this (Some ip) opts) in
  let r := ip_join this q in
  res !! "ip" = Some (JStr ip)
  ∧ res !! "ip_ver" = Some (getIpVersion H ip)
  ∧ res !! "ip_classification" = Some (get_or_empty r "ip_classification")
  ∧ res !! "ip_classification_code" = Some (get_or_empty r "ip_classification_code")
  ∧ res !! "ip_hostname" = Some (get_or_empty r "ip_hostname")
  ∧ res !! "ip_country_code" = Some (get_or_empty r "ip_country_code")
  ∧ res !! "crawler_name" = Some (get_or_empty r "name")
  ∧ res !! "crawler_family" = Some (get_or_empty r "family")
  ∧ res !! "crawler_category" = Some (get_or_empty r "crawler_classification").
Proof.
  intros Hip Hfind res r. subst res. rewrite parseIp_udger by done.
  unfold ip_core, ip_stages.
  set (start := <["ip_ver" := getIpVersion H ip]> (json_clone (retIp this))).
  set (j0 := if full opts then _ else _).
  assert (ip_lookup_stage this opts (canonical H ip) start j0
          = ip_found this opts q start j0) as ->.
  { unfold ip_lookup_stage.
    assert (findBy (udger_ip_list (data this))
              (λ row cols, Js.strict_eq (cell (RRow row) (cols !! "ip"))
                             (JStr (canonical H ip))) = Some q) as -> by exact Hfind.
    done. }
  unfold ip_found. rewrite ip_fields_runs. fold r.
  set (rip1 := assign (ip_found_assignments r) start).
  set (j1 := json_sets _ j0).
  assert (∀ k, k ∉ datacenter_keys →
               (datacenter_stage H this opts (getIpVersion H ip) (canonical H ip) rip1 j1).1
               !! k = rip1 !! k) as Hframe.
  { intros k Hk. by apply datacenter_stage_frame. }
  assert (rip1 !! "ip_ver" = Some (getIpVersion H ip)) as Hver.
  { unfold rip1. rewrite assign_lookup_ne.
    - unfold start. by rewrite lookup_insert_eq.
    - apply ip_found_assignments_keys. refine (bool_decide_unpack _ _).
      vm_compute. exact I. }
  assert (rip1 !! "ip_classification" = Some (get_or_empty r "ip_classification")
          ∧ rip1 !! "ip_classification_code"
            = Some (get_or_empty r "ip_classification_code")
          ∧ rip1 !! "ip_hostname" = Some (get_or_empty r "ip_hostname")
          ∧ rip1 !! "ip_country_code" = Some (get_or_empty r "ip_country_code")
          ∧ rip1 !! "crawler_name" = Some (get_or_empty r "name")
          ∧ rip1 !! "crawler_family" = Some (get_or_empty r "family")
          ∧ rip1 !! "crawler_category" = Some (get_or_empty r "crawler_classification"))
    as (H1 & H2 & H3 & H4 & H5 & H6 & H7).
  { unfold rip1, assign, ip_found_assignments.
    destruct (Js.strict_eq _ _); cbn [app foldl fst snd];
      split_and!;
      (repeat (rewrite lookup_insert_ne by done)); apply lookup_insert_eq. }
  split_and!; [by rewrite lookup_insert_eq|..];
    (rewrite lookup_insert_ne by done;
     rewrite Hframe by (refine (bool_decide_unpack _ _); vm_compute; exact I);
     done).
Qed.

Lemma parseIp_listed_address_witness :
  let res := udger (parseIp Sample.helpers Demo.ready (Some "66.249.64.73") Demo.classic) in
  (∃ q, List.find (is_ip_row Demo.ready (canonical Sample.helpers "66.249.64.73"))
          (Table.data (udger_ip_list (data Demo.ready))) = Some q
        ∧ res !! "ip_classification" = Some (get_or_empty (ip_join Demo.ready q) "ip_classification")
        ∧ res !! "crawler_name" = Some (get_or_empty (ip_join Demo.ready q) "name")
        ∧ get_or_empty (ip_join Demo.ready q) "ip_classification" = JStr "Crawler"
        ∧ get_or_empty (ip_join Demo.ready q) "name" = JStr "Googlebot/2.1").
Proof.
  intros res.
  exists [JStr "66.249.64.73"; JNum 1; JNum 0; JStr "2017-01-06";
          JStr "crawl-66-249-64-73.googlebot.com"; JStr "United States";
          JStr "Mountain View"; JStr "US"].
  split; [by vm_compute|].
  destruct (parseIp_listed_address Sample.helpers Demo.ready "66.249.64.73" Demo.classic
              [JStr "66.249.64.73"; JNum 1; JNum 0; JStr "2017-01-06";
               JStr "crawl-66-249-64-73.googlebot.com"; JStr "United States";
               JStr "Mountain View"; JStr "US"])
    as (_ & _ & Hclass & _ & _ & _ & Hname & _); [done|by vm_compute|].
  split; [exact Hclass|]. split; [exact Hname|]. split; by vm_compute.
Defined.

(** X27.  For an IPv6 address the datacenter is the one of the first row
    of [udger_datacenter_range6], in the order of the table, whose eight
    pairs of bounds hold the eight groups of the canonical address; the
    three datacenter fields come from the row of [udger_datacenter_list]
    it refers to. *)
Theorem parseIp_datacenter_range6 H this ip opts q :
  ip ≠ "" →
  getIpVersion H ip = JNum 6 →
  List.find (in_range6_row this (address6_groups H (inetNtop H (inetPton H ip))))
    (Table.data (udger_datacenter_range6 (data this))) = Some q →
  let res := udger (parseIp H this (Some ip) opts) in
  let r := datacenter_join this (udger_datacenter_range6 (data this)) q in
  res !! "datacenter_name" = Some (get_or_empty r "name")
  ∧ res !! "datacenter_name_code" = Some (get_or_empty r "name_code")
  ∧ res !! "datacenter_homepage" = Some (get_or_empty r "homepage").
Proof.
  intros Hip Hver Hfind res r. subst res. rewrite parseIp_udger by done.
  assert (canonical H ip = inetNtop H (inetPton H ip)) as Hcanon.
  { unfold canonical. rewrite Hver. done. }
  rewrite Hcanon, Hver. unfold ip_core, ip_stages.
  destruct (ip_lookup_stage this opts _ _ _) as [rip1 j1].
  unfold datacenter_stage.
  assert (Js.strict_eq (JNum 6) (JNum 4) = false) as -> by done.
  assert (Js.strict_eq (JNum 6) (JNum 6) = true) as -> by done.
  assert (findBy (udger_datacenter_range6 (data this))
            (λ row cols,
               forallb (in_range6 row cols
                          (address6_groups H (inetNtop H (inetPton H ip)))) (seq 0 8))
          = Some q) as -> by exact Hfind.
  unfold datacenter_found. rewrite datacenter_fields_runs. cbn [fst]. fold r.
  unfold assign, datacenter_assignments. cbn [foldl fst snd].
  split_and!; by simplify_map_eq.
Qed.

Lemma parseIp_datacenter_range6_witness :
  let res := udger (parseIp Sample.helpers Demo.ready (Some "2001:0db8:0:0:0:0:0:1")
                      Demo.classic) in
  Sample.getIpVersion "2001:0db8:0:0:0:0:0:1" = JNum 6
  ∧ Sample.inetNtop (Sample.inetPton "2001:0db8:0:0:0:0:0:1") = "2001:db8::1"
  ∧ res !! "datacenter_name" = Some (JStr "Example Hosting").
Proof.
  intros res.
  assert (Sample.getIpVersion "2001:0db8:0:0:0:0:0:1" = JNum 6) as Hver by (by vm_compute).
  split; [done|]. split; [by vm_compute|].
  destruct (parseIp_datacenter_range6 Sample.helpers Demo.ready "2001:0db8:0:0:0:0:0:1"
              Demo.classic
              [JNum 0; JNum 8193; JNum 3512; JNum 0; JNum 0; JNum 0; JNum 0; JNum 0;
               JNum 0; JNum 8193; JNum 3512; JNum 65535; JNum 65535; JNum 65535;
               JNum 65535; JNum 65535; JNum 65535])
    as (Hname & _); [done|done|by vm_compute|].
  subst res. rewrite Hname. by vm_compute.
Defined.

(** The loop of the device marketname stage stops at the first row whose
    pattern matches with a first group that is not empty. *)
Lemma devicename_loop_first_match H this ua pre row post e :
  (∀ r e', r ∈ pre → devicename_pattern_match H this ua r = Some e' →
           Js.truthy (group1 e') = false) →
  devicename_pattern_match H this ua row = Some e →
  Js.truthy (group1 e) = true →
  devicename_loop H this ua (pre ++ row :: post)
  = (JStr (trim H (Js.to_str (group1 e))),
     cell (RRow row) (Table.columns (udger_devicename_regex (data this)) !! "id")).
Proof.
  unfold devicename_pattern_match.
  induction pre as [|r0 pre IH]; intros Hpre Hrow He; cbn [app devicename_loop];
    cbv zeta.
  - by rewrite Hrow, He.
  - destruct (ua_match H (cell (RRow r0) _) ua) as [e'|] eqn:Hr0.
    + rewrite (Hpre r0 e') by (done || left). apply IH; [|done|done].
      intros r e'' Hr. apply Hpre. by right.
    + apply IH; [|done|done]. intros r e'' Hr. apply Hpre. by right.
Qed.

(** X28.  The device marketname stage follows the OS stage: among the
    patterns of [udger_devicename_regex] for the OS family of the result
    (and for its OS or for all), taken in the order of the table, the
    first that matches with a first group that is not empty gives the
    code (the group without the white space around it); the row of
    [udger_devicename_list] with this code for this pattern gives the
    marketname, and the brand it refers to the brand fields. *)
Theorem device_marketname H this ua opts ospre osrow ospost ose pre row post e qC :
  ua ≠ "" →
  Table.data (udger_os_regex (data this)) = ospre ++ osrow :: ospost →
  (∀ r, r ∈ ospre → os_pattern_match H this ua r = None) →
  os_pattern_match H this ua osrow = Some ose →
  Js.loose_eq_num (get (os_join this osrow) "os_id") 0 = false →
  let family := get_or_empty (os_join this osrow) "family_code" in
  let code := get_or_empty (os_join this osrow) "name_code" in
  Js.truthy family = true →
  List.filter (devicename_candidate this family code)
    (Table.data (udger_devicename_regex (data this))) = pre ++ row :: post →
  (∀ r e', r ∈ pre → devicename_pattern_match H this ua r = Some e' →
           Js.truthy (group1 e') = false) →
  devicename_pattern_match H this ua row = Some e →
  Js.truthy (group1 e) = true →
  List.find
    (is_devicename_row this
       (cell (RRow row) (Table.columns (udger_devicename_regex (data this)) !! "id"))
       (JStr (trim H (Js.to_str (group1 e)))))
    (Table.data (udger_devicename_list (data this))) = Some qC →
  let res := udger (parseUa H this (Some ua) opts) in
  let rC := devicename_join this qC in
  res !! "device_marketname" = Some (get_or_empty rC "marketname")
  ∧ res !! "device_brand" = Some (get_or_empty rC "brand")
  ∧ res !! "device_brand_code" = Some (get_or_empty rC "brand_code")
  ∧ res !! "device_brand_homepage" = Some (get_or_empty rC "brand_url").
Proof.
  intros Hua Hosdata Hospre Hosrow Hosid family code Hfamily Hfilter Hpre Hrow He Hfind
    res rC.
  subst res. rewrite parseUa_stages by done. cbn [udger].
  unfold ua_stages, later_stages. cbv zeta.
  set (v1 := crawler_or_client H this opts ua (ua_start this opts ua)).
  unfold os_stage. rewrite Hosdata.
  rewrite (os_loop_first_match H this opts ua ospre osrow ospost ose) by done.
  destruct (os_found_join this opts osrow v1) as [Hrua Hosid'].
  assert (os_relation_stage this opts (os_found this opts osrow v1)
          = os_found this opts osrow v1) as ->.
  { unfold os_relation_stage, os_relation_attempted. by rewrite Hosid', Hosid. }
  set (v4 := deviceclass_fallback_stage this opts _).
  assert (∀ k, k ∈ ["os_family_code"; "os_code"] →
               rua v4 !! k = os_fields (os_join this osrow) (rua v1) !! k) as Hos.
  { intros k Hk. unfold v4.
    assert (k ∉ device_class_keys) as Hdc.
    { revert k Hk. apply Forall_forall.
      refine (bool_decide_unpack _ _). vm_compute. exact I. }
    rewrite deviceclass_fallback_stage_frame by done.
    unfold deviceclass_stage. rewrite deviceclass_loop_frame by done.
    by rewrite Hrua. }
  assert (get (rua v4) "os_family_code" = family) as Hfam.
  { unfold get. rewrite Hos by (refine (bool_decide_unpack _ _); vm_compute; exact I).
    unfold os_fields. cbv zeta. by simplify_map_eq. }
  assert (get (rua v4) "os_code" = code) as Hcode.
  { unfold get. rewrite Hos by (refine (bool_decide_unpack _ _); vm_compute; exact I).
    unfold os_fields. cbv zeta. by simplify_map_eq. }
  unfold devicename_stage. rewrite Hfam, Hcode, Hfamily.
  assert (filterBy (udger_devicename_regex (data this))
            (λ row cols,
               Js.strict_eq (cell (RRow row) (cols !! "os_family_code")) family
               && (Js.strict_eq (cell (RRow row) (cols !! "os_code")) (JStr "-all-")
                   || Js.strict_eq (cell (RRow row) (cols !! "os_code")) code))
          = pre ++ row :: post) as -> by exact Hfilter.
  rewrite (devicename_loop_first_match H this ua pre row post e) by done.
  assert (findBy (udger_devicename_list (data this))
            (λ row0 cols,
               Js.strict_eq (cell (RRow row0) (cols !! "regex_id"))
                 (cell (RRow row)
                    (Table.columns (udger_devicename_regex (data this)) !! "id"))
               && Js.strict_eq (cell (RRow row0) (cols !! "code"))
                    (JStr (trim H (Js.to_str (group1 e)))))
          = Some qC) as -> by exact Hfind.
  fold (devicename_join this qC). fold rC. cbn [rua].
  split_and!; (repeat (rewrite lookup_insert_ne by done)); apply lookup_insert_eq.
Qed.

Lemma device_marketname_witness :
  let ua := "Mozilla/5.0 (Linux; Android 6.0.1; Nexus 5 Build/M4B30Z) Safari/537.36" in
  let res := udger (parseUa Sample.helpers with_nexus (Some ua) Demo.classic) in
  devicename_pattern_match Sample.helpers with_nexus ua nexus_pattern
  = Some [Some "Nexus 5"; Some "5"]
  ∧ res !! "device_marketname" = Some (get_or_empty (devicename_join with_nexus nexus_5) "marketname")
  ∧ get_or_empty (devicename_join with_nexus nexus_5) "marketname" = JStr "Nexus 5"
  ∧ get_or_empty (devicename_join with_nexus nexus_5) "brand" = JStr "LG".
Proof.
  intros ua res.
  assert (devicename_pattern_match Sample.helpers with_nexus ua nexus_pattern
          = Some [Some "Nexus 5"; Some "5"]) as Hrow by (by vm_compute).
  split; [done|].
  destruct (device_marketname Sample.helpers with_nexus ua Demo.classic
              [] Demo.android_pattern [Demo.windows10_pattern; Demo.haiku_pattern]
              [Some "Android"]
              [] nexus_pattern [] [Some "Nexus 5"; Some "5"] nexus_5) as (Hname & _).
  - done.
  - done.
  - intros r0 Hr0. by apply elem_of_nil in Hr0.
  - by vm_compute.
  - by vm_compute.
  - by vm_compute.
  - by vm_compute.
  - intros r0 e' Hr0. by apply elem_of_nil in Hr0.
  - exact Hrow.
  - by vm_compute.
  - by vm_compute.
  - split; [exact Hname|]. split; by vm_compute.
Defined.

(** * Foreign keys that refer to no row *)

Import Joins.

Lemma get_or_empty_None (r : gmap string jsval) k :
  r !! k = None → get_or_empty r k = JStr "".
Proof. intros Hk. unfold get_or_empty, get. by rewrite Hk. Qed.

Lemma get_None (r : gmap string jsval) k : r !! k = None → get r k = JUndef.
Proof. intros Hk. unfold get. by rewrite Hk. Qed.

Lemma map_get t row keys k :
  row ≠ RUndef → k ∈ keys →
  map t row keys [] !! k = Some (cell row (Table.columns t !! k)).
Proof.
  intros Hrow Hk.
  assert (map t row keys []
          = foldl (λ acc key, <[key := cell row (Table.columns t !! key)]> acc) ∅ keys)
    as -> by (by destruct row).
  by rewrite map_keys_lookup, decide_True.
Qed.

Lemma map_renamed_get t row keys k1 k2 k :
  row ≠ RUndef → k ∈ keys → k ≠ k1 → k ≠ k2 →
  map t row keys [(k1, k2)] !! k = Some (cell row (Table.columns t !! k)).
Proof.
  intros Hrow Hk Hk1 Hk2.
  assert (map t row keys [(k1, k2)]
          = let ret := foldl (λ acc key, <[key := cell row (Table.columns t !! key)]> acc)
                         ∅ keys in
            delete k1 (<[k2 := get ret k1]> ret))
    as -> by (by destruct row).
  cbv zeta. rewrite lookup_delete_ne, lookup_insert_ne by done.
  by rewrite map_keys_lookup, decide_True.
Qed.

Lemma spread_missing t v keys rename (r : gmap string jsval) :
  missing t v → spread r (map t (row_at t v) keys rename) = r.
Proof. apply dangling_foreign_key_helper. Qed.

Lemma spread_lookup_r (r s : gmap string jsval) k :
  s !! k = None → spread r s !! k = r !! k.
Proof. intros Hs. unfold spread. by apply lookup_union_r. Qed.

Lemma spread_lookup_l (r s : gmap string jsval) k x :
  s !! k = Some x → spread r s !! k = Some x.
Proof. intros Hs. unfold spread. by apply lookup_union_Some_l. Qed.

(** The text of a column position is the name of no key that [map] is
    asked for. *)
Lemma column_text_not_a_name c (k : string) :
  k ≠ "undefined" →
  ¬ Forall (λ c, Convert.sign_or_digit c = true) (list_ascii_of_string k) →
  Js.to_str (column_val c) ≠ k.
Proof.
  intros Hundef Hk <-. destruct c as [n|]; [|done].
  apply Hk. apply pretty_Z_digits.
Qed.

Ltac each_field Hk :=
  repeat (apply elem_of_cons in Hk as [->|Hk]); [..|by apply elem_of_nil in Hk].

Ltac last_assignment :=
  (repeat (rewrite lookup_insert_ne by done)); rewrite lookup_insert_eq.

(** *** The client stage *)

Section client_missing.

Variable H : Helpers.
Variable this : Parser.
Variable opts : Opts.

Lemma client_result ua pre row post e k :
  ua ≠ "" → crawler_lookup this ua = None →
  Table.data (udger_client_regex (data this)) = pre ++ row :: post →
  (∀ r, r ∈ pre → client_pattern_match H this ua r = None) →
  client_pattern_match H this ua row = Some e →
  k ∉ os_keys ++ device_class_keys ++ device_name_keys →
  udger (parseUa H this (Some ua) opts) !! k
  = rua (client_fields opts (client_join this row) e (ua_start this opts ua)) !! k.
Proof.
  intros Hua Hno Hdata Hpre Hrow Hk.
  rewrite parseUa_stages by done. cbn [udger]. unfold ua_stages. cbv zeta.
  rewrite later_stages_frame by done.
  unfold crawler_or_client. fold (crawler_lookup this ua). rewrite Hno, Hdata.
  by rewrite (client_loop_first_match H this opts ua pre row post e).
Qed.

Lemma client_fields_assigned r e v :
  let m := rua (client_fields opts r e v) in
  (m !! "ua_uptodate_current_version" = Some (get_or_empty r "uptodate_current_version")
   ∧ m !! "ua_family" = Some (get_or_empty r "name")
   ∧ m !! "ua_family_code" = Some (get_or_empty r "name_code")
   ∧ m !! "ua_family_homepage" = Some (get_or_empty r "homepage")
   ∧ m !! "ua_family_vendor" = Some (get_or_empty r "vendor")
   ∧ m !! "ua_family_vendor_code" = Some (get_or_empty r "vendor_code")
   ∧ m !! "ua_family_vendor_homepage" = Some (get_or_empty r "vendor_homepage")
   ∧ m !! "ua_family_icon" = Some (get_or_empty r "icon")
   ∧ m !! "ua_family_icon_big" = Some (get_or_empty r "icon_big")
   ∧ m !! "ua_engine" = Some (get_or_empty r "engine"))
  ∧ m !! "ua_family_info_url"
    = Some (JStr ("https://udger.com/resources/ua-list/browser-detail?browser="
                  +:+ Js.to_str (get_or_empty r "name")))
  ∧ m !! "ua_class" = Some (get r "client_classification")
  ∧ m !! "ua_class_code" = Some (get r "client_classification_code")
  ∧ m !! "ua"
    = Some (if Js.truthy (group1 e)
            then JStr (Js.to_str (get r "name") +:+ " " +:+ Js.to_str (group1 e))
            else get r "name").
Proof.
  unfold client_fields. cbv zeta. cbn [rua].
  destruct (Js.truthy (group1 e)); split_and!; by last_assignment.
Qed.

(** The record of the client stage when the pattern refers to no client:
    the two cells of the pattern and nothing else, the class being looked
    up with [undefined]. *)
Lemma client_join_missing row :
  missing (udger_client_list (data this))
    (foreign_key (udger_client_regex (data this)) row "client_id") →
  client_join this row
  = map (udger_client_regex (data this)) (RRow row) ["client_id"; "regstring"] [].
Proof.
  intros Hmiss. unfold client_join. cbv zeta.
  set (r0 := map (udger_client_regex (data this)) (RRow row) _ []).
  assert (get r0 "client_id"
          = foreign_key (udger_client_regex (data this)) row "client_id") as ->.
  { unfold get, r0. rewrite map_get; [done|done|not_a_key]. }
  rewrite (spread_missing (udger_client_list (data this))) by done.
  assert (get r0 "class_id" = JUndef) as ->.
  { apply get_None. unfold r0. apply map_lookup_other; not_a_key. }
  by rewrite spread_missing by reflexivity.
Qed.

(** The record when the client is there and its class is not. *)
Lemma client_join_class_missing row c k :
  row_at (udger_client_list (data this))
    (foreign_key (udger_client_regex (data this)) row "client_id") = RRow c →
  missing (udger_client_class (data this))
    (foreign_key (udger_client_list (data this)) c "class_id") →
  k ∈ ["client_classification"; "client_classification_code"] →
  client_join this row !! k = None.
Proof.
  intros Hc Hmiss Hk. unfold client_join. cbv zeta.
  set (r0 := map (udger_client_regex (data this)) (RRow row) _ []).
  assert (get r0 "client_id"
          = foreign_key (udger_client_regex (data this)) row "client_id") as ->.
  { unfold get, r0. rewrite map_get; [done|done|not_a_key]. }
  rewrite Hc.
  set (r1 := spread r0 _).
  assert (get r1 "class_id"
          = foreign_key (udger_client_list (data this)) c "class_id") as ->.
  { unfold get, r1. erewrite spread_lookup_l; [done|].
    rewrite map_renamed_get; [done|done|not_a_key|done|done]. }
  rewrite spread_missing by done.
  unfold r1. rewrite spread_lookup_r.
  - unfold r0. apply map_lookup_other; [|not_a_key].
    each_field Hk; not_a_key.
  - apply map_lookup_other; [|each_field Hk; not_a_key].
    each_field Hk; not_a_key.
Qed.

End client_missing.

Lemma column_text_not_in c (l : list string) :
  Forall (λ k : string,
            k ≠ "undefined"
            ∧ ¬ Forall (λ c, Convert.sign_or_digit c = true) (list_ascii_of_string k)) l →
  Js.to_str (column_val c) ∉ l.
Proof.
  intros Hl Hin. apply (proj1 (Forall_forall _ _) Hl) in Hin as [Hundef Hk].
  by apply (column_text_not_a_name c (Js.to_str (column_val c))).
Qed.

Ltac not_a_column :=
  apply column_text_not_in; refine (bool_decide_unpack _ _); vm_compute; exact I.

(** *** The OS stage and the client/OS relation stage *)

Section os_missing.

Variable H : Helpers.
Variable this : Parser.
Variable opts : Opts.

Lemma parseUa_after_relation ua k :
  ua ≠ "" → k ∉ device_class_keys → k ∉ device_name_keys →
  udger (parseUa H this (Some ua) opts) !! k
  = rua (after_relation H this opts ua) !! k.
Proof.
  intros Hua Hdc Hdn. rewrite parseUa_stages by done. cbn [udger].
  unfold ua_stages, later_stages. cbv zeta.
  rewrite devicename_stage_frame, deviceclass_fallback_stage_frame by done.
  unfold deviceclass_stage. by rewrite deviceclass_loop_frame.
Qed.

Lemma os_fields_missing (r m : gmap string jsval) :
  (∀ key, key ∈ ["name"; "name_code"; "homepage"; "icon"; "icon_big"; "family";
                 "family_code"; "vendor"; "vendor_code"; "vendor_homepage"] →
          r !! key = None) →
  all_empty (os_fields r m) os_list_fields
  ∧ os_fields r m !! "os_info_url"
    = Some (JStr "https://udger.com/resources/ua-list/os-detail?os=").
Proof.
  intros Hr.
  assert (∀ key, key ∈ ["name"; "name_code"; "homepage"; "icon"; "icon_big"; "family";
                        "family_code"; "vendor"; "vendor_code"; "vendor_homepage"] →
                 get_or_empty r key = JStr "") as Hempty.
  { intros key Hkey. by apply get_or_empty_None, Hr. }
  unfold os_fields. cbv zeta. split.
  - intros k Hk. each_field Hk; last_assignment; f_equal; apply Hempty; not_a_key.
  - last_assignment. by rewrite Hempty by not_a_key.
Qed.

(** The client/OS relation stage on a key that refers to no OS. *)
Lemma os_relation_stage_missing v q :
  os_relation_attempted v = true →
  relation_lookup this = Some q →
  missing (udger_os_list (data this)) (relation_key this v) →
  all_empty (rua (os_relation_stage this opts v)) os_list_fields
  ∧ rua (os_relation_stage this opts v) !! "os_info_url"
    = Some (JStr "https://udger.com/resources/ua-list/os-detail?os=").
Proof.
  intros Hatt Hq Hmiss. unfold os_relation_stage. rewrite Hatt.
  fold (relation_lookup this). rewrite Hq. cbn [rua].
  apply os_fields_missing. intros key Hkey.
  fold (relation_key this v). rewrite spread_missing by done.
  apply map_lookup_other; [|not_a_key]. each_field Hkey; not_a_key.
Qed.

(** After an OS pattern matched, the variable [r] is a record with names
    for keys, where the position of a column finds nothing. *)
Lemma os_join_no_position row c : os_join this row !! Js.to_str (column_val c) = None.
Proof.
  unfold os_join. cbv zeta. rewrite spread_lookup_r.
  - apply map_lookup_other; [not_a_column|not_a_key].
  - apply map_lookup_other; not_a_column.
Qed.

Lemma relation_key_after_os_found row v :
  relation_key this (os_found this opts row v) = JUndef.
Proof.
  unfold relation_key.
  assert (r (os_found this opts row v) = RRec (os_join this row)) as -> by done.
  unfold get at 1. rewrite map_get; [|done|not_a_key]. cbn [cell default].
  apply get_None, os_join_no_position.
Qed.

Lemma os_join_missing row :
  missing (udger_os_list (data this))
    (foreign_key (udger_os_regex (data this)) row "os_id") →
  os_join this row = map (udger_os_regex (data this)) (RRow row) ["os_id"; "regstring"] [].
Proof.
  intros Hmiss. unfold os_join. cbv zeta.
  set (r0 := map (udger_os_regex (data this)) (RRow row) _ []).
  assert (get r0 "os_id" = foreign_key (udger_os_regex (data this)) row "os_id") as ->.
  { unfold get, r0. rewrite map_get; [done|done|not_a_key]. }
  by rewrite spread_missing.
Qed.

(** The OS fields of the result when the pattern that matched refers to
    no OS, whether the client/OS relation stage runs after it or not. *)
Lemma os_result_missing ua pre row post e :
  ua ≠ "" →
  Table.data (udger_os_regex (data this)) = pre ++ row :: post →
  (∀ r, r ∈ pre → os_pattern_match H this ua r = None) →
  os_pattern_match H this ua row = Some e →
  missing (udger_os_list (data this))
    (foreign_key (udger_os_regex (data this)) row "os_id") →
  all_empty (udger (parseUa H this (Some ua) opts)) os_list_fields
  ∧ udger (parseUa H this (Some ua) opts) !! "os_info_url"
    = Some (JStr "https://udger.com/resources/ua-list/os-detail?os=").
Proof.
  intros Hua Hdata Hpre Hrow Hmiss.
  assert (all_empty (rua (after_relation H this opts ua)) os_list_fields
          ∧ rua (after_relation H this opts ua) !! "os_info_url"
            = Some (JStr "https://udger.com/resources/ua-list/os-detail?os="))
    as [Hall Hurl].
  { unfold after_relation, after_os, os_stage. rewrite Hdata.
    rewrite (os_loop_first_match H this opts ua pre row post e) by done.
    set (v1 := os_found this opts row (after_client H this opts ua)).
    destruct (os_relation_attempted v1) eqn:Hatt.
    - destruct (relation_lookup this) as [q|] eqn:Hq.
      + apply (os_relation_stage_missing v1 q); [done|done|].
        unfold v1. rewrite relation_key_after_os_found. reflexivity.
      + unfold os_relation_stage. rewrite Hatt. fold (relation_lookup this).
        rewrite Hq. unfold v1.
        rewrite (proj1 (os_found_join this opts row _)).
        apply os_fields_missing. intros key Hkey. rewrite os_join_missing by done.
        apply map_lookup_other; [|not_a_key]. each_field Hkey; not_a_key.
    - unfold os_relation_stage. rewrite Hatt. unfold v1.
      rewrite (proj1 (os_found_join this opts row _)).
      apply os_fields_missing. intros key Hkey. rewrite os_join_missing by done.
      apply map_lookup_other; [|not_a_key]. each_field Hkey; not_a_key. }
  split.
  - intros k Hk. rewrite parseUa_after_relation; [by apply Hall|done|..];
      each_field Hk; not_a_key.
  - rewrite parseUa_after_relation; [done|done|not_a_key|not_a_key].
Qed.

(** The same fields when the client/OS relation stage runs on a key that
    refers to no OS. *)
Lemma relation_result_missing ua q :
  ua ≠ "" →
  os_relation_attempted (after_os H this opts ua) = true →
  relation_lookup this = Some q →
  missing (udger_os_list (data this)) (relation_key this (after_os H this opts ua)) →
  all_empty (udger (parseUa H this (Some ua) opts)) os_list_fields
  ∧ udger (parseUa H this (Some ua) opts) !! "os_info_url"
    = Some (JStr "https://udger.com/resources/ua-list/os-detail?os=").
Proof.
  intros Hua Hatt Hq Hmiss.
  destruct (os_relation_stage_missing (after_os H this opts ua) q Hatt Hq Hmiss)
    as [Hall Hurl].
  split.
  - intros k Hk. rewrite parseUa_after_relation; [by apply Hall|done|..];
      each_field Hk; not_a_key.
  - rewrite parseUa_after_relation; [done|done|not_a_key|not_a_key].
Qed.

End os_missing.

(** *** The device class stages and the device marketname stage *)

Section device_missing.

Variable H : Helpers.
Variable this : Parser.
Variable opts : Opts.

Lemma parseUa_after_fallback ua k :
  ua ≠ "" → k ∉ device_name_keys →
  udger (parseUa H this (Some ua) opts) !! k
  = rua (after_fallback H this opts ua) !! k.
Proof.
  intros Hua Hdn. rewrite parseUa_stages by done. cbn [udger].
  unfold ua_stages, later_stages. cbv zeta.
  by rewrite devicename_stage_frame.
Qed.

Lemma parseUa_after_devicename ua :
  ua ≠ "" →
  udger (parseUa H this (Some ua) opts)
  = rua (devicename_stage H this ua (after_fallback H this opts ua)).
Proof. intros Hua. by rewrite parseUa_stages. Qed.

Lemma deviceclass_join_missing row :
  missing (udger_deviceclass_list (data this))
    (foreign_key (udger_deviceclass_regex (data this)) row "deviceclass_id") →
  deviceclass_join this row
  = map (udger_deviceclass_regex (data this)) (RRow row)
      ["deviceclass_id"; "regstring"] [].
Proof.
  intros Hmiss. unfold deviceclass_join. cbv zeta.
  set (r0 := map (udger_deviceclass_regex (data this)) (RRow row) _ []).
  assert (get r0 "deviceclass_id"
          = foreign_key (udger_deviceclass_regex (data this)) row "deviceclass_id")
    as ->.
  { unfold get, r0. rewrite map_get; [done|done|not_a_key]. }
  by rewrite spread_missing.
Qed.

Lemma class_device_join_missing c :
  missing (udger_deviceclass_list (data this))
    (foreign_key (udger_client_class (data this)) c "deviceclass_id") →
  class_device_join this c
  = map (udger_client_class (data this)) (RRow c) ["deviceclass_id"] [].
Proof.
  intros Hmiss. unfold class_device_join. cbv zeta.
  set (r0 := map (udger_client_class (data this)) (RRow c) _ []).
  assert (get r0 "deviceclass_id"
          = foreign_key (udger_client_class (data this)) c "deviceclass_id") as ->.
  { unfold get, r0. rewrite map_get; [done|done|not_a_key]. }
  by rewrite spread_missing.
Qed.

Lemma devicename_join_missing qC :
  missing (udger_devicename_brand (data this))
    (foreign_key (udger_devicename_list (data this)) qC "brand_id") →
  devicename_join this qC
  = map (udger_devicename_list (data this)) (RRow qC) ["marketname"; "brand_id"] [].
Proof.
  intros Hmiss. unfold devicename_join. cbv zeta.
  set (r0 := map (udger_devicename_list (data this)) (RRow qC) _ []).
  assert (get r0 "brand_id"
          = foreign_key (udger_devicename_list (data this)) qC "brand_id") as ->.
  { unfold get, r0. rewrite map_get; [done|done|not_a_key]. }
  by rewrite spread_missing.
Qed.

(** The second device class stage assigns nothing when it is not
    attempted or finds no class. *)
Lemma deviceclass_fallback_stage_idle v :
  deviceclass_fallback_attempted v = false ∨ class_lookup this v = None →
  rua (deviceclass_fallback_stage this opts v) = rua v.
Proof.
  intros Hidle. unfold deviceclass_fallback_stage.
  destruct (deviceclass_fallback_attempted v); [|done].
  destruct Hidle as [?|Hnone]; [done|].
  fold (class_lookup this v). by rewrite Hnone.
Qed.

Lemma deviceclass_result_missing ua pre row post e :
  ua ≠ "" →
  Table.data (udger_deviceclass_regex (data this)) = pre ++ row :: post →
  (∀ r, r ∈ pre → deviceclass_pattern_match H this ua r = None) →
  deviceclass_pattern_match H this ua row = Some e →
  missing (udger_deviceclass_list (data this))
    (foreign_key (udger_deviceclass_regex (data this)) row "deviceclass_id") →
  deviceclass_fallback_attempted (after_patterns H this opts ua) = false
  ∨ class_lookup this (after_patterns H this opts ua) = None →
  all_empty (udger (parseUa H this (Some ua) opts)) deviceclass_list_fields
  ∧ udger (parseUa H this (Some ua) opts) !! "device_class_info_url"
    = Some (JStr "https://udger.com/resources/ua-list/device-detail?device=undefined").
Proof.
  intros Hua Hdata Hpre Hrow Hmiss Hidle.
  assert (rua (after_fallback H this opts ua)
          = rua (deviceclass_found this opts row (after_relation H this opts ua)))
    as Hrua.
  { unfold after_fallback. rewrite deviceclass_fallback_stage_idle by done.
    unfold after_patterns, deviceclass_stage. rewrite Hdata.
    by rewrite (deviceclass_loop_first_match H this opts ua pre row post e). }
  set (r0 := deviceclass_join this row).
  assert (∀ key, key ∈ ["name"; "name_code"; "icon"; "icon_big"] → r0 !! key = None)
    as Hr0.
  { intros key Hkey. unfold r0. rewrite deviceclass_join_missing by done.
    apply map_lookup_other; [|not_a_key]. each_field Hkey; not_a_key. }
  assert (rua (deviceclass_found this opts row (after_relation H this opts ua))
          = <["device_class_info_url" :=
                JStr ("https://udger.com/resources/ua-list/device-detail?device="
                      +:+ Js.to_str (get r0 "name"))]>
              (<["device_class_icon_big" := get_or_empty r0 "icon_big"]>
                 (<["device_class_icon" := get_or_empty r0 "icon"]>
                    (<["device_class_code" := get_or_empty r0 "name_code"]>
                       (<["device_class" := get_or_empty r0 "name"]>
                          (rua (after_relation H this opts ua)))))))
    as Hfound by done.
  split.
  - intros k Hk.
    rewrite parseUa_after_fallback by (done || each_field Hk; not_a_key).
    rewrite Hrua, Hfound.
    each_field Hk; last_assignment; f_equal; apply get_or_empty_None, Hr0; not_a_key.
  - rewrite parseUa_after_fallback by (done || not_a_key).
    rewrite Hrua, Hfound. last_assignment.
    by rewrite (get_None r0 "name") by (apply Hr0; not_a_key).
Qed.

Lemma fallback_result_missing ua c :
  ua ≠ "" →
  deviceclass_fallback_attempted (after_patterns H this opts ua) = true →
  class_lookup this (after_patterns H this opts ua) = Some c →
  missing (udger_deviceclass_list (data this))
    (foreign_key (udger_client_class (data this)) c "deviceclass_id") →
  all_empty (udger (parseUa H this (Some ua) opts)) deviceclass_list_fields
  ∧ udger (parseUa H this (Some ua) opts) !! "device_class_info_url"
    = Some (JStr "https://udger.com/resources/ua-list/device-detail?device=").
Proof.
  intros Hua Hatt Hc Hmiss.
  set (r0 := class_device_join this c).
  assert (∀ key, key ∈ ["name"; "name_code"; "icon"; "icon_big"] → r0 !! key = None)
    as Hr0.
  { intros key Hkey. unfold r0. rewrite class_device_join_missing by done.
    apply map_lookup_other; [|not_a_key]. each_field Hkey; not_a_key. }
  assert (rua (after_fallback H this opts ua)
          = <["device_class_info_url" :=
                JStr ("https://udger.com/resources/ua-list/device-detail?device="
                      +:+ Js.to_str (get_or_empty r0 "name"))]>
              (<["device_class_icon_big" := get_or_empty r0 "icon_big"]>
                 (<["device_class_icon" := get_or_empty r0 "icon"]>
                    (<["device_class_code" := get_or_empty r0 "name_code"]>
                       (<["device_class" := get_or_empty r0 "name"]>
                          (rua (after_patterns H this opts ua)))))))
    as Hfound.
  { unfold after_fallback, deviceclass_fallback_stage. rewrite Hatt.
    fold (class_lookup this (after_patterns H this opts ua)). by rewrite Hc. }
  split.
  - intros k Hk.
    rewrite parseUa_after_fallback by (done || each_field Hk; not_a_key).
    rewrite Hfound.
    each_field Hk; last_assignment; f_equal; apply get_or_empty_None, Hr0; not_a_key.
  - rewrite parseUa_after_fallback by (done || not_a_key).
    rewrite Hfound. last_assignment.
    by rewrite (get_or_empty_None r0 "name") by (apply Hr0; not_a_key).
Qed.

Lemma brand_result_missing ua qC :
  ua ≠ "" →
  devicename_lookup H this ua (after_fallback H this opts ua) = Some qC →
  missing (udger_devicename_brand (data this))
    (foreign_key (udger_devicename_list (data this)) qC "brand_id") →
  all_empty (udger (parseUa H this (Some ua) opts)) brand_fields
  ∧ udger (parseUa H this (Some ua) opts) !! "device_brand_info_url"
    = Some (JStr "https://udger.com/resources/ua-list/devices-brand-detail?brand=").
Proof.
  intros Hua Hfind Hmiss. rewrite parseUa_after_devicename by done.
  set (v := after_fallback H this opts ua) in *.
  set (r0 := devicename_join this qC).
  assert (∀ key, key ∈ ["brand_code"; "brand"; "brand_url"; "icon"; "icon_big"] →
                 r0 !! key = None) as Hr0.
  { intros key Hkey. unfold r0. rewrite devicename_join_missing by done.
    apply map_lookup_other; [|not_a_key]. each_field Hkey; not_a_key. }
  assert (rua (devicename_stage H this ua v)
          = <["device_brand_info_url" :=
                JStr ("https://udger.com/resources/ua-list/devices-brand-detail?brand="
                      +:+ Js.to_str (get_or_empty r0 "brand_code"))]>
              (<["device_brand_icon_big" := get_or_empty r0 "icon_big"]>
                 (<["device_brand_icon" := get_or_empty r0 "icon"]>
                    (<["device_brand_homepage" := get_or_empty r0 "brand_url"]>
                       (<["device_brand_code" := get_or_empty r0 "brand_code"]>
                          (<["device_brand" := get_or_empty r0 "brand"]>
                             (<["device_marketname" := get_or_empty r0 "marketname"]>
                                (rua v))))))))
    as ->.
  { unfold devicename_stage, devicename_lookup in *.
    destruct (Js.truthy (get (rua v) "os_family_code")); [|done].
    destruct (devicename_loop H this ua _) as [match_ rId].
    by rewrite Hfind. }
  split.
  - intros k Hk.
    each_field Hk; last_assignment; f_equal; apply get_or_empty_None, Hr0; not_a_key.
  - last_assignment.
    by rewrite (get_or_empty_None r0 "brand_code") by (apply Hr0; not_a_key).
Qed.

End device_missing.

(** *** The stages of [parseIp] *)

(** A pair is in a list of pairs, its second component being read off the
    list. *)
Ltac listed :=
  repeat first [apply list_elem_of_here | apply list_elem_of_further].

Ltac each_pair Hk :=
  repeat (apply elem_of_cons in Hk as [[= -> ->]|Hk]); [..|by apply elem_of_nil in Hk].

Section ip_missing.

Variable H : Helpers.
Variable this : Parser.
Variable opts : Opts.

(** The fields of the result after a row of [udger_ip_list] is found. *)
Lemma ip_result_fields ip q k key :
  ip ≠ "" →
  List.find (is_ip_row this (canonical H ip)) (Table.data (udger_ip_list (data this)))
  = Some q →
  (k, key) ∈ [("ip_classification", "ip_classification");
              ("ip_classification_code", "ip_classification_code");
              ("crawler_name", "name"); ("crawler_ver", "ver");
              ("crawler_ver_major", "ver_major"); ("crawler_family", "family");
              ("crawler_family_code", "family_code");
              ("crawler_family_homepage", "family_homepage");
              ("crawler_family_vendor", "vendor");
              ("crawler_family_vendor_code", "vendor_code");
              ("crawler_family_vendor_homepage", "vendor_homepage");
              ("crawler_family_icon", "family_icon");
              ("crawler_last_seen", "last_seen");
              ("crawler_category", "crawler_classification");
              ("crawler_category_code", "crawler_classification_code");
              ("crawler_respect_robotstxt", "respect_robotstxt")] →
  udger (parseIp H this (Some ip) opts) !! k = Some (get_or_empty (ip_join this q) key).
Proof.
  intros Hip Hfind Hk. rewrite parseIp_udger by done.
  unfold ip_core, ip_stages.
  set (start := <["ip_ver" := getIpVersion H ip]> (json_clone (retIp this))).
  set (j0 := if full opts then _ else _).
  assert (ip_lookup_stage this opts (canonical H ip) start j0
          = ip_found this opts q start j0) as ->.
  { unfold ip_lookup_stage.
    assert (findBy (udger_ip_list (data this))
              (λ row cols, Js.strict_eq (cell (RRow row) (cols !! "ip"))
                             (JStr (canonical H ip))) = Some q) as -> by exact Hfind.
    done. }
  unfold ip_found. rewrite ip_fields_runs.
  set (r := ip_join this q).
  each_pair Hk;
    (rewrite lookup_insert_ne by done;
     rewrite datacenter_stage_frame by not_a_key;
     unfold assign, ip_found_assignments;
     destruct (Js.strict_eq _ _); cbn [app foldl fst snd];
     by last_assignment).
Qed.

Lemma ip_result_info_url ip q :
  ip ≠ "" →
  List.find (is_ip_row this (canonical H ip)) (Table.data (udger_ip_list (data this)))
  = Some q →
  get (ip_join this q) "ip_classification_code" = JStr "crawler" →
  udger (parseIp H this (Some ip) opts) !! "crawler_family_info_url"
  = Some (JStr ("https://udger.com/resources/ua-list/bot-detail?bot="
                +:+ Js.to_str (get_or_empty (ip_join this q) "family")
                +:+ "#id" +:+ Js.to_str (get_or_empty (ip_join this q) "botid"))).
Proof.
  intros Hip Hfind Hcode. rewrite parseIp_udger by done.
  unfold ip_core, ip_stages.
  set (start := <["ip_ver" := getIpVersion H ip]> (json_clone (retIp this))).
  set (j0 := if full opts then _ else _).
  assert (ip_lookup_stage this opts (canonical H ip) start j0
          = ip_found this opts q start j0) as ->.
  { unfold ip_lookup_stage.
    assert (findBy (udger_ip_list (data this))
              (λ row cols, Js.strict_eq (cell (RRow row) (cols !! "ip"))
                             (JStr (canonical H ip))) = Some q) as -> by exact Hfind.
    done. }
  unfold ip_found. rewrite ip_fields_runs.
  set (r := ip_join this q) in *.
  rewrite lookup_insert_ne by done.
  rewrite datacenter_stage_frame by not_a_key.
  unfold assign, ip_found_assignments. rewrite Hcode.
  assert (Js.strict_eq (JStr "crawler") (JStr "crawler") = true) as -> by done.
  cbn [app foldl fst snd]. by last_assignment.
Qed.

(** The record of [parseIp] on a key that the class of the address does
    not bring. *)
Lemma ip_join_class_missing q key :
  missing (udger_ip_class (data this))
    (foreign_key (udger_ip_list (data this)) q "class_id") →
  key ∈ ["ip_classification"; "ip_classification_code"] →
  ip_join this q !! key = None.
Proof.
  intros Hmiss Hkey. unfold ip_join. cbv zeta.
  set (r0 := map (udger_ip_list (data this)) (RRow q) _ []).
  assert (get r0 "class_id" = foreign_key (udger_ip_list (data this)) q "class_id")
    as ->.
  { unfold get, r0. rewrite map_get; [done|done|not_a_key]. }
  rewrite (spread_missing (udger_ip_class (data this))) by done.
  assert (key ≠ "class_id" ∧ key ≠ "crawler_id") as [Hne1 Hne2]
    by (each_field Hkey; done).
  rewrite lookup_delete_ne by done.
  rewrite spread_lookup_r by (apply map_lookup_other; each_field Hkey; not_a_key).
  rewrite lookup_delete_ne by done.
  rewrite spread_lookup_r by (apply map_lookup_other; each_field Hkey; not_a_key).
  rewrite lookup_delete_ne by done.
  apply map_lookup_other; [|not_a_key]. each_field Hkey; not_a_key.
Qed.

(** On a key that the crawler of the address or the class of that crawler
    does not bring: with no crawler its class is looked up with
    [undefined]. *)
Lemma ip_join_crawler_missing q key :
  missing (udger_crawler_list (data this))
    (foreign_key (udger_ip_list (data this)) q "crawler_id") →
  key ∈ ["name"; "ver"; "ver_major"; "family"; "family_code"; "family_homepage";
         "vendor"; "vendor_code"; "vendor_homepage"; "family_icon"; "last_seen";
         "respect_robotstxt"; "botid"; "crawler_classification";
         "crawler_classification_code"] →
  ip_join this q !! key = None.
Proof.
  intros Hmiss Hkey. unfold ip_join. cbv zeta.
  set (r0 := map (udger_ip_list (data this)) (RRow q) _ []).
  set (r1 := spread r0 _).
  set (r2 := delete "class_id" r1).
  assert (get r2 "crawler_id"
          = foreign_key (udger_ip_list (data this)) q "crawler_id") as ->.
  { unfold get, r2, r1. rewrite lookup_delete_ne by done.
    rewrite spread_lookup_r by (apply map_lookup_other; not_a_key).
    unfold r0. rewrite map_get; [done|done|not_a_key]. }
  rewrite (spread_missing (udger_crawler_list (data this))) by done.
  set (r4 := delete "crawler_id" r2).
  assert (get r4 "class_id" = JUndef) as ->.
  { apply get_None. unfold r4, r2. rewrite lookup_delete_ne by done.
    apply lookup_delete_eq. }
  rewrite spread_missing by reflexivity.
  assert (key ≠ "class_id" ∧ key ≠ "crawler_id") as [Hne1 Hne2]
    by (each_field Hkey; done).
  unfold r4, r2, r1. rewrite !lookup_delete_ne by done.
  rewrite spread_lookup_r by (apply map_lookup_other; each_field Hkey; not_a_key).
  apply map_lookup_other; [|not_a_key]. each_field Hkey; not_a_key.
Qed.

(** On a key that the class of the crawler does not bring, the crawler
    being there. *)
Lemma ip_join_crawler_class_missing q c key :
  row_at (udger_crawler_list (data this))
    (foreign_key (udger_ip_list (data this)) q "crawler_id") = RRow c →
  missing (udger_crawler_class (data this))
    (foreign_key (udger_crawler_list (data this)) c "class_id") →
  key ∈ ["crawler_classification"; "crawler_classification_code"] →
  ip_join this q !! key = None.
Proof.
  intros Hc Hmiss Hkey. unfold ip_join. cbv zeta.
  set (r0 := map (udger_ip_list (data this)) (RRow q) _ []).
  set (r1 := spread r0 _).
  set (r2 := delete "class_id" r1).
  assert (get r2 "crawler_id"
          = foreign_key (udger_ip_list (data this)) q "crawler_id") as ->.
  { unfold get, r2, r1. rewrite lookup_delete_ne by done.
    rewrite spread_lookup_r by (apply map_lookup_other; not_a_key).
    unfold r0. rewrite map_get; [done|done|not_a_key]. }
  rewrite Hc.
  set (r3 := spread r2 _).
  set (r4 := delete "crawler_id" r3).
  assert (get r4 "class_id"
          = foreign_key (udger_crawler_list (data this)) c "class_id") as ->.
  { unfold get, r4, r3. rewrite lookup_delete_ne by done.
    erewrite spread_lookup_l; [done|].
    rewrite map_renamed_get; [done|done|not_a_key|done|done]. }
  rewrite (spread_missing (udger_crawler_class (data this))) by done.
  assert (key ≠ "class_id" ∧ key ≠ "crawler_id") as [Hne1 Hne2]
    by (each_field Hkey; done).
  unfold r4, r3, r2, r1. rewrite !lookup_delete_ne by done.
  rewrite spread_lookup_r by (apply map_lookup_other; each_field Hkey; not_a_key).
  rewrite lookup_delete_ne by done.
  rewrite spread_lookup_r by (apply map_lookup_other; each_field Hkey; not_a_key).
  apply map_lookup_other; [|not_a_key]. each_field Hkey; not_a_key.
Qed.

Lemma datacenter_join_missing range q key :
  missing (udger_datacenter_list (data this)) (foreign_key range q "datacenter_id") →
  key ∈ ["name"; "name_code"; "homepage"] →
  datacenter_join this range q !! key = None.
Proof.
  intros Hmiss Hkey. unfold datacenter_join. cbv zeta.
  set (r0 := map range (RRow q) _ []).
  assert (get r0 "datacenter_id" = foreign_key range q "datacenter_id") as ->.
  { unfold get, r0. rewrite map_get; [done|done|not_a_key]. }
  rewrite spread_missing by done.
  rewrite lookup_delete_ne by (each_field Hkey; done).
  apply map_lookup_other; [|not_a_key]. each_field Hkey; not_a_key.
Qed.

Lemma datacenter_range6_fields ip q :
  ip ≠ "" →
  getIpVersion H ip = JNum 6 →
  List.find (in_range6_row this (address6_groups H (inetNtop H (inetPton H ip))))
    (Table.data (udger_datacenter_range6 (data this))) = Some q →
  let res := udger (parseIp H this (Some ip) opts) in
  let r := datacenter_join this (udger_datacenter_range6 (data this)) q in
  res !! "datacenter_name" = Some (get_or_empty r "name")
  ∧ res !! "datacenter_name_code" = Some (get_or_empty r "name_code")
  ∧ res !! "datacenter_homepage" = Some (get_or_empty r "homepage").
Proof.
  intros Hip Hver Hfind res r. subst res. rewrite parseIp_udger by done.
  assert (canonical H ip = inetNtop H (inetPton H ip)) as Hcanon.
  { unfold canonical. rewrite Hver. done. }
  rewrite Hcanon, Hver. unfold ip_core, ip_stages.
  destruct (ip_lookup_stage this opts _ _ _) as [rip1 j1].
  unfold datacenter_stage.
  assert (Js.strict_eq (JNum 6) (JNum 4) = false) as -> by done.
  assert (Js.strict_eq (JNum 6) (JNum 6) = true) as -> by done.
  assert (findBy (udger_datacenter_range6 (data this))
            (λ row cols,
               forallb (in_range6 row cols
                          (address6_groups H (inetNtop H (inetPton H ip)))) (seq 0 8))
          = Some q) as -> by exact Hfind.
  unfold datacenter_found. rewrite datacenter_fields_runs. cbn [fst]. fold r.
  unfold assign, datacenter_assignments. cbn [foldl fst snd].
  split_and!; by simplify_map_eq.
Qed.

End ip_missing.

(** C9, as amended.  Each join of the classification on a foreign key
    that refers to no row, and the fields of the flat result that depend
    on it.  [map] makes the empty record of the missing row, so that a
    field assigned as [r[key] || ''] is the empty string.  In [parseUa]:
    the class of a crawler; the client of a pattern, where [ua_class] and
    [ua_class_code], assigned without a default, are [undefined] and [ua]
    is [undefined] or starts with that word; the class of a client, with
    the same two fields [undefined]; the OS of a pattern, whether the
    client/OS relation stage follows or not; the OS of the client/OS
    relation stage; the device class of a pattern, unless the second
    device class stage assigns the fields again, where
    [device_class_info_url] ends with the word [undefined]; the device
    class of the class of the client; the brand of a device.  In
    [parseIp]: the class of an address; its crawler, with the class of
    that crawler; the class of a crawler that is there; the datacenter of
    a range, for both versions.  An address field ([..._info_url]) is
    never empty: it holds its fixed address, with nothing after it but in
    the case named. *)
Theorem dangling_foreign_key H this opts :
  let d := data this in
  (∀ ua q,
     ua ≠ "" →
     crawler_lookup this ua = Some q →
     missing (udger_crawler_class d) (foreign_key (udger_crawler_list d) q "class_id") →
     all_empty (udger (parseUa H this (Some ua) opts)) crawler_class_fields)
  ∧ (∀ ua pre row post e,
       ua ≠ "" →
       crawler_lookup this ua = None →
       Table.data (udger_client_regex d) = pre ++ row :: post →
       (∀ r, r ∈ pre → client_pattern_match H this ua r = None) →
       client_pattern_match H this ua row = Some e →
       let res := udger (parseUa H this (Some ua) opts) in
       let client := foreign_key (udger_client_regex d) row "client_id" in
       (missing (udger_client_list d) client →
        all_empty res client_list_fields
        ∧ res !! "ua_family_info_url"
          = Some (JStr "https://udger.com/resources/ua-list/browser-detail?browser=")
        ∧ res !! "ua_class" = Some JUndef
        ∧ res !! "ua_class_code" = Some JUndef
        ∧ res !! "ua"
          = Some (if Js.truthy (group1 e)
                  then JStr ("undefined " +:+ Js.to_str (group1 e))
                  else JUndef))
       ∧ (∀ c,
            row_at (udger_client_list d) client = RRow c →
            missing (udger_client_class d)
              (foreign_key (udger_client_list d) c "class_id") →
            res !! "ua_class" = Some JUndef ∧ res !! "ua_class_code" = Some JUndef))
  ∧ (∀ ua pre row post e,
       ua ≠ "" →
       Table.data (udger_os_regex d) = pre ++ row :: post →
       (∀ r, r ∈ pre → os_pattern_match H this ua r = None) →
       os_pattern_match H this ua row = Some e →
       missing (udger_os_list d) (foreign_key (udger_os_regex d) row "os_id") →
       let res := udger (parseUa H this (Some ua) opts) in
       all_empty res os_list_fields
       ∧ res !! "os_info_url"
         = Some (JStr "https://udger.com/resources/ua-list/os-detail?os="))
  ∧ (∀ ua q,
       ua ≠ "" →
       os_relation_attempted (after_os H this opts ua) = true →
       relation_lookup this = Some q →
       missing (udger_os_list d) (relation_key this (after_os H this opts ua)) →
       let res := udger (parseUa H this (Some ua) opts) in
       all_empty res os_list_fields
       ∧ res !! "os_info_url"
         = Some (JStr "https://udger.com/resources/ua-list/os-detail?os="))
  ∧ (∀ ua pre row post e,
       ua ≠ "" →
       Table.data (udger_deviceclass_regex d) = pre ++ row :: post →
       (∀ r, r ∈ pre → deviceclass_pattern_match H this ua r = None) →
       deviceclass_pattern_match H this ua row = Some e →
       missing (udger_deviceclass_list d)
         (foreign_key (udger_deviceclass_regex d) row "deviceclass_id") →
       deviceclass_fallback_attempted (after_patterns H this opts ua) = false
       ∨ class_lookup this (after_patterns H this opts ua) = None →
       let res := udger (parseUa H this (Some ua) opts) in
       all_empty res deviceclass_list_fields
       ∧ res !! "device_class_info_url"
         = Some (JStr "https://udger.com/resources/ua-list/device-detail?device=undefined"))
  ∧ (∀ ua c,
       ua ≠ "" →
       deviceclass_fallback_attempted (after_patterns H this opts ua) = true →
       class_lookup this (after_patterns H this opts ua) = Some c →
       missing (udger_deviceclass_list d)
         (foreign_key (udger_client_class d) c "deviceclass_id") →
       let res := udger (parseUa H this (Some ua) opts) in
       all_empty res deviceclass_list_fields
       ∧ res !! "device_class_info_url"
         = Some (JStr "https://udger.com/resources/ua-list/device-detail?device="))
  ∧ (∀ ua qC,
       ua ≠ "" →
       devicename_lookup H this ua (after_fallback H this opts ua) = Some qC →
       missing (udger_devicename_brand d)
         (foreign_key (udger_devicename_list d) qC "brand_id") →
       let res := udger (parseUa H this (Some ua) opts) in
       all_empty res brand_fields
       ∧ res !! "device_brand_info_url"
         = Some (JStr "https://udger.com/resources/ua-list/devices-brand-detail?brand="))
  ∧ (∀ ip q,
       ip ≠ "" →
       List.find (is_ip_row this (canonical H ip)) (Table.data (udger_ip_list d))
       = Some q →
       let res := udger (parseIp H this (Some ip) opts) in
       let crawler := foreign_key (udger_ip_list d) q "crawler_id" in
       (missing (udger_ip_class d) (foreign_key (udger_ip_list d) q "class_id") →
        all_empty res ip_class_fields)
       ∧ (missing (udger_crawler_list d) crawler →
          all_empty res (ip_crawler_fields ++ crawler_class_fields)
          ∧ (get (ip_join this q) "ip_classification_code" = JStr "crawler" →
             res !! "crawler_family_info_url"
             = Some (JStr "https://udger.com/resources/ua-list/bot-detail?bot=#id")))
       ∧ (∀ c,
            row_at (udger_crawler_list d) crawler = RRow c →
            missing (udger_crawler_class d)
              (foreign_key (udger_crawler_list d) c "class_id") →
            all_empty res crawler_class_fields))
  ∧ (∀ ip q,
       ip ≠ "" →
       getIpVersion H ip = JNum 4 →
       List.find (in_range4 this (ip2long H ip)) (Table.data (udger_datacenter_range d))
       = Some q →
       missing (udger_datacenter_list d)
         (foreign_key (udger_datacenter_range d) q "datacenter_id") →
       all_empty (udger (parseIp H this (Some ip) opts)) datacenter_keys)
  ∧ (∀ ip q,
       ip ≠ "" →
       getIpVersion H ip = JNum 6 →
       List.find (in_range6_row this (address6_groups H (inetNtop H (inetPton H ip))))
         (Table.data (udger_datacenter_range6 d))
       = Some q →
       missing (udger_datacenter_list d)
         (foreign_key (udger_datacenter_range6 d) q "datacenter_id") →
       all_empty (udger (parseIp H this (Some ip) opts)) datacenter_keys).
Proof.
  intros d. subst d. split_and!.
  - intros ua q Hua Hq Hmiss.
    destruct (crawler_class_dangling H this ua opts q Hua Hq Hmiss) as [H1 H2].
    intros k Hk. by each_field Hk.
  - intros ua pre row post e Hua Hno Hdata Hpre Hrow res client.
    pose proof (client_fields_assigned opts (client_join this row) e
                  (ua_start this opts ua)) as Hfields.
    cbv zeta in Hfields.
    destruct Hfields as ((F1 & F2 & F3 & F4 & F5 & F6 & F7 & F8 & F9 & F10)
                         & Furl & Fclass & Fcode & Fua).
    assert (∀ k, k ∉ os_keys ++ device_class_keys ++ device_name_keys →
                 res !! k
                 = rua (client_fields opts (client_join this row) e
                          (ua_start this opts ua)) !! k) as Hres.
    { intros k Hk. by apply (client_result H this opts ua pre row post e k). }
    split.
    + intros Hmiss.
      assert (∀ key, key ∉ ["client_id"; "regstring"] →
                     client_join this row !! key = None) as Hnone.
      { intros key Hkey. rewrite client_join_missing by done.
        apply map_lookup_other; [done|not_a_key]. }
      split_and!.
      * intros k Hk.
        each_field Hk; (rewrite Hres by not_a_key);
          [rewrite F1|rewrite F2|rewrite F3|rewrite F4|rewrite F5|rewrite F6
          |rewrite F7|rewrite F8|rewrite F9|rewrite F10];
          f_equal; apply get_or_empty_None, Hnone; not_a_key.
      * rewrite Hres by not_a_key. rewrite Furl.
        by rewrite (get_or_empty_None _ "name") by (apply Hnone; not_a_key).
      * rewrite Hres by not_a_key. rewrite Fclass. f_equal.
        apply get_None, Hnone. not_a_key.
      * rewrite Hres by not_a_key. rewrite Fcode. f_equal.
        apply get_None, Hnone. not_a_key.
      * rewrite Hres by not_a_key. rewrite Fua.
        rewrite (get_None _ "name") by (apply Hnone; not_a_key).
        by destruct (Js.truthy (group1 e)).
    + intros c Hc Hmiss. split.
      * rewrite Hres by not_a_key. rewrite Fclass. f_equal.
        apply get_None. apply (client_join_class_missing this row c); [done|done|].
        not_a_key.
      * rewrite Hres by not_a_key. rewrite Fcode. f_equal.
        apply get_None. apply (client_join_class_missing this row c); [done|done|].
        not_a_key.
  - intros ua pre row post e Hua Hdata Hpre Hrow Hmiss res.
    by apply (os_result_missing H this opts ua pre row post e).
  - intros ua q Hua Hatt Hq Hmiss res.
    by apply (relation_result_missing H this opts ua q).
  - intros ua pre row post e Hua Hdata Hpre Hrow Hmiss Hidle res.
    by apply (deviceclass_result_missing H this opts ua pre row post e).
  - intros ua c Hua Hatt Hc Hmiss res.
    by apply (fallback_result_missing H this opts ua c).
  - intros ua qC Hua Hfind Hmiss res.
    by apply (brand_result_missing H this opts ua qC).
  - intros ip q Hip Hfind res crawler.
    assert (∀ k key,
              (k, key) ∈ [("ip_classification", "ip_classification");
                          ("ip_classification_code", "ip_classification_code");
                          ("crawler_name", "name"); ("crawler_ver", "ver");
                          ("crawler_ver_major", "ver_major"); ("crawler_family", "family");
                          ("crawler_family_code", "family_code");
                          ("crawler_family_homepage", "family_homepage");
                          ("crawler_family_vendor", "vendor");
                          ("crawler_family_vendor_code", "vendor_code");
                          ("crawler_family_vendor_homepage", "vendor_homepage");
                          ("crawler_family_icon", "family_icon");
                          ("crawler_last_seen", "last_seen");
                          ("crawler_category", "crawler_classification");
                          ("crawler_category_code", "crawler_classification_code");
                          ("crawler_respect_robotstxt", "respect_robotstxt")] →
              ip_join this q !! key = None → res !! k = Some (JStr "")) as Hres.
    { intros k key Hk Hnone.
      unfold res. rewrite (ip_result_fields H this opts ip q k key) by done.
      by rewrite get_or_empty_None. }
    split_and!.
    + intros Hmiss k Hk.
      each_field Hk; (eapply Hres; [listed|]);
        (apply ip_join_class_missing; [done|not_a_key]).
    + intros Hmiss. split.
      * intros k Hk.
        each_field Hk; (eapply Hres; [listed|]);
          (apply ip_join_crawler_missing; [done|not_a_key]).
      * intros Hcode. unfold res.
        rewrite (ip_result_info_url H this opts ip q) by done.
        rewrite (get_or_empty_None _ "family")
          by (apply ip_join_crawler_missing; [done|not_a_key]).
        rewrite (get_or_empty_None _ "botid")
          by (apply ip_join_crawler_missing; [done|not_a_key]).
        done.
    + intros c Hc Hmiss k Hk.
      each_field Hk; (eapply Hres; [listed|]);
        (apply (ip_join_crawler_class_missing this q c); [done|done|not_a_key]).
  - intros ip q Hip Hver Hfind Hmiss.
    destruct (datacenter_range_fields H this ip opts q Hip Hver Hfind)
      as (H1 & H2 & H3 & _).
    intros k Hk.
    each_field Hk; [rewrite H1|rewrite H2|rewrite H3]; f_equal;
      (apply get_or_empty_None, datacenter_join_missing; [done|not_a_key]).
  - intros ip q Hip Hver Hfind Hmiss.
    destruct (datacenter_range6_fields H this opts ip q Hip Hver Hfind)
      as (H1 & H2 & H3).
    intros k Hk.
    each_field Hk; [rewrite H1|rewrite H2|rewrite H3]; f_equal;
      (apply get_or_empty_None, datacenter_join_missing; [done|not_a_key]).
Qed.

Lemma dangling_foreign_key_witness :
  let googlebot := "Googlebot/2.1 (+http://www.google.com/bot.html)" in
  let firefox :=
    "Mozilla/5.0 (X11; Linux x86_64; rv:40.0) Gecko/20100101 Firefox/40.0" in
  let nexus :=
    "Mozilla/5.0 (Linux; Android 6.0.1; Nexus 5 Build/M4B30Z) Safari/537.36" in
  let ua_result ua := udger (parseUa Sample.helpers sparse (Some ua) Demo.classic) in
  let ip_result ip := udger (parseIp Sample.helpers sparse (Some ip) Demo.classic) in
  let d := data sparse in
  (crawler_lookup sparse googlebot = Some Demo.googlebot_row
   ∧ missing (udger_crawler_class d) (JNum 0)
   ∧ ua_result googlebot !! "crawler_category" = Some (JStr ""))
  ∧ (client_pattern_match Sample.helpers sparse Demo.iemobile_ua Demo.iemobile_pattern
     = Some [Some "IEMobile/11.0"; Some "11.0"]
     ∧ missing (udger_client_list d) (JNum 1)
     ∧ ua_result Demo.iemobile_ua !! "ua_family" = Some (JStr "")
     ∧ ua_result Demo.iemobile_ua !! "ua_family_info_url"
       = Some (JStr "https://udger.com/resources/ua-list/browser-detail?browser=")
     ∧ ua_result Demo.iemobile_ua !! "ua_class" = Some JUndef
     ∧ ua_result Demo.iemobile_ua !! "ua" = Some (JStr "undefined 11.0"))
  ∧ (client_pattern_match Sample.helpers sparse firefox Demo.firefox_pattern
     = Some [Some "Firefox/40.0"; Some "40.0"]
     ∧ missing (udger_client_class d) (JNum 9)
     ∧ ua_result firefox !! "ua_class" = Some JUndef
     ∧ ua_result firefox !! "ua_class_code" = Some JUndef)
  ∧ (os_pattern_match Sample.helpers sparse Demo.haiku_ua Demo.haiku_pattern
     = Some [Some "Haiku"]
     ∧ missing (udger_os_list d) (JNum 5)
     ∧ ua_result Demo.haiku_ua !! "os" = Some (JStr "")
     ∧ ua_result Demo.haiku_ua !! "os_info_url"
       = Some (JStr "https://udger.com/resources/ua-list/os-detail?os="))
  ∧ (os_relation_attempted (after_os Sample.helpers sparse Demo.classic firefox) = true
     ∧ relation_lookup sparse = Some [JNum 0; JNum 1]
     ∧ relation_key sparse (after_os Sample.helpers sparse Demo.classic firefox)
       = JStr "/Haiku/si"
     ∧ ua_result firefox !! "os_family" = Some (JStr ""))
  ∧ (deviceclass_pattern_match Sample.helpers sparse Demo.iemobile_ua
       [JNum 1; JStr "/Mobile/si"] = Some [Some "Mobile"]
     ∧ missing (udger_deviceclass_list d) (JNum 1)
     ∧ ua_result Demo.iemobile_ua !! "device_class" = Some (JStr "")
     ∧ ua_result Demo.iemobile_ua !! "device_class_info_url"
       = Some (JStr "https://udger.com/resources/ua-list/device-detail?device=undefined"))
  ∧ (class_lookup sparse (after_patterns Sample.helpers sparse Demo.classic googlebot)
     = Some [JNum 99; JStr "Crawler"; JStr "crawler"; JNum 2]
     ∧ missing (udger_deviceclass_list d) (JNum 2)
     ∧ ua_result googlebot !! "device_class_code" = Some (JStr "")
     ∧ ua_result googlebot !! "device_class_info_url"
       = Some (JStr "https://udger.com/resources/ua-list/device-detail?device="))
  ∧ (devicename_lookup Sample.helpers sparse nexus
       (after_fallback Sample.helpers sparse Demo.classic nexus) = Some nexus_5
     ∧ missing (udger_devicename_brand d) (JNum 0)
     ∧ ua_result nexus !! "device_marketname" = Some (JStr "Nexus 5")
     ∧ ua_result nexus !! "device_brand" = Some (JStr "")
     ∧ ua_result nexus !! "device_brand_info_url"
       = Some (JStr "https://udger.com/resources/ua-list/devices-brand-detail?brand="))
  ∧ (missing (udger_ip_class d) (JNum 9)
     ∧ ip_result "10.0.0.2" !! "ip_classification" = Some (JStr ""))
  ∧ (missing (udger_crawler_list d) (JNum 7)
     ∧ ip_result "10.0.0.1" !! "ip_classification_code" = Some (JStr "crawler")
     ∧ ip_result "10.0.0.1" !! "crawler_name" = Some (JStr "")
     ∧ ip_result "10.0.0.1" !! "crawler_category" = Some (JStr "")
     ∧ ip_result "10.0.0.1" !! "crawler_family_info_url"
       = Some (JStr "https://udger.com/resources/ua-list/bot-detail?bot=#id"))
  ∧ (row_at (udger_crawler_list d) (JNum 0) = RRow Demo.googlebot_row
     ∧ missing (udger_crawler_class d) (JNum 0)
     ∧ ip_result "66.249.64.73" !! "crawler_name" = Some (JStr "Googlebot/2.1")
     ∧ ip_result "66.249.64.73" !! "crawler_category" = Some (JStr ""))
  ∧ (missing (udger_datacenter_list d) (JNum 0)
     ∧ ip_result "66.249.64.1" !! "datacenter_name" = Some (JStr "")
     ∧ ip_result "2001:0db8:0:0:0:0:0:1" !! "datacenter_name_code" = Some (JStr "")).
Proof.
  intros googlebot firefox nexus ua_result ip_result d.
  destruct (dangling_foreign_key Sample.helpers sparse Demo.classic)
    as (Hcrawler & Hclient & Hos & Hrelation & Hpattern & Hfallback & Hbrand
        & Hip & Hrange & Hrange6).
  split_and!.
  - by vm_compute.
  - by vm_compute.
  - apply (Hcrawler googlebot Demo.googlebot_row); [done|by vm_compute|by vm_compute|].
    not_a_key.
  - by vm_compute.
  - by vm_compute.
  - destruct (Hclient Demo.iemobile_ua [Demo.firefox_pattern] Demo.iemobile_pattern
                [Demo.curl_pattern] [Some "IEMobile/11.0"; Some "11.0"])
      as [Hmiss _]; [done|by vm_compute|done| |by vm_compute|].
    { intros r0 Hr0. apply list_elem_of_singleton in Hr0 as ->. by vm_compute. }
    destruct Hmiss as (Hall & _); [by vm_compute|]. apply Hall. not_a_key.
  - destruct (Hclient Demo.iemobile_ua [Demo.firefox_pattern] Demo.iemobile_pattern
                [Demo.curl_pattern] [Some "IEMobile/11.0"; Some "11.0"])
      as [Hmiss _]; [done|by vm_compute|done| |by vm_compute|].
    { intros r0 Hr0. apply list_elem_of_singleton in Hr0 as ->. by vm_compute. }
    destruct Hmiss as (_ & Hurl & _); [by vm_compute|]. exact Hurl.
  - destruct (Hclient Demo.iemobile_ua [Demo.firefox_pattern] Demo.iemobile_pattern
                [Demo.curl_pattern] [Some "IEMobile/11.0"; Some "11.0"])
      as [Hmiss _]; [done|by vm_compute|done| |by vm_compute|].
    { intros r0 Hr0. apply list_elem_of_singleton in Hr0 as ->. by vm_compute. }
    destruct Hmiss as (_ & _ & Hclass & _); [by vm_compute|]. exact Hclass.
  - destruct (Hclient Demo.iemobile_ua [Demo.firefox_pattern] Demo.iemobile_pattern
                [Demo.curl_pattern] [Some "IEMobile/11.0"; Some "11.0"])
      as [Hmiss _]; [done|by vm_compute|done| |by vm_compute|].
    { intros r0 Hr0. apply list_elem_of_singleton in Hr0 as ->. by vm_compute. }
    destruct Hmiss as (_ & _ & _ & _ & Hua); [by vm_compute|]. exact Hua.
  - by vm_compute.
  - by vm_compute.
  - destruct (Hclient firefox [] Demo.firefox_pattern
                [Demo.iemobile_pattern; Demo.curl_pattern]
                [Some "Firefox/40.0"; Some "40.0"])
      as [_ Hclass]; [done|by vm_compute|done| |by vm_compute|].
    { intros r0 Hr0. by apply elem_of_nil in Hr0. }
    apply (Hclass [JNum 3; JNum 9; JStr "Firefox"; JStr "firefox";
                   JStr "http://www.firefox.com/"; JStr "firefox.png";
                   JStr "firefox_big.png"; JStr "Gecko"; JStr "Mozilla Foundation";
                   JStr "mozilla_foundation"; JStr "http://www.mozilla.org/";
                   JStr "50"]); by vm_compute.
  - destruct (Hclient firefox [] Demo.firefox_pattern
                [Demo.iemobile_pattern; Demo.curl_pattern]
                [Some "Firefox/40.0"; Some "40.0"])
      as [_ Hclass]; [done|by vm_compute|done| |by vm_compute|].
    { intros r0 Hr0. by apply elem_of_nil in Hr0. }
    apply (Hclass [JNum 3; JNum 9; JStr "Firefox"; JStr "firefox";
                   JStr "http://www.firefox.com/"; JStr "firefox.png";
                   JStr "firefox_big.png"; JStr "Gecko"; JStr "Mozilla Foundation";
                   JStr "mozilla_foundation"; JStr "http://www.mozilla.org/";
                   JStr "50"]); by vm_compute.
  - by vm_compute.
  - by vm_compute.
  - destruct (Hos Demo.haiku_ua [Demo.android_pattern; Demo.windows10_pattern]
                Demo.haiku_pattern [] [Some "Haiku"]) as [Hall _];
      [done|done| |by vm_compute|by vm_compute|apply Hall; not_a_key].
    apply Forall_forall. refine (bool_decide_unpack _ _). vm_compute. exact I.
  - destruct (Hos Demo.haiku_ua [Demo.android_pattern; Demo.windows10_pattern]
                Demo.haiku_pattern [] [Some "Haiku"]) as [_ Hurl];
      [done|done| |by vm_compute|by vm_compute|exact Hurl].
    apply Forall_forall. refine (bool_decide_unpack _ _). vm_compute. exact I.
  - by vm_compute.
  - by vm_compute.
  - by vm_compute.
  - destruct (Hrelation firefox [JNum 0; JNum 1]) as [Hall _];
      [done|by vm_compute|by vm_compute|by vm_compute|apply Hall; not_a_key].
  - by vm_compute.
  - by vm_compute.
  - destruct (Hpattern Demo.iemobile_ua [] [JNum 1; JStr "/Mobile/si"] []
                [Some "Mobile"]) as [Hall _];
      [done|done| |by vm_compute|by vm_compute|left; by vm_compute
      |apply Hall; not_a_key].
    intros r0 Hr0. by apply elem_of_nil in Hr0.
  - destruct (Hpattern Demo.iemobile_ua [] [JNum 1; JStr "/Mobile/si"] []
                [Some "Mobile"]) as [_ Hurl];
      [done|done| |by vm_compute|by vm_compute|left; by vm_compute|exact Hurl].
    intros r0 Hr0. by apply elem_of_nil in Hr0.
  - by vm_compute.
  - by vm_compute.
  - destruct (Hfallback googlebot [JNum 99; JStr "Crawler"; JStr "crawler"; JNum 2])
      as [Hall _];
      [done|by vm_compute|by vm_compute|by vm_compute|apply Hall; not_a_key].
  - destruct (Hfallback googlebot [JNum 99; JStr "Crawler"; JStr "crawler"; JNum 2])
      as [_ Hurl]; [done|by vm_compute|by vm_compute|by vm_compute|exact Hurl].
  - by vm_compute.
  - by vm_compute.
  - by vm_compute.
  - destruct (Hbrand nexus nexus_5) as [Hall _];
      [done|by vm_compute|by vm_compute|apply Hall; not_a_key].
  - destruct (Hbrand nexus nexus_5) as [_ Hurl];
      [done|by vm_compute|by vm_compute|exact Hurl].
  - by vm_compute.
  - destruct (Hip "10.0.0.2"
                [JStr "10.0.0.2"; JNum 9; JNull; JStr "2017-01-08"; JStr "";
                 JStr ""; JStr ""; JStr ""]) as (Hclass & _);
      [done|by vm_compute|].
    apply Hclass; [by vm_compute|not_a_key].
  - by vm_compute.
  - by vm_compute.
  - destruct (Hip "10.0.0.1"
                [JStr "10.0.0.1"; JNum 1; JNum 7; JStr "2017-01-07"; JStr "";
                 JStr ""; JStr ""; JStr ""]) as (_ & Hmiss & _);
      [done|by vm_compute|].
    destruct Hmiss as [Hall _]; [by vm_compute|]. apply Hall. not_a_key.
  - destruct (Hip "10.0.0.1"
                [JStr "10.0.0.1"; JNum 1; JNum 7; JStr "2017-01-07"; JStr "";
                 JStr ""; JStr ""; JStr ""]) as (_ & Hmiss & _);
      [done|by vm_compute|].
    destruct Hmiss as [Hall _]; [by vm_compute|]. apply Hall. not_a_key.
  - destruct (Hip "10.0.0.1"
                [JStr "10.0.0.1"; JNum 1; JNum 7; JStr "2017-01-07"; JStr "";
                 JStr ""; JStr ""; JStr ""]) as (_ & Hmiss & _);
      [done|by vm_compute|].
    destruct Hmiss as [_ Hurl]; [by vm_compute|]. apply Hurl. by vm_compute.
  - by vm_compute.
  - by vm_compute.
  - by vm_compute.
  - destruct (Hip "66.249.64.73"
                [JStr "66.249.64.73"; JNum 1; JNum 0; JStr "2017-01-06";
                 JStr "crawl-66-249-64-73.googlebot.com"; JStr "United States";
                 JStr "Mountain View"; JStr "US"]) as (_ & _ & Hclass);
      [done|by vm_compute|].
    apply (Hclass Demo.googlebot_row); [by vm_compute|by vm_compute|not_a_key].
  - by vm_compute.
  - apply (Hrange "66.249.64.1" [JNum 0; JNum 1123631104; JNum 1123639295]);
      [done|by vm_compute|by vm_compute|by vm_compute|not_a_key].
  - apply (Hrange6 "2001:0db8:0:0:0:0:0:1"
             [JNum 0; JNum 8193; JNum 3512; JNum 0; JNum 0; JNum 0; JNum 0; JNum 0;
              JNum 0; JNum 8193; JNum 3512; JNum 65535; JNum 65535; JNum 65535;
              JNum 65535; JNum 65535; JNum 65535]);
      [done|by vm_compute|by vm_compute|by vm_compute|not_a_key].
Defined.
